(** * NACO calibration pipeline: decision logic of [NACO_calibration.py]

    A shallow embedding of the selection, counting and reduction logic of
    [naco_pip/NACO_calibration.py].  Pixel and flux values are IEEE doubles
    in the program; here they are exact rationals ([Q]), and the places where
    numpy produces a non-finite value (median or standard deviation of an
    empty selection, division by a zero flux) are made explicit.  Python
    exceptions are values of [exn] carried by the [result] monad. *)

From Stdlib Require Import ZArith QArith Qabs Qround Lia Lqa Bool.
From Stdlib Require Import Sorting.Permutation Sorting.Sorted.
From stdpp Require Import base option list strings gmap.

Local Open Scope Z_scope.

(** ** Python exceptions *)

Inductive exn : Set :=
| IndexError
| ValueError
| NameError
| UnboundLocalError
| FileNotFoundError.

Inductive result (A : Type) : Type :=
| Ok (a : A)
| Raise (e : exn).
Arguments Ok {A} a.
Arguments Raise {A} e.

#[global] Instance result_ret : MRet result := fun _ a => Ok a.
#[global] Instance result_bind : MBind result := fun _ _ f m =>
  match m with
  | Ok a => f a
  | Raise e => Raise e
  end.

Definition raising {A} (r : result A) : Prop := exists e, r = Raise e.

(** ** The numpy and builtin operations the pipeline relies on *)

Module Np.

(** [int(x)] on a float: truncation toward zero. *)
Definition py_int (q : Q) : Z := Z.quot (Qnum q) (Zpos (Qden q)).

(** [min(x, y, ...)] on integers. *)
Definition py_min (x : Z) (xs : list Z) : Z := fold_left Z.min xs x.

(** [l[i]] with Python's negative indices. *)
Definition py_index {A} (l : list A) (i : Z) : result A :=
  let n := Z.of_nat (length l) in
  let j := if i <? 0 then i + n else i in
  if (0 <=? j) && (j <? n)
  then match l !! Z.to_nat j with Some a => Ok a | None => Raise IndexError end
  else Raise IndexError.

Definition Qltb (a b : Q) : bool := negb (Qle_bool b a).

(** [np.argmin]: position of the first smallest element, scanning from
    position [i] with the best candidate so far. *)
Fixpoint argmin_from (best : nat) (bv : Q) (i : nat) (l : list Q) : nat :=
  match l with
  | [] => best
  | x :: l' => if Qltb x bv then argmin_from i x (S i) l'
               else argmin_from best bv (S i) l'
  end.

Definition np_argmin (l : list Q) : result nat :=
  match l with
  | [] => Raise ValueError
  | x :: l' => Ok (argmin_from 0%nat x 1%nat l')
  end.

(** [np.sort] on a 1-d array. *)
Fixpoint insert_sorted (x : Q) (l : list Q) : list Q :=
  match l with
  | [] => [x]
  | y :: l' => if Qle_bool x y then x :: l else y :: insert_sorted x l'
  end.

Definition np_sort (l : list Q) : list Q := foldr insert_sorted [] l.

(** [np.median] of a 1-d array; [None] is the NaN numpy returns for an
    empty array. *)
Definition np_median (l : list Q) : option Q :=
  let s := np_sort l in
  let n := length l in
  match n with
  | O => None
  | _ => if Nat.even n
         then match s !! (n / 2 - 1)%nat, s !! (n / 2)%nat with
              | Some a, Some b => Some ((a + b) / 2)%Q
              | _, _ => None
              end
         else s !! (n / 2)%nat
  end.

(** [np.mean] of a 1-d array; NaN on an empty one. *)
Definition np_sum (l : list Q) : Q := foldr Qplus 0%Q l.

Definition np_mean (l : list Q) : option Q :=
  match l with
  | [] => None
  | _ => Some (np_sum l / inject_Z (Z.of_nat (length l)))%Q
  end.

End Np.

(** ** [find_nearest] *)

Module FindNearest.
Import Np.

(** The objects that meet [==] inside [find_nearest]: strings, [None], and
    the builtin class [type], which the body names where the parameter
    [constraint] was meant. *)
Inductive pyobj : Set :=
| PyNone
| PyStr (s : string)
| PyBuiltinType.

Definition py_eq (a b : pyobj) : bool :=
  match a, b with
  | PyNone, PyNone => true
  | PyStr s, PyStr t => bool_decide (s = t)
  | PyBuiltinType, PyBuiltinType => true
  | _, _ => false
  end.

Inductive array_arg : Type :=
| NdArray (a : list Q)
| PyList (a : list Q)
| OtherObj.

Inductive nearest_out : Type :=
| OutIndex (idx : Z)
| OutValue (v : Q)
| OutBoth (v : Q) (idx : Z).

Definition find_nearest (array : array_arg) (value : Q) (output : string)
    (constraint : pyobj) : result nearest_out :=
  array ← match array with
          | NdArray a => Ok a
          | PyList a => Ok a
          | OtherObj => Raise ValueError
          end;
  idx ← np_argmin (map (fun x => Qabs (x - value)) array);
  let idx := Z.of_nat idx in
  idx ← (if py_eq PyBuiltinType (PyStr "ceil")
         then a ← py_index array idx;
              if Qltb (a - value) 0 then Ok (idx + 1)
              else if py_eq PyBuiltinType (PyStr "floor")
                   then a ← py_index array idx;
                        if Qltb (value - a) 0 then Ok (idx - 1) else Ok idx
                   else Ok idx
         else if py_eq PyBuiltinType (PyStr "floor")
              then a ← py_index array idx;
                   if Qltb (value - a) 0 then Ok (idx - 1) else Ok idx
              else Ok idx);
  if bool_decide (output = "index") then Ok (OutIndex idx)
  else if bool_decide (output = "value")
       then a ← py_index array idx; Ok (OutValue a)
       else a ← py_index array idx; Ok (OutBoth a idx).

End FindNearest.

(** ** [raw_dataset.get_final_sz] *)

Module FinalSz.
Import Np.

(** The attributes of [self] that [get_final_sz] reads. *)
Record raw_dataset := {
  agpm_pos : Z * Z;
  com_sz : Z;
  shadow_r : Q
}.

Definition get_final_sz (self : raw_dataset) (final_sz : option Z) : Z :=
  let a0 := fst (agpm_pos self) in
  let a1 := snd (agpm_pos self) in
  let final_sz_ori :=
    match final_sz with
    | None =>
        py_min (2 * a0 - 1)
          [2 * a1 - 1; 2 * (com_sz self - a0) - 1; 2 * (com_sz self - a1) - 1;
           py_int (2 * shadow_r self)]
    | Some final_sz =>
        py_min (2 * a0 - 1)
          [2 * a1 - 1; 2 * (com_sz self - a0) - 1; 2 * (com_sz self - a1) - 1;
           py_int (2 * shadow_r self); final_sz]
    end in
  let final_sz_ori :=
    if final_sz_ori mod 2 =? 0 then final_sz_ori - 1 else final_sz_ori in
  final_sz_ori.

End FinalSz.

(** ** [raw_dataset.first_frames_removal] *)

Module FirstFrames.
Import Np.

(** A frame is its pixel values, a cube its frames in order.  A rescaled
    pixel is [None] when the program's division leaves the finite range
    (zero flux, or the NaN median of an empty slice). *)
Definition frame : Type := list Q.
Definition cube : Type := list frame.
Definition scaled_frame : Type := list (option Q).
Definition scaled_cube : Type := list scaled_frame.

Inductive plot_option : Set := PlotSave | PlotShow | PlotNone.

Definition truthy (plot : plot_option) : bool :=
  match plot with PlotNone => false | _ => true end.

(** The entries of [dataset_dict] the stage reads. *)
Record dataset_dict := {
  ndit_sci : list Z;
  ndit_sky : list Z;
  ndit_unsat : list Z;
  fast_reduction : bool
}.

(** What the stage leaves behind: the [3_rmfr_] cubes, in the order of
    [sci_list] and [sky_list], and the counts saved in
    [new_ndit_sci_sky_unsat]. *)
Record stage_out := {
  nfr_rm : nat;
  rmfr_sci : list scaled_cube;
  rmfr_sky : list scaled_cube;
  new_ndit_sci : Z;
  new_ndit_sky : Z;
  new_ndit_unsat : Z
}.

(** [min(l)] on a list: ValueError when empty. *)
Definition py_min_list (l : list Z) : result Z :=
  match l with
  | [] => Raise ValueError
  | x :: xs => Ok (py_min x xs)
  end.

(** [l[i]] for a loop index [i >= 0]. *)
Definition index_nat {A} (l : list A) (i : nat) : result A :=
  match l !! i with
  | Some a => Ok a
  | None => Raise IndexError
  end.

(** Run [f] over [l] in order, stopping at the first exception. *)
Fixpoint traverse {A B} (f : A -> result B) (l : list A) : result (list B) :=
  match l with
  | [] => Ok []
  | a :: l' => b ← f a; bs ← traverse f l'; Ok (b :: bs)
  end.

(** [np.zeros([k, ...])] and [np.ones([k, ...])] refuse a negative size. *)
Definition np_alloc (k : Z) : result unit :=
  if k <? 0 then Raise ValueError else Ok ().

(** [for ii in range(n): arr[ii]] over an array of [len] entries. *)
Definition check_range (n : Z) (len : nat) : result unit :=
  if Z.max n 0 <=? Z.of_nat len then Ok () else Raise IndexError.

Definition fdiv (a b : Q) : option Q :=
  if Qeq_bool b 0 then None else Some (a / b)%Q.

(** [tmp[dd] * m / f], pixel by pixel. *)
Definition rescale (tmp_dd : frame) (m : option Q) (f : Q) : scaled_frame :=
  map (fun p => match m with
                | Some m => fdiv (p * m) f
                | None => None
                end) tmp_dd.

(** [np.median(tmp_fluxes, axis=0)] for [ncols] columns; the stage only
    takes it with at least one row. *)
Definition median_axis0 (tmp_fluxes : list (list Q)) (ncols : nat) : list Q :=
  map (fun ii => default 0%Q (np_median (map (fun row => nth ii row 0%Q) tmp_fluxes)))
      (seq 0 ncols).

Section Stage.

(** [np.sum(get_annulus_segments(frame, mask_inner_rad, mask_width,
    mode='mask')[0])]: the flux of a frame in the annulus around the star
    (vip_hci). *)
Variable annulus_flux : frame -> Q.

(** [np.std] of a non-empty 1-d array (numpy). *)
Variable np_std : list Q -> Q.

(** The test of the flagging loop on frame-index [ii]. *)
Definition flagged (x med_flux std_flux : Q) (ii : nat) : bool :=
  Qltb (med_flux + 2 * std_flux) x || Qltb x (med_flux - 2 * std_flux)
  || (ii =? 0)%nat.

(** The flagging loop from frame-index [ii] on, threading [first_time] and
    [nfr_rm] ([None] while the name is unbound). *)
Fixpoint flag_loop (tmp_flux_med : list Q) (med_flux std_flux : Q) (ii : nat)
    (first_time : bool) (nfr_rm : option nat) : option nat :=
  match tmp_flux_med with
  | [] => nfr_rm
  | x :: rest =>
      if flagged x med_flux std_flux ii
      then flag_loop rest med_flux std_flux (S ii) first_time nfr_rm
      else if first_time
           then flag_loop rest med_flux std_flux (S ii) false (Some (ii `min` 10)%nat)
           else flag_loop rest med_flux std_flux (S ii) first_time nfr_rm
  end.

Definition find_nfr_rm (tmp_flux_med : list Q) : option nat :=
  match np_median tmp_flux_med with
  | None => None
  | Some med_flux =>
      flag_loop tmp_flux_med med_flux (np_std tmp_flux_med) 0 true None
  end.

(** Annular flux of frames [start .. start+n-1] of a cube. *)
Definition measure (tmp : cube) (start n : nat) : result (list Q) :=
  traverse (fun ii => f ← index_nat tmp ii; Ok (annulus_flux f)) (seq start n).

(** Body of the science loop: crop to [cnt] frames from [nfr_rm] on and
    rescale each by the median of the cube's flux row over its own flux. *)
Definition crop_rescale_sci (nfr_rm : nat) (tmp : cube) (cnt : Z)
    (row : list Q) : result scaled_cube :=
  _ ← np_alloc cnt;
  traverse (fun dd => tmp_dd ← index_nat tmp dd;
                      f ← index_nat row dd;
                      Ok (rescale tmp_dd (np_median row) f))
           (seq nfr_rm (Z.to_nat cnt)).

(** Body of the sky loop. *)
Definition crop_rescale_sky (nfr_rm : nat) (tmp : cube) (cnt : Z)
    (row : list Q) : result scaled_cube :=
  _ ← np_alloc cnt;
  traverse (fun dd => tmp_dd ← index_nat tmp dd;
                      f ← index_nat row (dd - nfr_rm)%nat;
                      Ok (rescale tmp_dd (np_median (drop nfr_rm row)) f))
           (seq nfr_rm (Z.to_nat cnt)).

(** The stage on the [2_bpix_corr2_] cubes of [sci_list] and [sky_list].
    The rotation angles, the unsaturated cubes and the plots themselves are
    left out; the array accesses made for the plots are kept, since they
    decide whether the stage completes. *)
Definition first_frames_removal (dd : dataset_dict) (plot : plot_option)
    (sci sky : list cube) : result stage_out :=
  _ ← py_index sci (-1);
  real_ndit_sci ← traverse (fun tmp_tmp => _ ← py_index tmp_tmp (-1);
                              Ok (Z.of_nat (length tmp_tmp) - 1)) sci;
  real_ndit_sky ← traverse (fun tmp_tmp => _ ← py_index tmp_tmp (-1);
                              Ok (Z.of_nat (length tmp_tmp) - 1)) sky;
  min_ndit_sci ← py_min_list real_ndit_sci;
  let ncols := Z.to_nat min_ndit_sci in
  fl ← (if fast_reduction dd
        then Ok (map (fun _ => repeat 1%Q ncols) sci, Some 0%nat)
        else tmp_fluxes ← traverse (fun tmp => measure tmp 0 ncols) sci;
             Ok (tmp_fluxes, find_nfr_rm (median_axis0 tmp_fluxes ncols)));
  let tmp_fluxes := fst fl in
  nfr_rm ← match snd fl with
           | Some k => Ok k
           | None => Raise UnboundLocalError
           end;
  nominal_sci ← py_min_list (ndit_sci dd);
  let real_ndit_sci :=
    map (fun r => Z.min (r - Z.of_nat nfr_rm) (nominal_sci - Z.of_nat nfr_rm))
        real_ndit_sci in
  min_ndit_sky ← py_min_list real_ndit_sky;
  let real_ndit_sky :=
    map (fun _ => min_ndit_sky - Z.of_nat nfr_rm) real_ndit_sky in
  let new_ndit_sci := nominal_sci - Z.of_nat nfr_rm in
  nominal_sky ← py_min_list (ndit_sky dd);
  let new_ndit_sky := nominal_sky - Z.of_nat nfr_rm in
  nominal_unsat ← py_min_list (ndit_unsat dd);
  let new_ndit_unsat := nominal_unsat - Z.of_nat nfr_rm in
  rmfr_sci ← traverse (fun '(tmp, cnt, row) => crop_rescale_sci nfr_rm tmp cnt row)
                (zip (zip sci real_ndit_sci) tmp_fluxes);
  _ ← np_alloc new_ndit_sci;
  _ ← traverse (fun tmp => check_range new_ndit_sci (length tmp)) rmfr_sci;
  _ ← (if fast_reduction dd then Ok ()
       else check_range (min_ndit_sci - Z.of_nat nfr_rm) (Z.to_nat new_ndit_sci));
  _ ← np_alloc new_ndit_sky;
  tmp_fluxes_sky ←
    (if fast_reduction dd
     then Ok (map (fun _ => repeat 1%Q (Z.to_nat new_ndit_sky)) sky)
     else traverse (fun tmp => measure tmp nfr_rm (Z.to_nat new_ndit_sky)) sky);
  rmfr_sky ← traverse (fun '(tmp, cnt, row) => crop_rescale_sky nfr_rm tmp cnt row)
                (zip (zip sky real_ndit_sky) tmp_fluxes_sky);
  _ ← (if truthy plot
       then traverse (fun tmp => check_range new_ndit_sky (length tmp)) rmfr_sky
       else Ok []);
  Ok {| nfr_rm := nfr_rm; rmfr_sci := rmfr_sci; rmfr_sky := rmfr_sky;
        new_ndit_sci := new_ndit_sci; new_ndit_sky := new_ndit_sky;
        new_ndit_unsat := new_ndit_unsat |}.

End Stage.

End FirstFrames.

(** ** [raw_dataset.subtract_sky]: dust specks and frame alignment *)

Module DustSpecks.
Import Np.
Import FirstFrames (index_nat, np_alloc).

(** An n-dimensional array: its shape and its entries in row-major order. *)
Record ndarray (A : Type) := {
  shape : list nat;
  data : list A
}.
Arguments shape {A} _.
Arguments data {A} _.

Definition size_of (shape : list nat) : nat := foldr Nat.mul 1%nat shape.

Definition np_zeros (shape : list nat) : ndarray Q :=
  {| shape := shape; data := repeat 0%Q (size_of shape) |}.

(** Row-major position of a full index; IndexError outside the shape. *)
Fixpoint flat_index (shape idx : list nat) : result nat :=
  match shape, idx with
  | [], [] => Ok 0%nat
  | n :: shape', i :: idx' =>
      if (i <? n)%nat
      then r ← flat_index shape' idx'; Ok (i * size_of shape' + r)%nat
      else Raise IndexError
  | _, _ => Raise IndexError
  end.

(** [a[idx] = v]. *)
Definition setitem (a : ndarray Q) (idx : list nat) (v : Q) : result (ndarray Q) :=
  j ← flat_index (shape a) idx;
  Ok {| shape := shape a; data := <[j := v]> (data a) |}.

(** [a[idx]]. *)
Definition getitem {A} (a : ndarray A) (idx : list nat) : result A :=
  j ← flat_index (shape a) idx;
  index_nat (data a) j.

(** The entries of [a] along axis 0 at position [j] of the remaining axes. *)
Definition column (a : ndarray Q) (j : nat) : list Q :=
  match shape a with
  | [] => []
  | n0 :: rest =>
      map (fun i => nth (i * size_of rest + j) (data a) 0%Q) (seq 0 n0)
  end.

(** [np.median(a, axis=0)]; an entry is NaN ([None]) when axis 0 is empty. *)
Definition np_median_axis0 (a : ndarray Q) : result (ndarray (option Q)) :=
  match shape a with
  | [] => Raise ValueError
  | n0 :: rest =>
      Ok {| shape := rest;
            data := map (fun j => np_median (column a j)) (seq 0 (size_of rest)) |}
  end.

(** A row of the detection table; [px_snr] is [None] for NaN. *)
Record detection_row := {
  det_y : Q;
  det_x : Q;
  px_snr : option Q
}.

(** What a 2-d Gaussian fit reports; the fitted widths are positive. *)
Record gauss_fit := {
  centroid_x : Q;
  centroid_y : Q;
  fit_fwhm_x : Q;
  fit_fwhm_y : Q;
  amplitude : Q;
  fit_fwhm_x_pos : (0 < fit_fwhm_x)%Q;
  fit_fwhm_y_pos : (0 < fit_fwhm_y)%Q
}.

(** The three ways [subtract_sky] calls [fit_2dgaussian]: on the reference
    frame (thresholded, full output), on the median of the first science
    cube (thresholded, both widths given), and on each frame (centroid only). *)
Inductive fit_call : Set := FitReference | FitCube0 | FitFrame.

Definition snr_thr : Q := 10.
Definition snr_thr_all : Q := 30.

(** One pass of the selection loop over the detection table. *)
Definition select_step (cy cx fwhm : Q) (acc : list (Q * Q) * list (Q * Q))
    (row : detection_row) : list (Q * Q) * list (Q * Q) :=
  let '(dust_xy_all, dust_xy_tmp) := acc in
  match px_snr row with
  | None => acc
  | Some snr =>
      if Qltb (3 * fwhm) (Qabs (det_y row - cy))
         && Qltb (3 * fwhm) (Qabs (det_x row - cx))
      then
        let dust_xy_all :=
          if Qltb snr_thr_all snr
          then dust_xy_all ++ [(det_x row, det_y row)] else dust_xy_all in
        let dust_xy_tmp :=
          if (Qltb cy (det_y row) || Qltb cx (det_x row)) && Qltb snr_thr snr
          then dust_xy_tmp ++ [(det_x row, det_y row)] else dust_xy_tmp in
        (dust_xy_all, dust_xy_tmp)
      else acc
  end.

Definition select_dust (table_det : list detection_row) (cy cx fwhm : Q)
    : list (Q * Q) * list (Q * Q) :=
  foldl (select_step cy cx fwhm) ([], []) table_det.

(** The test that sends a fitted speck to [bad_dust]. *)
Definition non_circular (g : gauss_fit) : bool :=
  Qltb (fit_fwhm_y g / fit_fwhm_x g) (8 # 10)
  || Qltb (12 # 10) (fit_fwhm_y g / fit_fwhm_x g).

(** A loop with its index, threading a state and stopping at the first
    exception. *)
Fixpoint for_each {St A} (body : nat -> A -> St -> result St) (i : nat)
    (l : list A) (s : St) : result St :=
  match l with
  | [] => Ok s
  | a :: l' => s' ← body i a s; for_each body (S i) l' s'
  end.

Section Tracker.

Variable image : Type.

(** vip_hci and numpy collaborators; [frame_shift] takes the shift along y,
    then along x. *)
Variable frame_filter_highpass : image -> image.
Variable fit_2dgaussian : image -> Q * Q -> Z -> fit_call -> result gauss_fit.
Variable cube_median : list image -> image.
Variable frame_shift : image -> option Q -> option Q -> image.

(** The circularity loop: positions of the specks to drop. *)
Definition find_bad_dust (tmp : image) (crop_sz : Z)
    (dust_xy_tmp : list (Q * Q)) : result (list nat) :=
  for_each (fun dd xy bad_dust =>
              table_gaus ← fit_2dgaussian tmp xy crop_sz FitReference;
              if non_circular table_gaus then Ok (bad_dust ++ [dd])
              else Ok bad_dust)
           0 dust_xy_tmp [].

(** [[xy for i, xy in enumerate(dust_xy_tmp) if i not in bad_dust]]. *)
Definition drop_bad (dust_xy_tmp : list (Q * Q)) (bad_dust : list nat)
    : list (Q * Q) :=
  (fun p => p.2) <$> filter (fun p => p.1 ∉ bad_dust) (imap pair dust_xy_tmp).

(** [try: fit ... except ValueError: fall back to the guess]. *)
Definition centroid_or (r : result gauss_fit) (guess : Q * Q) : result (Q * Q) :=
  match r with
  | Ok g => Ok (centroid_x g, centroid_y g)
  | Raise ValueError => Ok guess
  | Raise e => Raise e
  end.

(** Displacements of every speck in every frame of every cube of a list,
    written into a zero table of shape [ndust, n_cubes, new_ndit, 2]. *)
Definition track (dust_xy xy_cube0 : list (Q * Q)) (crop_sz : Z)
    (cubes : list (list image)) (new_ndit : Z) : result (ndarray Q) :=
  _ ← np_alloc new_ndit;
  for_each (fun sc tmp_cube shifts =>
    for_each (fun zz frame shifts =>
      let tmp := frame_filter_highpass frame in
      for_each (fun dd xy shifts =>
        c ← centroid_or (fit_2dgaussian tmp xy crop_sz FitFrame) xy;
        ref ← index_nat xy_cube0 dd;
        shifts ← setitem shifts [dd; sc; zz; 0%nat] (ref.1 - c.1)%Q;
        setitem shifts [dd; sc; zz; 1%nat] (ref.2 - c.2)%Q)
        0 dust_xy shifts)
      0 tmp_cube shifts)
    0 cubes
    (np_zeros [length dust_xy; length cubes; Z.to_nat new_ndit; 2%nat]).

(** [frame_shift(tmp[zz], med[sc,zz,1], med[sc,zz,0])] over a cube. *)
Definition shift_cube (med : ndarray (option Q)) (sc : nat)
    (tmp : list image) : result (list image) :=
  FirstFrames.traverse
    (fun '(zz, frame) =>
       dy ← getitem med [sc; zz; 1%nat];
       dx ← getitem med [sc; zz; 0%nat];
       Ok (frame_shift frame dy dx))
    (imap pair tmp).

(** The science loop swallows every exception of its body and writes
    nothing for that cube. *)
Definition swallow {A} (r : result A) : option A :=
  match r with
  | Ok a => Some a
  | Raise _ => None
  end.

Record alignment := {
  dust_xy_all : list (Q * Q);
  dust_xy : list (Q * Q);
  shifts_xy_sci : ndarray Q;
  shifts_xy_sky : ndarray Q;
  shifts_xy_sci_med : ndarray (option Q);
  shifts_xy_sky_med : ndarray (option Q);
  aligned_sci : list (option (list image));
  aligned_sky : list (list image)
}.

(** The part of [subtract_sky] from the detection table to the reduced
    shifts.  [tmp] is the high-pass filtered [TMP_med_bef_SKY_subtr] frame,
    [(cy, cx)] its centre, [sci] and [sky] the [3_rmfr_] cubes. *)
Definition align_on_dust (tmp : image) (table_det : list detection_row)
    (cy cx fwhm resel_ori : Q) (sci sky : list (list image))
    (new_ndit_sci new_ndit_sky : Z) : result alignment :=
  let '(dust_xy_all, dust_xy_tmp) := select_dust table_det cy cx fwhm in
  let crop_sz := py_int (5 * resel_ori) in
  let crop_sz := if crop_sz mod 2 =? 0 then crop_sz - 1 else crop_sz in
  bad_dust ← find_bad_dust tmp crop_sz dust_xy_tmp;
  let dust_xy := drop_bad dust_xy_tmp bad_dust in
  let crop_sz := py_int (3 * resel_ori) in
  tmp_cube ← index_nat sci 0;
  let tmp := frame_filter_highpass (cube_median tmp_cube) in
  xy_cube0 ← FirstFrames.traverse
                (fun xy => centroid_or (fit_2dgaussian tmp xy crop_sz FitCube0) xy)
                dust_xy;
  let crop_sz := if crop_sz mod 2 =? 0 then crop_sz + 1 else crop_sz in
  shifts_xy_sci ← track dust_xy xy_cube0 crop_sz sci new_ndit_sci;
  shifts_xy_sky ← track dust_xy xy_cube0 crop_sz sky new_ndit_sky;
  shifts_xy_sci_med ← np_median_axis0 shifts_xy_sci;
  shifts_xy_sky_med ← np_median_axis0 shifts_xy_sky;
  let aligned_sci :=
    imap (fun sc tmp => swallow (shift_cube shifts_xy_sci_med sc tmp)) sci in
  aligned_sky ← FirstFrames.traverse
                  (fun '(sk, tmp) => shift_cube shifts_xy_sky_med sk tmp)
                  (imap pair sky);
  Ok {| dust_xy_all := dust_xy_all; dust_xy := dust_xy;
        shifts_xy_sci := shifts_xy_sci; shifts_xy_sky := shifts_xy_sky;
        shifts_xy_sci_med := shifts_xy_sci_med;
        shifts_xy_sky_med := shifts_xy_sky_med;
        aligned_sci := aligned_sci; aligned_sky := aligned_sky |}.

End Tracker.

End DustSpecks.

(** ** [raw_dataset.subtract_sky]: removing the sky *)

Module SkySubtract.
Import Np.
Import FirstFrames (traverse, index_nat, np_alloc).

(** The [npc] argument: [None], a list of candidate ranks, or one rank. *)
Inductive npc_arg : Type :=
| NpcNone
| NpcList (l : list Z)
| NpcInt (n : Z).

(** [a[lo:hi]] for [0 <= lo]. *)
Definition py_slice {A} (a : list A) (lo hi : nat) : list A :=
  take (hi - lo) (drop lo a).

(** [np.argmin] on floats that may be NaN: the first NaN wins. *)
Fixpoint first_nan (i : nat) (l : list (option Q)) : option nat :=
  match l with
  | [] => None
  | None :: _ => Some i
  | Some _ :: l' => first_nan (S i) l'
  end.

Definition np_argmin_nan (l : list (option Q)) : result nat :=
  match first_nan 0 l with
  | Some i => Ok i
  | None => np_argmin (omap id l)
  end.

Section Modes.

Variable image : Type.

(** [np.median(cube, axis=0)] and the pixel-wise difference of two frames. *)
Variable cube_median : list image -> image.
Variable frame_sub : image -> image -> image.

(** [cube_subtract_sky_pca(cube, sky_cube, mask_AGPM, ref_cube=None,
    ncomp=npc)] (vip_hci). *)
Variable cube_subtract_sky_pca : list image -> list image -> Z -> list image.

(** [np.std(get_circle(np.median(tmp_tmp, axis=0), 3*fwhm, mode='val',
    cy=y, cx=x))]: scatter of the median residual in the aperture around the
    speck at [(x, y)]. *)
Variable aperture_std : list image -> Q * Q -> Q.

(** The intermediate products on disk, by file name, and the [MJD-OBS]
    entry of each raw file's header. *)
Definition open_fits (store : gmap string (list image)) (name : string)
    : result (list image) :=
  match store !! name with
  | Some cube => Ok cube
  | None => Raise FileNotFoundError
  end.

Definition mjd_obs (headers : gmap string Q) (name : string) : result Q :=
  match headers !! name with
  | Some t => Ok t
  | None => Raise FileNotFoundError
  end.

(** [cube - frame]. *)
Definition cube_minus (cube : list image) (frame : image) : list image :=
  map (fun f => frame_sub f frame) cube.

(** One median frame and one timestamp per sky cube. *)
Definition master_skies (store : gmap string (list image))
    (headers : gmap string Q) (sky_list : list string)
    : result (list (image * Q)) :=
  traverse (fun fits_name =>
              tmp_tmp_tmp ← open_fits store ("3_AGPM_aligned_imlib_" +:+ fits_name);
              t ← mjd_obs headers fits_name;
              Ok (cube_median tmp_tmp_tmp, t))
           sky_list.

(** [find_nearest(master_sky_times, sc_time)]. *)
Definition nearest_sky (master_sky_times : list Q) (sc_time : Q) : result Z :=
  r ← FindNearest.find_nearest (FindNearest.NdArray master_sky_times) sc_time
        "index" FindNearest.PyNone;
  match r with
  | FindNearest.OutIndex idx => Ok idx
  | _ => Raise ValueError
  end.

(** The [mode == 'median'] block; [sky_list] is already in time order. *)
Definition subtract_sky_median (sci_list sky_list : list string)
    (headers : gmap string Q) (store : gmap string (list image))
    : result (gmap string (list image)) :=
  let n_sci := Z.of_nat (length sci_list) in
  first ← py_index sci_list 0;
  middle ← py_index sci_list (n_sci / 2);
  last ← py_index sci_list (-1);
  let sci_list_test := [first; middle; last] in
  master ← master_skies store headers sky_list;
  let master_skies2 := master.*1 in
  let master_sky_times := master.*2 in
  DustSpecks.for_each
    (fun sc fits_name store =>
       tmp_tmp_tmp_tmp ← open_fits store ("3_AGPM_aligned_imlib_" +:+ fits_name);
       sc_time ← mjd_obs headers fits_name;
       idx_sky ← nearest_sky master_sky_times sc_time;
       sky ← py_index master_skies2 idx_sky;
       Ok (<["4_sky_subtr_imlib_" +:+ fits_name
             := cube_minus tmp_tmp_tmp_tmp sky]> store))
    0 sci_list_test store.

(** The pooled library of sky frames: the first [new_ndit_sky] frames of
    every sky cube (a lone frame is broadcast over the slots of its cube). *)
Definition pool_skies (store : gmap string (list image))
    (sky_list : list string) (new_ndit_sky : Z) : result (list image) :=
  _ ← np_alloc (Z.of_nat (length sky_list) * new_ndit_sky);
  let n := Z.to_nat new_ndit_sky in
  parts ← traverse (fun fits_name =>
                      tmp ← open_fits store ("3_AGPM_aligned_imlib_" +:+ fits_name);
                      match take n tmp with
                      | [frame] => Ok (repeat frame n)
                      | part => if (length part =? n)%nat then Ok part
                                else Raise ValueError
                      end)
                   sky_list;
  Ok (concat parts).

(** A science cube and the median of the frames of its nearest sky cube. *)
Definition nearest_sky_frames (store : gmap string (list image))
    (headers : gmap string Q) (master_sky_times : list Q)
    (real_ndit_sky : list nat) (all_skies_imlib : list image)
    (fits_name : string) : result (list image * image) :=
  sc_time ← mjd_obs headers fits_name;
  idx_sky ← nearest_sky master_sky_times sc_time;
  tmp ← open_fits store ("3_AGPM_aligned_imlib_" +:+ fits_name);
  let idx_sky := Z.to_nat idx_sky in
  let pca_lib := py_slice all_skies_imlib (sum_list (take idx_sky real_ndit_sky))
                   (sum_list (take (idx_sky + 1) real_ndit_sky)) in
  Ok (tmp, cube_median pca_lib).

(** PCA residual of a science cube against the pooled library. *)
Definition pca_residual (all_skies_imlib : list image) (tmp : list image)
    (med_sky : image) (ncomp : Z) : list image :=
  cube_subtract_sky_pca (cube_minus tmp med_sky)
    (cube_minus all_skies_imlib med_sky) ncomp.

(** [hmean_std]: mean of the upper half of the sorted per-speck scatters. *)
Definition hmean_std (dust_xy_all : list (Q * Q)) (tmp_tmp : list image)
    : option Q :=
  let std := map (aperture_std tmp_tmp) dust_xy_all in
  let std_sort := np_sort std in
  np_mean (drop (length dust_xy_all / 2) std_sort).

(** The candidate ranks kept for the search. *)
Definition candidate_ranks (npc : npc_arg) (n_sky : nat) (new_ndit_sky : Z)
    : list Z :=
  let nnpc_tmp := match npc with
                  | NpcList l => l
                  | _ => [1; 2; 3; 4; 5; 10; 20; 40; 60]
                  end in
  filter (fun pc => pc < Z.of_nat n_sky * new_ndit_sky) nnpc_tmp.

(** Best rank for one representative cube. *)
Definition optimal_rank (store : gmap string (list image))
    (headers : gmap string Q) (master_sky_times : list Q)
    (real_ndit_sky : list nat) (all_skies_imlib : list image)
    (dust_xy_all : list (Q * Q)) (nnpc : list Z) (sci_list : list string)
    (fits_idx : Z) : result Z :=
  fits_name ← py_index sci_list fits_idx;
  ts ← nearest_sky_frames store headers master_sky_times real_ndit_sky
         all_skies_imlib fits_name;
  let hmean := map (fun npc_tmp =>
                      hmean_std dust_xy_all
                        (pca_residual all_skies_imlib ts.1 ts.2 npc_tmp))
                   nnpc in
  best ← np_argmin_nan hmean;
  index_nat nnpc best.

(** The rank used for the whole dataset. *)
Definition choose_npc (npc : npc_arg) (store : gmap string (list image))
    (headers : gmap string Q) (master_sky_times : list Q)
    (real_ndit_sky : list nat) (all_skies_imlib : list image)
    (dust_xy_all : list (Q * Q)) (sci_list sky_list : list string)
    (new_ndit_sky : Z) : result Z :=
  match npc with
  | NpcInt n => Ok n
  | _ =>
      let nnpc := candidate_ranks npc (length sky_list) new_ndit_sky in
      let n := Z.of_nat (length sci_list) in
      let test_idx := [0; n / 2; n - 1] in
      npc_opt ← traverse (optimal_rank store headers master_sky_times
                            real_ndit_sky all_skies_imlib dust_xy_all nnpc
                            sci_list)
                         test_idx;
      match np_median (map inject_Z npc_opt) with
      | Some m => Ok (py_int m)
      | None => Raise ValueError
      end
  end.

(** The [mode == 'PCA'] block. *)
Definition subtract_sky_pca (npc : npc_arg) (sci_list sky_list : list string)
    (real_ndit_sky : list nat) (new_ndit_sky : Z) (dust_xy_all : list (Q * Q))
    (headers : gmap string Q) (store : gmap string (list image))
    : result (Z * gmap string (list image)) :=
  master ← master_skies store headers sky_list;
  let master_sky_times := master.*2 in
  all_skies_imlib ← pool_skies store sky_list new_ndit_sky;
  npc ← choose_npc npc store headers master_sky_times real_ndit_sky
          all_skies_imlib dust_xy_all sci_list sky_list new_ndit_sky;
  store ← DustSpecks.for_each
            (fun sc fits_name store =>
               ts ← nearest_sky_frames store headers master_sky_times
                      real_ndit_sky all_skies_imlib fits_name;
               let tmp_tmp := pca_residual all_skies_imlib ts.1 ts.2 npc in
               Ok (<["4_sky_subtr_imlib_" +:+ fits_name := tmp_tmp]> store))
            0 sci_list store;
  Ok (npc, store).

End Modes.

End SkySubtract.

(** ** [raw_dataset.dark_subtract]: the offset objectives of the PCA mode *)

Module DarkSubtract.
Import Np.
Import FirstFrames (np_alloc).

(** A 2-d array as its rows. *)
Definition array2 : Type := list (list Q).

Definition np_zeros2 (ny nx : nat) : array2 := repeat (repeat 0%Q nx) ny.

(** Bounds of [a[lo:hi]] on an axis of length [n]. *)
Definition slice_bound (i : Z) (n : nat) : nat :=
  let i := if i <? 0 then i + Z.of_nat n else i in
  Z.to_nat (Z.min (Z.max i 0) (Z.of_nat n)).

(** [a[r0:r1, c0:c1] = 1]. *)
Definition fill_ones (a : array2) (r0 r1 c0 c1 : Z) : array2 :=
  let ny := length a in
  imap (fun i row =>
          if (slice_bound r0 ny <=? i)%nat && (i <? slice_bound r1 ny)%nat
          then imap (fun j v =>
                       if (slice_bound c0 (length row) <=? j)%nat
                          && (j <? slice_bound c1 (length row))%nat
                       then 1%Q else v) row
          else row) a.

(** [mask_std] and [crop] for a NACO frame of side [com_sz]; [cy] is
    the first coordinate of [frame_center(mask_std)]. *)
Definition make_mask_std (com_sz : Z) (cy : Q) : result (array2 * Z) :=
  _ ← np_alloc com_sz;
  let n := Z.to_nat com_sz in
  let mask_std := np_zeros2 n n in
  if com_sz <=? 733
  then Ok (fill_ones mask_std (py_int cy - 23) (py_int cy + 23) 0 com_sz, 0)
  else let crop := py_int (inject_Z (com_sz - 733) / 2) in
       Ok (fill_ones mask_std (py_int cy - 23) (py_int cy + 23) 0 (- crop), crop).

(** [frame[np.where(mask)]]: the pixels where the mask is non-zero, in
    row-major order. *)
Definition select_where (mask frame : array2) : list Q :=
  concat (zip_with (fun mrow frow =>
                      omap (fun '(m, p) => if Qeq_bool m 0 then None else Some p)
                           (zip mrow frow))
                   mask frame).

(** [subframe.reshape((-1, cols))] and [subframe.reshape(rows, -1)] on
    [size] entries: the known side must be positive and divide the size. *)
Definition reshape_infer (size : nat) (known : Z) : result unit :=
  if (0 <? known) && (Z.of_nat size mod known =? 0) then Ok ()
  else Raise ValueError.

Section Objectives.

(** [np.median(cube_subtract_sky_pca(tmp_tmp + guess, tmp_tmp_tmp, mask,
    ref_cube=None, ncomp=npc_dark), axis=0)] as a function of [guess]. *)
Variable pca_median : Q -> array2.

(** [np.std] of a non-empty array. *)
Variable std : list Q -> Q.

(** [np.std]: NaN ([None]) on an empty array, with a warning only. *)
Definition np_std (l : list Q) : option Q :=
  match l with
  | [] => None
  | _ => Some (std l)
  end.

(** [tmp_tmp_pca -= np.median(diff) + guess]. *)
Definition recentre (med_diff guess : Q) (tmp_tmp_pca : array2) : array2 :=
  map (map (fun p => p - (med_diff + guess))%Q) tmp_tmp_pca.

(** [_get_test_diff_flat(guess)]; [med_diff] is [np.median(diff)]. *)
Definition _get_test_diff_flat (mask_std : array2) (com_sz crop : Z)
    (med_diff guess : Q) : result (option Q) :=
  let tmp_tmp_pca := recentre med_diff guess (pca_median guess) in
  let subframe := select_where mask_std tmp_tmp_pca in
  _ ← reshape_infer (length subframe) (com_sz - crop);
  let stddev := np_std subframe in
  Ok stddev.

(** [_get_test_diff_sci(guess)]. *)
Definition _get_test_diff_sci (mask_sci : array2) (med_diff guess : Q)
    : result (option Q) :=
  let tmp_tmp_pca := recentre med_diff guess (pca_median guess) in
  let subframe := select_where mask_sci tmp_tmp_pca in
  let stddev := np_std subframe in
  _ ← reshape_infer (length subframe) 46;
  Ok stddev.

End Objectives.

End DarkSubtract.

(** ** [raw_dataset.dark_subtract]: the search for the offset *)

Module OffsetSearch.
Import Np.
Import DarkSubtract (array2, make_mask_std, _get_test_diff_flat,
                     _get_test_diff_sci).

(** [scipy.optimize.minimize(fun, x0=guess, method='Nelder-Mead',
    options={'maxiter': 100})] as the stage meets it: a search that asks
    for the objective at a point of its choice, a bounded number of times,
    and settles on a point.  What it asks next may depend on every value it
    was given, NaN ([None]) included; it raises nothing of its own. *)
Inductive search : Type :=
| Settle (x : Q)
| Ask (x : Q) (next : option Q -> search).

(** Running a search on an objective: an exception of the objective ends
    the search, and the stage with it. *)
Fixpoint minimize (method : search) (f : Q -> result (option Q)) : result Q :=
  match method with
  | Settle x => Ok x
  | Ask x next => v ← f x; minimize (next v) f
  end.

Section Stage.

Variable pca_median : Q -> array2.
Variable std : list Q -> Q.

(** What the search does once it knows the objective at [x0]. *)
Variable method : option Q -> search.

(** [best_test_diff] for the flats, from [mask_std] on; the search starts
    at [guess = 0]. *)
Definition best_test_diff_flat (com_sz : Z) (cy med_diff : Q) : result Q :=
  mc ← make_mask_std com_sz cy;
  let mask_std := mc.1 in
  let crop := mc.2 in
  let guess := 0%Q in
  minimize (Ask guess method)
    (_get_test_diff_flat pca_median std mask_std com_sz crop med_diff).

(** [best_test_diff] for the science cubes, given [mask_sci]. *)
Definition best_test_diff_sci (mask_sci : array2) (med_diff : Q) : result Q :=
  let guess := 0%Q in
  minimize (Ask guess method)
    (_get_test_diff_sci pca_median std mask_sci med_diff).

End Stage.

End OffsetSearch.

(** ** [raw_dataset.flat_field_correction]: the master flat *)

Module FlatField.
Import Np.
Import FirstFrames (traverse, index_nat, np_alloc).
Import DarkSubtract (array2, np_zeros2).

(** A double that may have left the finite range.  Zero carries no sign
    here: a non-zero value over zero is the infinity of the value's sign. *)
Inductive double : Type :=
| Finite (q : Q)
| PosInf
| NegInf
| NaN.

(** [a / b] on finite doubles. *)
Definition truediv (a b : Q) : double :=
  if Qeq_bool b 0
  then if Qeq_bool a 0 then NaN else if Qltb 0 a then PosInf else NegInf
  else Finite (a / b).

(** [a / m] where [m] is a median, NaN ([None]) for an empty array. *)
Definition over_median (a : Q) (m : option Q) : double :=
  match m with
  | Some m => truediv a m
  | None => NaN
  end.

(** [numpy.isclose(a, b, atol=atol)], with the default [rtol] of 1e-05. *)
Definition isclose (a b atol : Q) : bool :=
  Qle_bool (Qabs (a - b)) (atol + (1 # 100000) * Qabs b).

(** What groups the flats, one value per entry of [flat_list]: the
    [AIRMASS] of each header when the headers carry it, or else (none in
    the first header) the median level of each flat. *)
Inductive flat_keys : Type :=
| Airmass (flat_X : list Q)
| Level (flat_X : list Q).

Definition flat_X (keys : flat_keys) : list Q :=
  match keys with
  | Airmass flat_X => flat_X
  | Level flat_X => flat_X
  end.

Definition atol (keys : flat_keys) : Q :=
  match keys with
  | Airmass _ => 1 # 10
  | Level _ => 50
  end.

(** The loop that gathers [flat_X_values]: a value joins the list unless
    it is close to one already there. *)
Definition collect_step (atol : Q) (flat_X_values : list Q) (fl : nat) (v : Q)
    : list Q :=
  if (fl =? 0)%nat then flat_X_values ++ [v]
  else let list_occ := map (fun x => isclose v x atol) flat_X_values in
       if bool_decide (true ∈ list_occ) then flat_X_values
       else flat_X_values ++ [v].

Fixpoint collect_from (atol : Q) (flat_X_values : list Q) (fl : nat)
    (flat_X : list Q) : list Q :=
  match flat_X with
  | [] => flat_X_values
  | v :: rest =>
      collect_from atol (collect_step atol flat_X_values fl v) (S fl) rest
  end.

Definition collect_values (atol : Q) (flat_X : list Q) : list Q :=
  collect_from atol [] 0 flat_X.

(** [find_nearest(flat_X_values, x)]. *)
Definition nearest_index (flat_X_values : list Q) (x : Q) : result Z :=
  r ← FindNearest.find_nearest (FindNearest.NdArray flat_X_values) x
        "index" FindNearest.PyNone;
  match r with
  | FindNearest.OutIndex idx => Ok idx
  | _ => Raise ValueError
  end.

(** Broadcasting a frame over the two axes of a slot of side [n]. *)
Definition broadcast_axis {A} (n : nat) (l : list A) : result (list A) :=
  if (length l =? n)%nat then Ok l
  else match l with
       | [x] => Ok (repeat x n)
       | _ => Raise ValueError
       end.

Definition broadcast_frame (n : nat) (frame : array2) : result array2 :=
  rows ← broadcast_axis n frame;
  traverse (broadcast_axis n) rows.

(** [cube[counter] = frame]. *)
Definition set_slot (n : nat) (cube : list array2) (counter : nat)
    (frame : array2) : result (list array2) :=
  if (counter <? length cube)%nat
  then frame ← broadcast_frame n frame; Ok (<[counter := frame]> cube)
  else Raise IndexError.

(** The three stacks of five slots and their fill counters. *)
Record stacks := {
  flat_tmp_cube_1 : list array2;
  flat_tmp_cube_2 : list array2;
  flat_tmp_cube_3 : list array2;
  counter_1 : nat;
  counter_2 : nat;
  counter_3 : nat
}.

(** Body of the loop that files each flat under its nearest value. *)
Definition assign_step (n : nat) (flat_X_values : list Q)
    (flat_cube : list array2) (fl : nat) (x : Q) (s : stacks) : result stacks :=
  g ← nearest_index flat_X_values x;
  if g =? 0
  then frame ← index_nat flat_cube fl;
       c ← set_slot n (flat_tmp_cube_1 s) (counter_1 s) frame;
       Ok {| flat_tmp_cube_1 := c; flat_tmp_cube_2 := flat_tmp_cube_2 s;
             flat_tmp_cube_3 := flat_tmp_cube_3 s;
             counter_1 := S (counter_1 s); counter_2 := counter_2 s;
             counter_3 := counter_3 s |}
  else if g =? 1
  then frame ← index_nat flat_cube fl;
       c ← set_slot n (flat_tmp_cube_2 s) (counter_2 s) frame;
       Ok {| flat_tmp_cube_1 := flat_tmp_cube_1 s; flat_tmp_cube_2 := c;
             flat_tmp_cube_3 := flat_tmp_cube_3 s;
             counter_1 := counter_1 s; counter_2 := S (counter_2 s);
             counter_3 := counter_3 s |}
  else if g =? 2
  then frame ← index_nat flat_cube fl;
       c ← set_slot n (flat_tmp_cube_3 s) (counter_3 s) frame;
       Ok {| flat_tmp_cube_1 := flat_tmp_cube_1 s;
             flat_tmp_cube_2 := flat_tmp_cube_2 s; flat_tmp_cube_3 := c;
             counter_1 := counter_1 s; counter_2 := counter_2 s;
             counter_3 := S (counter_3 s) |}
  else Ok s.

Definition empty_stacks (n : nat) : stacks :=
  {| flat_tmp_cube_1 := repeat (np_zeros2 n n) 5;
     flat_tmp_cube_2 := repeat (np_zeros2 n n) 5;
     flat_tmp_cube_3 := repeat (np_zeros2 n n) 5;
     counter_1 := 0; counter_2 := 0; counter_3 := 0 |}.

Definition pixel (f : array2) (i j : nat) : Q := nth j (nth i f []) 0%Q.

(** [np.median(cube, axis=0)] for a non-empty stack of frames of side [n]. *)
Definition stack_median (n : nat) (cube : list array2) : array2 :=
  map (fun i =>
         map (fun j => default 0%Q (np_median (map (fun f => pixel f i j) cube)))
             (seq 0 n))
      (seq 0 n).

(** [frame / np.median(frame)]. *)
Definition gain (frame : array2) : list (list double) :=
  let med_fl := np_median (concat frame) in
  map (map (fun p => over_median p med_fl)) frame.

Definition is_nan (x : double) : bool :=
  match x with
  | NaN => true
  | _ => false
  end.

Definition double_leb (a b : double) : bool :=
  match a, b with
  | NaN, _ => false
  | _, NaN => false
  | NegInf, _ => true
  | _, PosInf => true
  | Finite x, Finite y => Qle_bool x y
  | _, _ => false
  end.

(** [np.median] along an axis of length three: NaN as soon as one entry is
    NaN, the middle entry otherwise. *)
Definition median3 (a b c : double) : double :=
  if is_nan a || is_nan b || is_nan c then NaN
  else if double_leb a b
       then if double_leb b c then b else if double_leb a c then c else a
       else if double_leb a c then a else if double_leb b c then c else b.

Definition zip_with3 {A B C D} (f : A -> B -> C -> D) (la : list A)
    (lb : list B) (lc : list C) : list D :=
  zip_with (fun a bc => f a bc.1 bc.2) la (zip lb lc).

(** The stage up to [master_flat_frame]: [com_sz] is the side read from
    [common_sz], [flat_cube] the frames of [1_crop_flat_cube.fits]. *)
Definition master_flat_frame (com_sz : Z) (keys : flat_keys)
    (flat_cube : list array2) : result (list (list double)) :=
  _ ← index_nat (flat_X keys) 0;
  let flat_X_values := np_sort (collect_values (atol keys) (flat_X keys)) in
  _ ← np_alloc com_sz;
  let n := Z.to_nat com_sz in
  s ← DustSpecks.for_each (assign_step n flat_X_values flat_cube) 0
        (flat_X keys) (empty_stacks n);
  let gains_1 := gain (stack_median n (flat_tmp_cube_1 s)) in
  let gains_2 := gain (stack_median n (flat_tmp_cube_2 s)) in
  let gains_3 := gain (stack_median n (flat_tmp_cube_3 s)) in
  Ok (zip_with3 (zip_with3 median3) gains_1 gains_2 gains_3).

End FlatField.

(** ** [raw_dataset.correct_bad_pixels]: the bad pixel map and the master
    median frames *)

Module BadPixels.
Import Np.
Import FirstFrames (index_nat, py_min_list).
Import DarkSubtract (array2).
Import FlatField (double, Finite, PosInf, NegInf, NaN).
Import DustSpecks (ndarray, shape, data, size_of, np_zeros, np_median_axis0).

(** [np.abs(g - 1.09) > 0.41]. *)
Definition deviant (g : double) : bool :=
  match g with
  | Finite q => Qltb (41 # 100) (Qabs (q - (109 # 100)))
  | PosInf => true
  | NegInf => true
  | NaN => false
  end.

(** [np.where(np.abs(master_flat_frame - 1.09) > 0.41)]: the positions
    that pass the test, in row-major order. *)
Definition np_where (master_flat_frame : list (list double)) : list (nat * nat) :=
  concat (imap (fun i row =>
                  omap id (imap (fun j g => if deviant g then Some (i, j) else None)
                                row))
               master_flat_frame).

(** [bpix_map = np.zeros([com_sz, com_sz]); bpix_map[bpix] = 1]. *)
Definition make_bpix_map (com_sz : Z) (master_flat_frame : list (list double))
    : result array2 :=
  let bpix := np_where master_flat_frame in
  _ ← FirstFrames.np_alloc com_sz;
  let n := Z.to_nat com_sz in
  if forallb (fun p => (p.1 <? n)%nat && (p.2 <? n)%nat) bpix
  then Ok (map (fun i => map (fun j => if bool_decide ((i, j) ∈ bpix)
                                       then 1%Q else 0%Q)
                             (seq 0 n))
               (seq 0 n))
  else Raise IndexError.

(** [random.randrange(k)]; [draw] is what the generator supplies. *)
Definition randrange (k draw : Z) : result Z :=
  if 0 <? k then Ok (draw mod k) else Raise ValueError.

(** Frame [k] of a cube of shape [[nz; n_y; n_x]]. *)
Definition frame_at (cube : ndarray Q) (k : nat) : result (list Q) :=
  match shape cube with
  | nz :: rest =>
      if (k <? nz)%nat
      then Ok (take (size_of rest) (drop (k * size_of rest) (data cube)))
      else Raise IndexError
  | [] => Raise IndexError
  end.

(** [a[k] = frame] for a frame of the shape of [a]'s entries. *)
Definition set_frame (a : ndarray Q) (k : nat) (frame : list Q)
    : result (ndarray Q) :=
  match shape a with
  | nz :: rest =>
      if (k <? nz)%nat
      then Ok {| shape := shape a;
                 data := take (k * size_of rest) (data a) ++ frame
                         ++ drop (S k * size_of rest) (data a) |}
      else Raise IndexError
  | [] => Raise IndexError
  end.

(** The master median frame of a category: [n] cubes in the list, [cube]
    the [2_bpix_corr2_] file of the first one, [ndit] the nominal counts.
    The loop runs over [sci_list[:1]] ([sky_list[:1]]), one cube. *)
Definition master_median (n : nat) (cube : ndarray Q) (ndit : list Z)
    (draw : Z) : result (ndarray (option Q)) :=
  match shape cube with
  | [_; n_y; n_x] =>
      let tmp_tmp_tmp := np_zeros [n; n_y; n_x] in
      m ← py_min_list ndit;
      k ← randrange m draw;
      frame ← frame_at cube (Z.to_nat k);
      tmp_tmp_tmp ← set_frame tmp_tmp_tmp 0 frame;
      np_median_axis0 tmp_tmp_tmp
  | _ => Raise IndexError
  end.

End BadPixels.

(** ** [raw_dataset.dark_subtract]: the masks and the crop sizes *)

Module DarkMasks.
Import Np.
Import FirstFrames (np_alloc).
Import DarkSubtract (array2, np_zeros2, slice_bound, fill_ones).

(** [a[r0:r1, c0:c1] = v]; [None] stands for an omitted bound. *)
Definition lower_bound (b : option Z) (n : nat) : nat :=
  match b with
  | Some i => slice_bound i n
  | None => 0%nat
  end.

Definition upper_bound (b : option Z) (n : nat) : nat :=
  match b with
  | Some i => slice_bound i n
  | None => n
  end.

Definition fill (v : Q) (a : array2) (r0 r1 c0 c1 : option Z) : array2 :=
  let ny := length a in
  imap (fun i row =>
          if (lower_bound r0 ny <=? i)%nat && (i <? upper_bound r1 ny)%nat
          then imap (fun j p =>
                       if (lower_bound c0 (length row) <=? j)%nat
                          && (j <? upper_bound c1 (length row))%nat
                       then v else p) row
          else row) a.

(** Body of the loop over [bad_quadrant], on one mask; [(cy, cx)] is
    [frame_center] of the frame. *)
Definition zero_quadrant (cy cx : Q) (mask : array2) (quadrant : Z) : array2 :=
  let y := py_int cy + 1 in
  let x := py_int cx + 1 in
  let mask := if quadrant =? 1
              then fill 0 mask (Some y) None (Some x) None else mask in
  let mask := if quadrant =? 2
              then fill 0 mask (Some y) None None (Some x) else mask in
  let mask := if quadrant =? 3
              then fill 0 mask None (Some y) None (Some x) else mask in
  if quadrant =? 4 then fill 0 mask None (Some y) (Some x) None else mask.

Definition exclude_quadrants (cy cx : Q) (bad_quadrant : list Z)
    (mask : array2) : array2 :=
  foldl (zero_quadrant cy cx) mask bad_quadrant.

(** [mask_sci]: the band of 46 rows around the centre, between the columns
    [int(cx - outer_rad)] and [int(cx + outer_rad)]. *)
Definition make_mask_sci (com_sz : Z) (cy cx outer_rad : Q) : result array2 :=
  _ ← np_alloc com_sz;
  let n := Z.to_nat com_sz in
  Ok (fill_ones (np_zeros2 n n) (py_int cy - 23) (py_int cy + 23)
        (py_int (cx - outer_rad)) (py_int (cx + outer_rad))).

(** Side to which an unsaturated dark of side [nx] is brought before it
    joins [unsat_dark_cube]. *)
Definition unsat_dark_side (com_sz nx : Z) : Z :=
  if nx <? com_sz then nx - 1
  else if nx >? com_sz then com_sz
       else nx.

(** Side to which an unsaturated cube of side [nx] is brought before the
    dark is subtracted: [nx_unsat_crop]. *)
Definition nx_unsat_crop (com_sz nx : Z) : Z :=
  if nx >? com_sz then com_sz
  else if nx mod 2 =? 0 then nx - 1
       else nx.

End DarkMasks.

(** ** [raw_dataset.fix_sporadic_columns]: the mask of the bad columns *)

Module SporadicColumns.
Import Np.
Import FirstFrames (np_alloc).
Import DarkSubtract (array2, np_zeros2, slice_bound).

(** [range(start, stop, step)] as a list. *)
Definition py_range (start stop step : Z) : result (list Z) :=
  if step =? 0 then Raise ValueError
  else if 0 <? step
       then Ok (map (fun k => start + step * Z.of_nat k)
                    (seq 0 (Z.to_nat ((stop - start + step - 1) / step))))
       else Ok (map (fun k => start + step * Z.of_nat k)
                    (seq 0 (Z.to_nat ((start - stop - step - 1) / (- step))))).

(** [mask[r0:r1, a] = 1] on a mask of side [n]. *)
Definition set_column (n : nat) (r0 r1 : Z) (mask : array2) (a : Z)
    : result array2 :=
  if (- Z.of_nat n <=? a) && (a <? Z.of_nat n)
  then let j := Z.to_nat (if a <? 0 then a + Z.of_nat n else a) in
       Ok (imap (fun i row =>
                   if (slice_bound r0 n <=? i)%nat && (i <? slice_bound r1 n)%nat
                   then <[j := 1%Q]> row else row) mask)
  else Raise IndexError.

(** A loop over the columns, stopping at the first exception. *)
Fixpoint set_columns (n : nat) (r0 r1 : Z) (mask : array2) (cols : list Z)
    : result array2 :=
  match cols with
  | [] => Ok mask
  | a :: rest => mask ← set_column n r0 r1 mask a; set_columns n r0 r1 mask rest
  end.

(** The mask of [fix_sporadic_columns] for frames of side [com_sz];
    [centerx] is the second coordinate of [frame_center]. *)
Definition bad_column_mask (quadrant : string) (com_sz : Z) (centerx : Q)
    (xpixels_from_center interval : Z) : result array2 :=
  _ ← np_alloc com_sz;
  let n := Z.to_nat com_sz in
  let mask := np_zeros2 n n in
  let half := py_int (inject_Z (com_sz - 1) / 2) in
  let start := py_int (centerx + inject_Z xpixels_from_center) in
  mask ← (if bool_decide (quadrant = "topright")
          then cols ← py_range start (com_sz - 1) interval;
               set_columns n half (com_sz - 1) mask cols
          else Ok mask);
  if bool_decide (quadrant = "bottomright")
  then cols ← py_range start (com_sz - 1) interval;
       set_columns n 0 half mask cols
  else Ok mask.

End SporadicColumns.

(** ** [find_filtered_max] and [raw_dataset.get_stellar_psf] *)

Module StellarPsf.
Import Np.
Import FirstFrames (traverse, index_nat, np_alloc).

(** A stage that reads and writes files: the files it leaves behind stay
    when it raises. *)
Definition stage (St A : Type) : Type := St -> St * result A.

#[global] Instance stage_ret {St} : MRet (stage St) := fun _ a s => (s, Ok a).
#[global] Instance stage_bind {St} : MBind (stage St) := fun _ _ f m s =>
  match m s with
  | (s', Ok a) => f a s'
  | (s', Raise e) => (s', Raise e)
  end.

Definition lift {St A} (r : result A) : stage St A := fun s => (s, r).

(** [for i, a in enumerate(l)] with effects. *)
Fixpoint for_each_st {St A} (body : nat -> A -> stage St unit) (i : nat)
    (l : list A) : stage St unit :=
  match l with
  | [] => mret ()
  | a :: l' => _ ← body i a; for_each_st body (S i) l'
  end.

(** [[f(a) for a in l]] with effects. *)
Fixpoint map_st {St A B} (f : A -> stage St B) (l : list A) : stage St (list B) :=
  match l with
  | [] => mret []
  | a :: l' => b ← f a; bs ← map_st f l'; mret (b :: bs)
  end.

(** [round(x)] on a float: to the nearest integer, halves to the even one. *)
Definition py_round (q : Q) : Z :=
  let f := Qfloor q in
  let r := (q - inject_Z f)%Q in
  if Qltb r (1 # 2) then f
  else if Qltb (1 # 2) r then f + 1
       else if Z.even f then f else f + 1.

(** [np.argmax] of the flattened array: the first largest entry. *)
Fixpoint argmax_from (best : nat) (bv : Q) (i : nat) (l : list Q) : nat :=
  match l with
  | [] => best
  | x :: l' => if Qltb bv x then argmax_from i x (S i) l'
               else argmax_from best bv (S i) l'
  end.

Definition np_argmax (l : list Q) : result nat :=
  match l with
  | [] => Raise ValueError
  | x :: l' => Ok (argmax_from 0%nat x 1%nat l')
  end.

(** [np.unravel_index(k, (ny, nx))]. *)
Definition unravel_index (k nx : nat) : Z * Z :=
  (Z.of_nat (k / nx), Z.of_nat (k mod nx)).

(** [dist(y, x, y1, x1) < thr_d]: the distance is the root of the sum of
    the squares. *)
Definition closer_than (thr_d : Q) (y x y1 x1 : Z) : bool :=
  Qltb 0 thr_d
  && Qltb (inject_Z ((y - y1) * (y - y1) + (x - x1) * (x - x1))) (thr_d * thr_d).

(** The loop that sorts the star positions into dither positions: the
    positions found so far and, cube after cube, the number of the first
    one within [thr_d], or a new number.  A position is [[ycom, xcom]]. *)
Definition first_within (thr_d : Q) (pos : Z * Z) (unique_pos : list (Z * Z))
    : option nat :=
  (fun p => p.1) <$>
    list_find (fun uni_pos => closer_than thr_d pos.2 pos.1 uni_pos.2 uni_pos.1
                              = true)
              unique_pos.

Definition dither_step (thr_d : Q)
    (acc : list nat * list (Z * Z) * nat) (pos : Z * Z)
    : list nat * list (Z * Z) * nat :=
  let '(index_dither, unique_pos, counter) := acc in
  match first_within thr_d pos unique_pos with
  | Some i => (index_dither ++ [i], unique_pos, counter)
  | None => (index_dither ++ [counter], unique_pos ++ [pos], S counter)
  end.

Definition dither_groups (thr_d : Q) (unsat_pos : list (Z * Z))
    : result (list nat * list (Z * Z)) :=
  pos0 ← index_nat unsat_pos 0;
  let '(index_dither, unique_pos, _) :=
    foldl (dither_step thr_d) ([0%nat], [pos0], 1%nat) (drop 1 unsat_pos) in
  Ok (index_dither, unique_pos).

(** The test of the loop that keeps the good cubes; a comparison with the
    NaN median of an empty list is false. *)
Definition within_3_sigma (med_flux : option Q) (std_flux flux : Q) : bool :=
  match med_flux with
  | Some med_flux => Qltb flux (med_flux + 3 * std_flux)
                     && Qltb (med_flux - 3 * std_flux) flux
  | None => false
  end.

(** [good_unsat_list] and [good_unsat_pos]. *)
Definition good_unsat (med_flux : option Q) (std_flux : Q) (flux_list : list Q)
    (unsat_list : list string) (unsat_pos : list (Z * Z))
    : result (list string * list (Z * Z)) :=
  DustSpecks.for_each
    (fun i flux good =>
       if within_3_sigma med_flux std_flux flux
       then fits_name ← index_nat unsat_list i;
            pos ← index_nat unsat_pos i;
            Ok (good.1 ++ [fits_name], good.2 ++ [pos])
       else Ok good)
    0 flux_list ([], []).

(** The entries of [dataset_dict] the stage reads; it divides by the
    telescope size, the pixel scale and the unsaturated exposure time. *)
Record psf_dict := {
  wavelength : Q;
  size_telescope : Q;
  pixel_scale : Q;
  dit_sci : Q;
  dit_unsat : Q;
  size_telescope_nonzero : ~ (size_telescope == 0)%Q;
  pixel_scale_nonzero : ~ (pixel_scale == 0)%Q;
  dit_unsat_nonzero : ~ (dit_unsat == 0)%Q
}.

Section Psf.

Variable image : Type.

(** The products in [outpath]: cubes, single frames and short vectors. *)
Record files := {
  cubes : gmap string (list image);
  frames : gmap string image;
  vectors : gmap string (list Q)
}.

(** numpy, vip_hci and photutils collaborators.  [lowpass_median] is the
    median frame of a cube after the two low-pass filters;
    [circular_aperture] takes the position [(x, y)] and the radius,
    [aperture_photometry] returns the first [aperture_sum];
    [cube_crop_frames] takes the cube, the size and the centre [(x, y)];
    [cube_recenter_2dfit] the cube, the centre and the FWHM;
    [fit_2dgaussian] returns [(fwhm_y, fwhm_x, theta)]; [normalize_psf]
    the normalised frame and [flux_unsat[0]]. *)
Variable lowpass_median : list image -> DustSpecks.ndarray Q.
Variable cube_median : list image -> image.
Variable frame_sub : image -> image -> image.
Variable zeros_frame : Z -> image.
Variable aperture : Type.
Variable circular_aperture : Z * Z -> Z -> result aperture.
Variable aperture_photometry : image -> aperture -> result Q.
Variable np_std : list Q -> Q.
Variable cube_crop_frames : list image -> Z -> Q * Q -> result (list image).
Variable frame_center : image -> Q * Q.
Variable cube_recenter_2dfit : list image -> Z * Z -> Q -> result (list image).
Variable fit_2dgaussian : image -> Q -> result (Q * Q * Q).
Variable normalize_psf : image -> Q -> result (image * Q).

Definition open_fits (name : string) : stage files (list image) := fun s =>
  (s, match cubes s !! name with
      | Some cube => Ok cube
      | None => Raise FileNotFoundError
      end).

Definition open_vector (name : string) : stage files (list Q) := fun s =>
  (s, match vectors s !! name with
      | Some v => Ok v
      | None => Raise FileNotFoundError
      end).

Definition isfile (name : string) : stage files bool := fun s =>
  (s, Ok (bool_decide (is_Some (cubes s !! name)))).

Definition write_cube (name : string) (cube : list image) : stage files unit :=
  fun s => ({| cubes := <[name := cube]> (cubes s); frames := frames s;
               vectors := vectors s |}, Ok ()).

Definition write_frame (name : string) (frame : image) : stage files unit :=
  fun s => ({| cubes := cubes s; frames := <[name := frame]> (frames s);
               vectors := vectors s |}, Ok ()).

Definition write_vector (name : string) (v : list Q) : stage files unit :=
  fun s => ({| cubes := cubes s; frames := frames s;
               vectors := <[name := v]> (vectors s) |}, Ok ()).

(** [os.system("rm " + name)]. *)
Definition rm (name : string) : stage files unit :=
  fun s => ({| cubes := delete name (cubes s); frames := frames s;
               vectors := vectors s |}, Ok ()).

(** [find_filtered_max(path)]: [[ycom, xcom]]. *)
Definition find_filtered_max (path : string) : stage files (Z * Z) :=
  cube ← open_fits path;
  let median_frame := lowpass_median cube in
  k ← lift (np_argmax (DustSpecks.data median_frame));
  match DustSpecks.shape median_frame with
  | [ny; nx] => mret (unravel_index k nx)
  | _ => lift (Raise ValueError)
  end.

(** The sky of an unsaturated cube: the median of the cube nearest in time
    among those at another dither position. *)
Definition sky_subtract_unsat (unsat_list good_unsat_list : list string)
    (index_dither : list nat) (unsat_mjd_list : list Q) (un : nat)
    (fits_name : string) : stage files unit :=
  if bool_decide (fits_name ∈ good_unsat_list)
  then
    tmp ← open_fits ("3_rmfr_unsat_" +:+ fits_name);
    here ← lift (index_nat index_dither un);
    good_idx ← lift (traverse (fun j => d ← index_nat index_dither j;
                                        Ok (j, d))
                              (seq 0 (length unsat_list)));
    let good_idx := (fun p => p.1) <$> filter (fun p => p.2 <> here) good_idx in
    times ← lift (traverse (index_nat unsat_mjd_list) good_idx);
    t ← lift (index_nat unsat_mjd_list un);
    r ← lift (FindNearest.find_nearest (FindNearest.PyList times) t "index"
                FindNearest.PyNone);
    best_idx ← lift (match r with
                     | FindNearest.OutIndex idx => Ok idx
                     | _ => Raise ValueError
                     end);
    _ ← lift (np_alloc (Z.of_nat (length good_idx)));
    partner ← lift (py_index good_idx best_idx);
    partner_name ← lift (index_nat unsat_list partner);
    sky_cube ← open_fits ("3_rmfr_unsat_" +:+ partner_name);
    let tmp_sky := cube_median sky_cube in
    write_cube ("4_sky_subtr_unsat_" +:+ fits_name)
      (map (fun f => frame_sub f tmp_sky) tmp)
  else mret ().

(** Centre one good cube on the star and add its frames to [psf_tmp]. *)
Definition stack_psf (resel_ori : Q) (crop_sz_tmp crop_sz new_ndit_unsat : Z)
    (good_unsat_pos : list (Z * Z)) (un : nat) (fits_name : string)
    (psf_tmp : list image) : stage files (list image) :=
  tmp ← open_fits ("4_sky_subtr_unsat_" +:+ fits_name);
  pos ← lift (index_nat good_unsat_pos un);
  let xy := (inject_Z pos.2, inject_Z pos.1) in
  tmp_tmp ← lift (cube_crop_frames tmp crop_sz_tmp xy);
  first ← lift (index_nat tmp_tmp 0);
  let '(cy, cx) := frame_center first in
  _ ← write_cube ("4_tmp_crop_" +:+ fits_name) tmp_tmp;
  tmp_tmp ← lift (cube_recenter_2dfit tmp_tmp (py_int cx, py_int cy) resel_ori);
  tmp_tmp ← lift (cube_crop_frames tmp_tmp crop_sz (cx, cy));
  _ ← write_cube ("4_centered_unsat_" +:+ fits_name) tmp_tmp;
  lift (DustSpecks.for_each
          (fun _ dd psf_tmp =>
             frame ← index_nat tmp_tmp dd;
             let k := (un * Z.to_nat new_ndit_unsat + dd)%nat in
             if (k <? length psf_tmp)%nat then Ok (<[k := frame]> psf_tmp)
             else Raise IndexError)
          0 (seq 0 (Z.to_nat new_ndit_unsat)) psf_tmp).

Fixpoint stack_psfs (resel_ori : Q) (crop_sz_tmp crop_sz new_ndit_unsat : Z)
    (good_unsat_pos : list (Z * Z)) (un : nat) (good_unsat_list : list string)
    (psf_tmp : list image) : stage files (list image) :=
  match good_unsat_list with
  | [] => mret psf_tmp
  | fits_name :: rest =>
      psf_tmp ← stack_psf resel_ori crop_sz_tmp crop_sz new_ndit_unsat
                  good_unsat_pos un fits_name psf_tmp;
      stack_psfs resel_ori crop_sz_tmp crop_sz new_ndit_unsat good_unsat_pos
        (S un) rest psf_tmp
  end.

(** The stage.  [headers] holds the [MJD-OBS] of the raw files; the name
    [nd_filter] is bound nowhere, neither in the method nor in the module. *)
Definition get_stellar_psf (dataset_dict : psf_dict) (unsat_list : list string)
    (headers : gmap string Q) (plot : FirstFrames.plot_option) (remove : bool)
    : stage files unit :=
  last ← lift (py_index unsat_list (-1));
  present ← isfile ("3_rmfr_unsat_" +:+ last);
  _ ← lift (if present : bool then Ok () else Raise NameError);
  new_ndit ← open_vector "new_ndit_sci_sky_unsat";
  new_ndit_unsat ← lift (index_nat new_ndit 2);
  let new_ndit_unsat := py_int new_ndit_unsat in
  unsat_pos ← map_st (fun fits_name =>
                        find_filtered_max ("3_rmfr_unsat_" +:+ fits_name))
                     unsat_list;
  let resel_ori := (wavelength dataset_dict * 206265
                    / (size_telescope dataset_dict * pixel_scale dataset_dict))%Q in
  flux_list ← map_st (fun '(un, fits_name) =>
                        pos ← lift (index_nat unsat_pos un);
                        circ_aper ← lift (circular_aperture (pos.2, pos.1)
                                            (py_round (3 * resel_ori)));
                        tmp ← open_fits ("3_rmfr_unsat_" +:+ fits_name);
                        lift (aperture_photometry (cube_median tmp) circ_aper))
                     (imap pair unsat_list);
  let med_flux := np_median flux_list in
  let std_flux := np_std flux_list in
  good ← lift (good_unsat med_flux std_flux flux_list unsat_list unsat_pos);
  let good_unsat_list := good.1 in
  let good_unsat_pos := good.2 in
  unsat_mjd_list ← lift (traverse (SkySubtract.mjd_obs headers) unsat_list);
  let thr_d := (1 / pixel_scale dataset_dict)%Q in
  groups ← lift (dither_groups thr_d unsat_pos);
  let index_dither := groups.1 in
  _ ← for_each_st (sky_subtract_unsat unsat_list good_unsat_list index_dither
                     unsat_mjd_list)
        0 unsat_list;
  _ ← (if remove
       then for_each_st (fun _ fits_name => rm ("3_rmfr_unsat_" +:+ fits_name))
              0 unsat_list
       else mret ());
  _ ← (if FirstFrames.truthy plot
       then first ← lift (py_index unsat_list 0);
            _ ← open_fits ("4_sky_subtr_unsat_" +:+ first);
            _ ← open_fits ("4_sky_subtr_unsat_" +:+ last);
            _ ← open_fits ("3_rmfr_unsat_" +:+ first);
            _ ← open_fits ("3_rmfr_unsat_" +:+ last);
            mret ()
       else mret ());
  let crop_sz_tmp := py_int (6 * resel_ori) in
  let crop_sz := py_int (5 * resel_ori) in
  _ ← lift (np_alloc (Z.of_nat (length good_unsat_list) * new_ndit_unsat));
  _ ← lift (np_alloc crop_sz);
  let psf_tmp := repeat (zeros_frame crop_sz)
                   (length good_unsat_list * Z.to_nat new_ndit_unsat) in
  psf_tmp ← stack_psfs resel_ori crop_sz_tmp crop_sz new_ndit_unsat
              good_unsat_pos 0 good_unsat_list psf_tmp;
  let psf_med := cube_median psf_tmp in
  _ ← write_frame "master_unsat_psf.fits" psf_med;
  data_frame ← lift (fit_2dgaussian psf_med resel_ori);
  let fwhm_y := data_frame.1.1 in
  let fwhm_x := data_frame.1.2 in
  let fwhm_theta := data_frame.2 in
  let fwhm := ((fwhm_y + fwhm_x) / 2)%Q in
  _ ← write_vector "fwhm.fits" [fwhm; fwhm_y; fwhm_x; fwhm_theta];
  norm ← lift (normalize_psf psf_med fwhm);
  let psf_med_norm := norm.1 in
  let flux_unsat := norm.2 in
  nd_filter ← lift (Raise NameError : result bool);
  let flux_psf :=
    if nd_filter : bool
    then (flux_unsat * (1 / (178 # 10000))
          * (dit_sci dataset_dict / dit_unsat dataset_dict))%Q
    else (flux_unsat * (dit_sci dataset_dict / dit_unsat dataset_dict))%Q in
  _ ← write_frame "master_unsat_psf_norm.fits" psf_med_norm;
  write_vector "master_unsat-stellarpsf_fluxes.fits" [flux_unsat; flux_psf].

End Psf.

End StellarPsf.
(** ** Specification predicates *)

(** [first_min l i v]: [v] sits at position [i] of [l], nothing in [l] is
    smaller, and everything before position [i] is strictly larger. *)
Definition first_min (l : list Q) (i : nat) (v : Q) : Prop :=
  l !! i = Some v /\
  (forall j w, l !! j = Some w -> (v <= w)%Q) /\
  (forall j w, l !! j = Some w -> (j < i)%nat -> (v < w)%Q).

(** What [find_nearest] hands back for a chosen position and element. *)
Definition nearest_answer (output : string) (i : nat) (v : Q)
    : FindNearest.nearest_out :=
  if bool_decide (output = "index") then FindNearest.OutIndex (Z.of_nat i)
  else if bool_decide (output = "value") then FindNearest.OutValue v
       else FindNearest.OutBoth v (Z.of_nat i).

(** [nearest_to a value i v]: element [v] at position [i] of [a] is as close
    to [value] as any element, and closer than every earlier one. *)
Definition nearest_to (a : list Q) (value : Q) (i : nat) (v : Q) : Prop :=
  a !! i = Some v /\
  (forall j w, a !! j = Some w -> (Qabs (v - value) <= Qabs (w - value))%Q) /\
  (forall j w, a !! j = Some w -> (j < i)%nat ->
               (Qabs (v - value) < Qabs (w - value))%Q).

(** Frames of each cube ahead of its last one (the appended median frame):
    what the stage records as [real_ndit_sci] and [real_ndit_sky]. *)
Definition real_ndit (cubes : list FirstFrames.cube) : list Z :=
  map (fun tmp_tmp => Z.of_nat (length tmp_tmp) - 1) cubes.

(** Everything that holds once [first_frames_removal] has returned [out]. *)
Definition stage_completed (annulus_flux : FirstFrames.frame -> Q)
    (np_std : list Q -> Q) (dd : FirstFrames.dataset_dict)
    (plot : FirstFrames.plot_option) (sci sky : list FirstFrames.cube)
    (out : FirstFrames.stage_out)
    (tmp_fluxes tmp_fluxes_sky : list (list Q))
    (nominal_sci nominal_sky min_ndit_sci min_ndit_sky : Z) : Prop :=
  let nfr := FirstFrames.nfr_rm out in
  let ncols := Z.to_nat min_ndit_sci in
  sci <> [] /\
  FirstFrames.py_min_list (real_ndit sci) = Ok min_ndit_sci /\
  FirstFrames.py_min_list (FirstFrames.ndit_sci dd) = Ok nominal_sci /\
  FirstFrames.py_min_list (real_ndit sky) = Ok min_ndit_sky /\
  FirstFrames.py_min_list (FirstFrames.ndit_sky dd) = Ok nominal_sky /\
  FirstFrames.new_ndit_sci out = nominal_sci - Z.of_nat nfr /\
  FirstFrames.new_ndit_sky out = nominal_sky - Z.of_nat nfr /\
  0 <= FirstFrames.new_ndit_sci out /\
  0 <= FirstFrames.new_ndit_sky out /\
  (if FirstFrames.fast_reduction dd
   then tmp_fluxes = map (fun _ => repeat 1%Q ncols) sci /\
        nfr = 0%nat /\
        tmp_fluxes_sky
        = map (fun _ => repeat 1%Q (Z.to_nat (FirstFrames.new_ndit_sky out))) sky
   else FirstFrames.traverse
          (fun tmp => FirstFrames.measure annulus_flux tmp 0 ncols) sci
        = Ok tmp_fluxes /\
        FirstFrames.find_nfr_rm np_std (FirstFrames.median_axis0 tmp_fluxes ncols)
        = Some nfr /\
        FirstFrames.traverse
          (fun tmp => FirstFrames.measure annulus_flux tmp nfr
                        (Z.to_nat (FirstFrames.new_ndit_sky out))) sky
        = Ok tmp_fluxes_sky /\
        min_ndit_sci - Z.of_nat nfr <= FirstFrames.new_ndit_sci out) /\
  Forall2 (fun x c => FirstFrames.crop_rescale_sci nfr x.1.1 x.1.2 x.2 = Ok c)
    (zip (zip sci (map (fun r => Z.min (r - Z.of_nat nfr)
                                       (nominal_sci - Z.of_nat nfr))
                       (real_ndit sci)))
         tmp_fluxes)
    (FirstFrames.rmfr_sci out) /\
  Forall (fun c => FirstFrames.new_ndit_sci out <= Z.of_nat (length c))
    (FirstFrames.rmfr_sci out) /\
  Forall2 (fun x c => FirstFrames.crop_rescale_sky nfr x.1.1 x.1.2 x.2 = Ok c)
    (zip (zip sky (map (fun _ => min_ndit_sky - Z.of_nat nfr) (real_ndit sky)))
         tmp_fluxes_sky)
    (FirstFrames.rmfr_sky out) /\
  (FirstFrames.truthy plot = true ->
   Forall (fun c => FirstFrames.new_ndit_sky out <= Z.of_nat (length c))
     (FirstFrames.rmfr_sky out)).

(** The frame counts as the specification words them: each science cube and
    each sky cube holds its category's nominal count less [nfr_rm]. *)
Definition counts_as_claimed (dd : FirstFrames.dataset_dict)
    (out : FirstFrames.stage_out) : Prop :=
  exists nominal_sci nominal_sky,
    FirstFrames.py_min_list (FirstFrames.ndit_sci dd) = Ok nominal_sci /\
    FirstFrames.py_min_list (FirstFrames.ndit_sky dd) = Ok nominal_sky /\
    Forall (fun c => Z.of_nat (length c)
                     = nominal_sci - Z.of_nat (FirstFrames.nfr_rm out))
      (FirstFrames.rmfr_sci out) /\
    Forall (fun c => Z.of_nat (length c)
                     = nominal_sky - Z.of_nat (FirstFrames.nfr_rm out))
      (FirstFrames.rmfr_sky out).

(** The median flux over the frames a cube retains, [cnt] of them from
    [nfr_rm] on: the reference level the specification names. *)
Definition retained_median (annulus_flux : FirstFrames.frame -> Q)
    (nfr_rm cnt : nat) (tmp : FirstFrames.cube) : option Q :=
  Np.np_median (map annulus_flux (take cnt (drop nfr_rm tmp))).

(** A pixel-wise reading of "this frame is unchanged". *)
Definition same_frame (tmp_dd : FirstFrames.frame)
    (out : FirstFrames.scaled_frame) : Prop :=
  Forall2 (fun p o => exists q, o = Some q /\ (q == p)%Q) tmp_dd out.

(** Crop sizes of the reference fit and of the per-frame fits. *)
Definition reference_crop_sz (resel_ori : Q) : Z :=
  let crop_sz := Np.py_int (5 * resel_ori) in
  if crop_sz mod 2 =? 0 then crop_sz - 1 else crop_sz.

Definition frame_crop_sz (resel_ori : Q) : Z :=
  let crop_sz := Np.py_int (3 * resel_ori) in
  if crop_sz mod 2 =? 0 then crop_sz + 1 else crop_sz.


(** The content of file [name] once a stage has run. *)
Definition file_after {A} (r : result (gmap string A)) (name : string)
    : result (option A) :=
  match r with
  | Ok store => Ok (store !! name)
  | Raise e => Raise e
  end.

(** [rank_minimises stat nnpc o]: [o] is a candidate, and whenever the
    statistic is a number at [o] and at another candidate, it is no larger
    at [o]. *)
Definition rank_minimises (stat : Z -> option Q) (nnpc : list Z) (o : Z) : Prop :=
  o ∈ nnpc /\
  forall c, c ∈ nnpc ->
    forall v w, stat o = Some v -> stat c = Some w -> (v <= w)%Q.

(** [median_of_three r a b c]: [r] is one of the three and sits between the
    other two. *)
Definition median_of_three (r a b c : Z) : Prop :=
  exists lo hi, [lo; r; hi] ≡ₚ [a; b; c] /\ lo <= r <= hi.

(** The rank a PCA run settled on. *)
Definition rank_of {A} (r : result (Z * A)) : result Z :=
  match r with
  | Ok (npc, _) => Ok npc
  | Raise e => Raise e
  end.

(** ** Sample collaborators and datasets *)

(** A NACO-sized dataset used to exercise the statements below. *)
Definition sample_dataset : FinalSz.raw_dataset :=
  {| FinalSz.agpm_pos := (300, 310); FinalSz.com_sz := 733;
     FinalSz.shadow_r := 280 |}.

(** Sample collaborators: an annulus that covers the whole frame, and a
    standard deviation that is exact whenever the variance is the square of
    a rational. *)
Definition whole_frame_flux (f : FirstFrames.frame) : Q := Np.np_sum f.

Definition variance (l : list Q) : Q :=
  let n := inject_Z (Z.of_nat (length l)) in
  let mu := (Np.np_sum l / n)%Q in
  (Np.np_sum (map (fun x => (x - mu) * (x - mu))%Q l) / n)%Q.

Definition rational_std (l : list Q) : Q :=
  let v := Qred (variance l) in
  Z.sqrt (Qnum v) # Pos.sqrt (Qden v).

(** Two small datasets.  [short_sky]: fast reduction without plots, one
    science cube with its nominal two frames and one sky cube a frame short
    of its nominal three.  [drifting]: full reduction, four frames per cube
    with annular fluxes 1, 18, 21, 22 and the appended median frame. *)
Definition short_sky_dict : FirstFrames.dataset_dict :=
  {| FirstFrames.ndit_sci := [2]; FirstFrames.ndit_sky := [3];
     FirstFrames.ndit_unsat := [1]; FirstFrames.fast_reduction := true |}.

Definition short_sky_cube : FirstFrames.cube :=
  [[1; 0]; [2; 1]; [3; 1]]%Q.

Definition drifting_dict : FirstFrames.dataset_dict :=
  {| FirstFrames.ndit_sci := [4]; FirstFrames.ndit_sky := [4];
     FirstFrames.ndit_unsat := [4]; FirstFrames.fast_reduction := false |}.

Definition drifting_cube : FirstFrames.cube :=
  [[1; 0]; [10; 8]; [11; 10]; [12; 10]; [11; 9]]%Q.

(** A small alignment run.  A frame is summarised by its drift; the sample
    fit finds every speck moved by the drift of the frame, reports an
    elongated speck right of x = 200 and fails on frames drifting by more
    than one pixel. *)
Definition sample_fit (frame : Q) (xy : Q * Q) (crop_sz : Z)
    (call : DustSpecks.fit_call) : result DustSpecks.gauss_fit :=
  if Np.Qltb 1 frame then Raise ValueError
  else if Np.Qltb 200 xy.1
       then Ok {| DustSpecks.centroid_x := xy.1 + frame;
                  DustSpecks.centroid_y := xy.2 - frame;
                  DustSpecks.fit_fwhm_x := 4; DustSpecks.fit_fwhm_y := 6;
                  DustSpecks.amplitude := 1;
                  DustSpecks.fit_fwhm_x_pos := eq_refl;
                  DustSpecks.fit_fwhm_y_pos := eq_refl |}
       else Ok {| DustSpecks.centroid_x := xy.1 + frame;
                  DustSpecks.centroid_y := xy.2 - frame;
                  DustSpecks.fit_fwhm_x := 4; DustSpecks.fit_fwhm_y := 4;
                  DustSpecks.amplitude := 1;
                  DustSpecks.fit_fwhm_x_pos := eq_refl;
                  DustSpecks.fit_fwhm_y_pos := eq_refl |}.

Definition sample_table : list DustSpecks.detection_row :=
  [ {| DustSpecks.det_y := 200; DustSpecks.det_x := 150; DustSpecks.px_snr := Some 50%Q |};
    {| DustSpecks.det_y := 30; DustSpecks.det_x := 220; DustSpecks.px_snr := Some 40%Q |};
    {| DustSpecks.det_y := 90; DustSpecks.det_x := 95; DustSpecks.px_snr := Some 99%Q |};
    {| DustSpecks.det_y := 10; DustSpecks.det_x := 10; DustSpecks.px_snr := Some 80%Q |};
    {| DustSpecks.det_y := 180; DustSpecks.det_x := 40; DustSpecks.px_snr := None |} ].

Definition sample_alignment : result (DustSpecks.alignment Q) :=
  DustSpecks.align_on_dust Q (fun frame => frame) sample_fit
    (fun tmp_cube => default 0%Q (head tmp_cube))
    (fun frame dy dx => (frame - default 0 dx)%Q)
    0%Q sample_table 100 100 4 (26 # 10)
    [[0; 1 # 2; 1]; [0; 0; 1 # 4]]%Q [[1 # 2; 2; 0]]%Q 3 3.

(** A small sky-subtraction dataset: four science cubes and two sky cubes,
    frames summarised by one number, timestamps in days. *)
Definition sample_sci_list : list string := ["a.fits"; "b.fits"; "c.fits"; "d.fits"].
Definition sample_sky_list : list string := ["s.fits"; "t.fits"].

Definition sample_headers : gmap string Q :=
  list_to_map [("a.fits", 10 # 1); ("b.fits", 11 # 1); ("c.fits", 14 # 1);
               ("d.fits", 15 # 1); ("s.fits", 9 # 1); ("t.fits", 16 # 1)]%Q.

Definition sample_store : gmap string (list Q) :=
  list_to_map [("3_AGPM_aligned_imlib_a.fits", [5; 6]);
               ("3_AGPM_aligned_imlib_b.fits", [7; 8]);
               ("3_AGPM_aligned_imlib_c.fits", [9; 10]);
               ("3_AGPM_aligned_imlib_d.fits", [11; 12]);
               ("3_AGPM_aligned_imlib_s.fits", [1; 1; 1]);
               ("3_AGPM_aligned_imlib_t.fits", [2; 2; 2])]%Q.

Definition sample_cube_median (cube : list Q) : Q :=
  default 0%Q (Np.np_median cube).

Definition sample_median_run : result (gmap string (list Q)) :=
  SkySubtract.subtract_sky_median Q sample_cube_median Qminus
    sample_sci_list sample_sky_list sample_headers sample_store.

(** A sample PCA run on the same dataset: the sample model removes the rank
    from every pixel, and the scatter around a speck is the distance of the
    first residual frame from 2. *)
Definition sample_pca (cube sky_cube : list Q) (ncomp : Z) : list Q :=
  map (fun f => f - inject_Z ncomp)%Q cube.

Definition sample_aperture_std (tmp_tmp : list Q) (xy : Q * Q) : Q :=
  Qabs (default 0%Q (head tmp_tmp) - 2).

Definition sample_pca_run : result (Z * gmap string (list Q)) :=
  SkySubtract.subtract_sky_pca Q sample_cube_median Qminus sample_pca
    sample_aperture_std (SkySubtract.NpcList [1; 2; 3; 4; 5; 10])
    sample_sci_list sample_sky_list [3; 3]%nat 3
    [(150, 200); (220, 30); (10, 10)]%Q sample_headers sample_store.

(** A flat residual of side 734, the side at which [crop] rounds to 0. *)
Definition flat_residual (guess : Q) : DarkSubtract.array2 :=
  DarkSubtract.np_zeros2 734 734.

(** ** Predicates and samples for the further properties *)

(** Number of entries of a list that equal zero. *)
Fixpoint zeros (l : list Q) : nat :=
  match l with
  | [] => 0%nat
  | x :: l' => ((if Qeq_bool x 0 then 1 else 0) + zeros l')%nat
  end.

(** A gain outside the range the bad pixel map tolerates, 0.68 to 1.5. *)
Definition out_of_range (g : FlatField.double) : Prop :=
  match g with
  | FlatField.Finite q => (q < 68 # 100)%Q \/ (150 # 100 < q)%Q
  | FlatField.PosInf => True
  | FlatField.NegInf => True
  | FlatField.NaN => False
  end.

(** The stack and the counter that serve the flats nearest to value number
    [g] of [flat_X_values] (0, 1 or 2). *)
Definition stack_of (g : Z) (s : FlatField.stacks) : list DarkSubtract.array2 :=
  if g =? 0 then FlatField.flat_tmp_cube_1 s
  else if g =? 1 then FlatField.flat_tmp_cube_2 s
       else FlatField.flat_tmp_cube_3 s.

Definition counter_of (g : Z) (s : FlatField.stacks) : nat :=
  if g =? 0 then FlatField.counter_1 s
  else if g =? 1 then FlatField.counter_2 s
       else FlatField.counter_3 s.

(** Positions in [flat_list], counted from [fl], of the flats whose nearest
    value is number [g]. *)
Fixpoint members (flat_X_values : list Q) (g : Z) (fl : nat) (flat_X : list Q)
    : list nat :=
  match flat_X with
  | [] => []
  | x :: rest =>
      match FlatField.nearest_index flat_X_values x with
      | Ok g' => if g' =? g then fl :: members flat_X_values g (S fl) rest
                 else members flat_X_values g (S fl) rest
      | Raise _ => members flat_X_values g (S fl) rest
      end
  end.

(** Frame [fl] of the flat cube, as a slot of side [n] receives it. *)
Definition filed (n : nat) (flat_cube : list DarkSubtract.array2) (fl : nat)
    (frame : DarkSubtract.array2) : Prop :=
  exists f0, flat_cube !! fl = Some f0 /\ FlatField.broadcast_frame n f0 = Ok frame.

(** No value of the list is close to one that precedes it. *)
Definition separated (atol : Q) (vals : list Q) : Prop :=
  forall i j x y, (i < j)%nat -> vals !! i = Some x -> vals !! j = Some y ->
    FlatField.isclose y x atol = false.

(** Six flats taken at two airmasses, and their dark-subtracted frames. *)
Definition sample_keys : FlatField.flat_keys :=
  FlatField.Airmass [1; 1; 1; 2; 2; 2]%Q.

Definition sample_flat_cube : list DarkSubtract.array2 :=
  repeat [[3; 4]; [5; 6]]%Q 6.

(** A master flat with one dead, one hot, one undefined and one good pixel. *)
Definition sample_master_flat : list (list FlatField.double) :=
  [[FlatField.Finite (1 # 2); FlatField.Finite 2];
   [FlatField.NaN; FlatField.Finite 1]].

(** A cube of three frames of one row and two columns. *)
Definition sample_bpix_cube : DustSpecks.ndarray Q :=
  {| DustSpecks.shape := [3; 1; 2]%nat; DustSpecks.data := [1; 2; 3; 4; 5; 6]%Q |}.

(** The quadrant of pixel [(i, j)], numbered as [bad_quadrant] numbers
    them: 1 above and right of the centre, 2 above and left, 3 below and
    left, 4 below and right. *)
Definition quadrant_of (cy cx : Q) (i j : nat) : Z :=
  if Z.of_nat i <=? Np.py_int cy
  then if Z.of_nat j <=? Np.py_int cx then 3 else 4
  else if Z.of_nat j <=? Np.py_int cx then 2 else 1.

(** A residual frame of side 46, the smallest that holds the band of 46
    rows, whatever the guess. *)
Definition band_residual (guess : Q) : DarkSubtract.array2 :=
  repeat (repeat 1%Q 46) 46.

(** The rows that [fix_sporadic_columns] marks for a quadrant, on frames
    of side [com_sz]. *)
Definition marked_rows (quadrant : string) (com_sz : Z) (i : nat) : Prop :=
  let half := Np.py_int (inject_Z (com_sz - 1) / 2) in
  (quadrant = "topright" /\ half <= Z.of_nat i < com_sz - 1) \/
  (quadrant = "bottomright" /\ Z.of_nat i < half).

(** Star position [pos] lies within [thr_d] pixels of [uni]. *)
Definition within (thr_d : Q) (pos uni : Z * Z) : Prop :=
  StellarPsf.closer_than thr_d pos.2 pos.1 uni.2 uni.1 = true.

(** What [index_dither] and [unique_pos] say about the star positions gone
    through: each cube points to the first dither position within [thr_d]
    of its star, or to the one it founded; no dither position lies within
    [thr_d] of an earlier one. *)
Definition dither_invariant (thr_d : Q) (positions : list (Z * Z))
    (index_dither : list nat) (unique_pos : list (Z * Z)) : Prop :=
  length index_dither = length positions /\
  (forall un d, index_dither !! un = Some d ->
     exists pos uni,
       positions !! un = Some pos /\ unique_pos !! d = Some uni /\
       (pos = uni \/ within thr_d pos uni) /\
       forall d' uni', (d' < d)%nat -> unique_pos !! d' = Some uni' ->
                       ~ within thr_d pos uni') /\
  (forall d' d u' u, (d' < d)%nat -> unique_pos !! d' = Some u' ->
                     unique_pos !! d = Some u -> ~ within thr_d u u').

(** The two products that [get_stellar_psf] is meant to write last are as
    they were. *)
Definition tail_untouched {image} (s s' : StellarPsf.files image) : Prop :=
  StellarPsf.frames image s' !! "master_unsat_psf_norm.fits"
  = StellarPsf.frames image s !! "master_unsat_psf_norm.fits" /\
  StellarPsf.vectors image s' !! "master_unsat-stellarpsf_fluxes.fits"
  = StellarPsf.vectors image s !! "master_unsat-stellarpsf_fluxes.fits".

(** A stage that leaves the two products alone, and one that never
    completes. *)
Definition keeps {image A} (m : StellarPsf.stage (StellarPsf.files image) A)
    : Prop :=
  forall s, tail_untouched s (m s).1.

Definition never {image A} (m : StellarPsf.stage (StellarPsf.files image) A)
    : Prop :=
  forall s, raising (m s).2.

(** The across-cube median flux of frame-index [ii]: the median, over the
    science cubes, of the annular flux of their frame [ii]. *)
Definition across_cube_median (annulus_flux : FirstFrames.frame -> Q)
    (sci : list FirstFrames.cube) (ii : nat) : option Q :=
  Np.np_median (omap (fun tmp => annulus_flux <$> tmp !! ii) sci).

(** The point a search settles on when every value it is given is NaN. *)
Fixpoint blind (method : OffsetSearch.search) : Q :=
  match method with
  | OffsetSearch.Settle x => x
  | OffsetSearch.Ask _ next => blind (next None)
  end.

(** A search of two evaluations: it tries a step of 0.00025 from the start
    and keeps the better point, the start when a value is NaN. *)
Definition two_point_search (v0 : option Q) : OffsetSearch.search :=
  OffsetSearch.Ask (1 # 4000)
    (fun v1 => match v0, v1 with
               | Some a, Some b => if Np.Qltb b a
                                   then OffsetSearch.Settle (1 # 4000)
                                   else OffsetSearch.Settle 0
               | _, _ => OffsetSearch.Settle 0
               end).

(** * Properties *)

(** ** Comparisons and [np.argmin] *)

Lemma Qltb_lt (a b : Q) : Np.Qltb a b = true <-> (a < b)%Q.
Proof.
  unfold Np.Qltb. rewrite negb_true_iff, <- not_true_iff_false, Qle_bool_iff.
  split; [apply Qnot_le_lt | apply Qlt_not_le].
Qed.

Lemma Qltb_ge (a b : Q) : Np.Qltb a b = false <-> (b <= a)%Q.
Proof.
  unfold Np.Qltb. rewrite negb_false_iff. apply Qle_bool_iff.
Qed.

Lemma argmin_from_first_min (l pre : list Q) (best : nat) (bv : Q) :
  first_min pre best bv ->
  exists v, first_min (pre ++ l) (Np.argmin_from best bv (length pre) l) v.
Proof.
  revert pre best bv.
  induction l as [|x l IH]; intros pre best bv (Hb & Hle & Hlt); simpl.
  - exists bv. rewrite app_nil_r. by repeat split.
  - replace (pre ++ x :: l) with ((pre ++ [x]) ++ l) by by rewrite <- app_assoc.
    replace (S (length pre)) with (length (pre ++ [x]))
      by (rewrite length_app; simpl; lia).
    destruct (Np.Qltb x bv) eqn:E.
    + apply Qltb_lt in E.
      apply IH. repeat split.
      * rewrite lookup_app_r by lia. by rewrite Nat.sub_diag.
      * intros j w Hj. apply lookup_app_Some in Hj as [Hj | [_ Hj]].
        -- apply Qlt_le_weak. eapply Qlt_le_trans; [exact E | eauto].
        -- apply list_lookup_singleton_Some in Hj as [_ <-]. apply Qle_refl.
      * intros j w Hj Hji. apply lookup_app_Some in Hj as [Hj | [Hge _]].
        -- eapply Qlt_le_trans; [exact E | eauto].
        -- lia.
    + apply Qltb_ge in E. apply IH. repeat split.
      * by apply lookup_app_l_Some.
      * intros j w Hj. apply lookup_app_Some in Hj as [Hj | [_ Hj]]; [eauto |].
        by apply list_lookup_singleton_Some in Hj as [_ <-].
      * intros j w Hj Hji. apply lookup_app_Some in Hj as [Hj | [Hge _]]; [eauto |].
        apply lookup_lt_Some in Hb. lia.
Qed.

Lemma np_argmin_first_min (x : Q) (l : list Q) :
  exists i v, Np.np_argmin (x :: l) = Ok i /\ first_min (x :: l) i v.
Proof.
  destruct (argmin_from_first_min l [x] 0 x) as [v Hv].
  - repeat split; simpl; try done.
    + intros [|j] w Hj; simpl in Hj; [injection Hj as <-; apply Qle_refl | done].
    + lia.
  - exists (Np.argmin_from 0 x 1 l), v. split; [done | exact Hv].
Qed.

Lemma first_min_lt_length (l : list Q) i v : first_min l i v -> (i < length l)%nat.
Proof. intros [H _]. by eapply lookup_lt_Some. Qed.

Lemma py_index_lookup {A} (l : list A) (i : nat) (a : A) :
  l !! i = Some a -> Np.py_index l (Z.of_nat i) = Ok a.
Proof.
  intros H. pose proof (lookup_lt_Some _ _ _ H) as Hlt. unfold Np.py_index.
  replace (Z.of_nat i <? 0) with false by (symmetry; apply Z.ltb_ge; lia).
  replace (0 <=? Z.of_nat i) with true by (symmetry; apply Z.leb_le; lia).
  replace (Z.of_nat i <? Z.of_nat (length l)) with true
    by (symmetry; apply Z.ltb_lt; lia).
  simpl. by rewrite Nat2Z.id, H.
Qed.

(** ** [find_nearest] *)

Lemma find_nearest_nonempty (x : Q) (l : list Q) value output c :
  exists i v, nearest_to (x :: l) value i v /\
    FindNearest.find_nearest (FindNearest.NdArray (x :: l)) value output c
    = Ok (nearest_answer output i v).
Proof.
  set (a := x :: l).
  destruct (np_argmin_first_min (Qabs (x - value))
              (map (fun y => Qabs (y - value)) l)) as (i & d & Harg & Hfm).
  change (Qabs (x - value) :: map (fun y => Qabs (y - value)) l)
    with (map (fun y => Qabs (y - value)) a) in Harg, Hfm.
  destruct Hfm as (Hi & Hle & Hlt).
  rewrite list_lookup_fmap in Hi.
  destruct (a !! i) as [v|] eqn:Hv; [|done].
  change (Some (Qabs (v - value)) = Some d) in Hi. injection Hi as <-.
  exists i, v. split.
  - repeat split; [done | |].
    + intros j w Hj. apply (Hle j). by rewrite list_lookup_fmap, Hj.
    + intros j w Hj Hji. apply (Hlt j); [|done]. by rewrite list_lookup_fmap, Hj.
  - unfold FindNearest.find_nearest, nearest_answer. fold a.
    cbn [mbind result_bind]. rewrite Harg. cbn [mbind result_bind FindNearest.py_eq].
    rewrite (py_index_lookup _ _ _ Hv).
    by repeat case_bool_decide.
Qed.

(** C10: [find_nearest] gives the same answer for every value of
    [constraint] (None, 'ceil', 'floor' or anything else), on an ndarray and
    on a list alike: the position (or element, or both, as [output] asks) of
    the first element closest to [value]; an empty input raises ValueError
    and any other argument type raises ValueError.  The two tests that guard
    the ceil/floor adjustment compare the builtin [type] with a string and
    are false, so the adjustment is dead code. *)
Theorem find_nearest_constraint_irrelevant
    (a : list Q) (value : Q) (output : string) (c c' : FindNearest.pyobj) :
  FindNearest.find_nearest (FindNearest.NdArray a) value output c
    = FindNearest.find_nearest (FindNearest.NdArray a) value output c' /\
  FindNearest.find_nearest (FindNearest.PyList a) value output c
    = FindNearest.find_nearest (FindNearest.NdArray a) value output c' /\
  FindNearest.py_eq FindNearest.PyBuiltinType (FindNearest.PyStr "ceil") = false /\
  FindNearest.py_eq FindNearest.PyBuiltinType (FindNearest.PyStr "floor") = false /\
  match a with
  | [] => FindNearest.find_nearest (FindNearest.NdArray a) value output c
          = Raise ValueError
  | _ => exists i v, nearest_to a value i v /\
         FindNearest.find_nearest (FindNearest.NdArray a) value output c
         = Ok (nearest_answer output i v)
  end.
Proof.
  repeat split; try reflexivity.
  destruct a as [|x l]; [reflexivity | apply find_nearest_nonempty].
Qed.

(** ** [get_final_sz] *)

Lemma py_int_below (q : Q) : (0 <= q)%Q -> (inject_Z (Np.py_int q) <= q)%Q.
Proof.
  destruct q as [n d]. unfold Qle, Np.py_int. simpl. intros Hn.
  rewrite Z.quot_div_nonneg by lia.
  pose proof (Z.mul_div_le n (Z.pos d)). lia.
Qed.

Lemma py_int_above (q : Q) (k : Z) : (inject_Z k <= q)%Q -> k <= Np.py_int q.
Proof.
  destruct q as [n d]. unfold Qle, Np.py_int. simpl. intros Hk.
  destruct (Z.le_gt_cases 0 n) as [Hn | Hn].
  - rewrite Z.quot_div_nonneg by lia. apply Z.div_le_lower_bound; lia.
  - pose proof (Z.quot_rem' n (Z.pos d)) as Hqr.
    pose proof (Z.rem_bound_pos_neg n (Z.pos d)) as Hr.
    assert (- Z.pos d < Z.rem n (Z.pos d) <= 0) as Hr' by (apply Hr; lia).
    nia.
Qed.

(** C7: with a non-negative shadow radius, [get_final_sz] returns an odd
    integer that is at most twice the shadow radius, at most the cap when the
    caller gives one, and at most [2*d - 1] for each of the four distances
    [d] from the AGPM position to the frame edges; no larger odd integer
    meets these bounds. *)
Theorem get_final_sz_largest_odd (self : FinalSz.raw_dataset) (cap : option Z) :
  (0 <= FinalSz.shadow_r self)%Q ->
  let a0 := fst (FinalSz.agpm_pos self) in
  let a1 := snd (FinalSz.agpm_pos self) in
  let n := FinalSz.com_sz self in
  let bounded (k : Z) :=
    (inject_Z k <= 2 * FinalSz.shadow_r self)%Q /\
    (forall c, cap = Some c -> k <= c) /\
    k <= 2 * a0 - 1 /\ k <= 2 * a1 - 1 /\
    k <= 2 * (n - a0) - 1 /\ k <= 2 * (n - a1) - 1 in
  let r := FinalSz.get_final_sz self cap in
  Z.odd r = true /\ bounded r /\
  (forall k, Z.odd k = true -> bounded k -> k <= r).
Proof.
  intros Hr a0 a1 n bounded r.
  assert (Hr2 : (0 <= 2 * FinalSz.shadow_r self)%Q) by nra.
  pose proof (py_int_below _ Hr2) as Hlo.
  set (s := Np.py_int (2 * FinalSz.shadow_r self)) in *.
  assert (Hinj : forall x y : Z, x <= y -> (inject_Z x <= inject_Z y)%Q)
    by (intros x y Hxy; by rewrite <- Zle_Qle).
  subst r bounded. unfold FinalSz.get_final_sz, Np.py_min.
  fold a0 a1 n s. destruct cap as [c|]; cbn [fold_left].
  - set (m := Z.min _ c).
    assert (Hm : m <= s /\ m <= c /\ m <= 2 * a0 - 1 /\ m <= 2 * a1 - 1 /\
                 m <= 2 * (n - a0) - 1 /\ m <= 2 * (n - a1) - 1 /\
                 forall k, k <= s -> k <= c -> k <= 2 * a0 - 1 -> k <= 2 * a1 - 1 ->
                   k <= 2 * (n - a0) - 1 -> k <= 2 * (n - a1) - 1 -> k <= m)
      by (subst m; repeat split; lia).
    clearbody m. destruct Hm as (H1 & H2 & H3 & H4 & H5 & H6 & Hmax).
    destruct (m mod 2 =? 0) eqn:E.
    + apply Z.eqb_eq in E. repeat split; try lia.
      * rewrite Zodd_mod. apply Z.eqb_eq. Z.div_mod_to_equations. lia.
      * eapply Qle_trans; [apply Hinj | exact Hlo]. lia.
      * intros c' [= <-]. lia.
      * intros k Hk (Hks & Hkc & ?). apply py_int_above in Hks. fold s in Hks.
        specialize (Hkc c eq_refl). rewrite Zodd_mod in Hk. apply Z.eqb_eq in Hk.
        assert (k <= m) by (apply Hmax; lia). Z.div_mod_to_equations. lia.
    + apply Z.eqb_neq in E. repeat split; try lia.
      * rewrite Zodd_mod. apply Z.eqb_eq. Z.div_mod_to_equations. lia.
      * eapply Qle_trans; [apply Hinj | exact Hlo]. lia.
      * intros c' [= <-]. lia.
      * intros k Hk (Hks & Hkc & ?). apply py_int_above in Hks. fold s in Hks.
        specialize (Hkc c eq_refl). apply Hmax; lia.
  - set (m := Z.min _ s).
    assert (Hm : m <= s /\ m <= 2 * a0 - 1 /\ m <= 2 * a1 - 1 /\
                 m <= 2 * (n - a0) - 1 /\ m <= 2 * (n - a1) - 1 /\
                 forall k, k <= s -> k <= 2 * a0 - 1 -> k <= 2 * a1 - 1 ->
                   k <= 2 * (n - a0) - 1 -> k <= 2 * (n - a1) - 1 -> k <= m)
      by (subst m; repeat split; lia).
    clearbody m. destruct Hm as (H1 & H3 & H4 & H5 & H6 & Hmax).
    destruct (m mod 2 =? 0) eqn:E.
    + apply Z.eqb_eq in E. repeat split; try lia; try done.
      * rewrite Zodd_mod. apply Z.eqb_eq. Z.div_mod_to_equations. lia.
      * eapply Qle_trans; [apply Hinj | exact Hlo]. lia.
      * intros k Hk (Hks & Hkc & ?). apply py_int_above in Hks. fold s in Hks.
        rewrite Zodd_mod in Hk. apply Z.eqb_eq in Hk.
        assert (k <= m) by (apply Hmax; lia). Z.div_mod_to_equations. lia.
    + apply Z.eqb_neq in E. repeat split; try lia; try done.
      * rewrite Zodd_mod. apply Z.eqb_eq. Z.div_mod_to_equations. lia.
      * eapply Qle_trans; [apply Hinj | exact Hlo]. lia.
      * intros k Hk (Hks & Hkc & ?). apply py_int_above in Hks. fold s in Hks.
        apply Hmax; lia.
Qed.

Lemma get_final_sz_largest_odd_witness :
  (0 <= FinalSz.shadow_r sample_dataset)%Q /\
  Z.odd (FinalSz.get_final_sz sample_dataset (Some 400)) = true.
Proof.
  assert (H : (0 <= FinalSz.shadow_r sample_dataset)%Q) by discriminate.
  split; [exact H |].
  exact (proj1 (get_final_sz_largest_odd sample_dataset (Some 400) H)).
Defined.

(** ** The flagging loop of [first_frames_removal] *)

Lemma Qabs_gt_cases (a b : Q) : (b < Qabs a)%Q <-> (b < a)%Q \/ (b < - a)%Q.
Proof.
  split.
  - apply Qabs_case; intros H Hb; [by left | by right].
  - intros [H | H]; [by apply Qabs_gt |].
    rewrite <- Qabs_opp. by apply Qabs_gt.
Qed.

Lemma flagged_iff (x med std : Q) (ii : nat) :
  FirstFrames.flagged x med std ii = true <->
  ii = 0%nat \/ (2 * std < Qabs (x - med))%Q.
Proof.
  unfold FirstFrames.flagged.
  rewrite !orb_true_iff, !Qltb_lt, Nat.eqb_eq, Qabs_gt_cases.
  split.
  - intros [[H | H] | H]; [right; left | right; right | by left]; lra.
  - intros [H | [H | H]]; [by right | left; left | left; right]; lra.
Qed.

Lemma flag_loop_settled (l : list Q) med std ii (acc : option nat) :
  FirstFrames.flag_loop l med std ii false acc = acc.
Proof.
  revert ii. induction l as [|x l IH]; intros ii; simpl; [done |].
  destruct (FirstFrames.flagged x med std ii); apply IH.
Qed.

(** The loop, entered with [first_time] still set, either finds every
    remaining index flagged and leaves [nfr_rm] as it was, or stops at the
    first unflagged one. *)
Lemma flag_loop_first (l : list Q) med std ii (acc : option nat) :
  (FirstFrames.flag_loop l med std ii true acc = acc /\
   forall j x, l !! j = Some x ->
               FirstFrames.flagged x med std (ii + j) = true) \/
  (exists j x, l !! j = Some x /\
     FirstFrames.flagged x med std (ii + j) = false /\
     (forall j' x', (j' < j)%nat -> l !! j' = Some x' ->
                    FirstFrames.flagged x' med std (ii + j') = true) /\
     FirstFrames.flag_loop l med std ii true acc = Some ((ii + j) `min` 10)%nat).
Proof.
  revert ii. induction l as [|x l IH]; intros ii; simpl.
  - left. split; [done | intros j y Hj; by rewrite lookup_nil in Hj].
  - destruct (FirstFrames.flagged x med std ii) eqn:E.
    + destruct (IH (S ii)) as [[Hr Hall] | (j & y & Hj & Hg & Hbefore & Hr)].
      * left. split; [done |]. intros [|j] y Hj; simpl in Hj.
        -- injection Hj as <-. by rewrite Nat.add_0_r.
        -- rewrite <- Nat.add_succ_comm. by eapply Hall.
      * right. exists (S j), y. rewrite <- Nat.add_succ_comm.
        repeat split; try done.
        intros [|j'] y' Hlt Hj'; simpl in Hj'.
        -- injection Hj' as <-. by rewrite Nat.add_0_r.
        -- rewrite <- Nat.add_succ_comm. eapply Hbefore; [lia | done].
    + right. exists 0%nat, x. rewrite Nat.add_0_r.
      repeat split; try done; [lia | apply flag_loop_settled].
Qed.

(** The flagging loop on any list of fluxes: an index is flagged exactly
    when it is index 0 or its flux differs from the median by more than
    twice the standard deviation; [nfr_rm], when the loop sets it, is the
    first unflagged index capped at 10; the loop leaves it unset only when
    every index is flagged. *)
Lemma find_nfr_rm_first_unflagged (np_std : list Q -> Q)
    (tmp_flux_med : list Q) :
  (forall x med std ii,
     FirstFrames.flagged x med std ii = true <->
     ii = 0%nat \/ (2 * std < Qabs (x - med))%Q) /\
  match FirstFrames.find_nfr_rm np_std tmp_flux_med with
  | Some nfr_rm =>
      (nfr_rm <= 10)%nat /\
      exists med i x,
        Np.np_median tmp_flux_med = Some med /\
        tmp_flux_med !! i = Some x /\
        FirstFrames.flagged x med (np_std tmp_flux_med) i = false /\
        (forall j y, (j < i)%nat -> tmp_flux_med !! j = Some y ->
           FirstFrames.flagged y med (np_std tmp_flux_med) j = true) /\
        nfr_rm = (i `min` 10)%nat
  | None =>
      forall med i x,
        Np.np_median tmp_flux_med = Some med ->
        tmp_flux_med !! i = Some x ->
        FirstFrames.flagged x med (np_std tmp_flux_med) i = true
  end.
Proof.
  split; [apply flagged_iff |].
  unfold FirstFrames.find_nfr_rm.
  destruct (Np.np_median tmp_flux_med) as [med|] eqn:Hmed; [|done].
  destruct (flag_loop_first tmp_flux_med med (np_std tmp_flux_med) 0 None)
    as [[-> Hall] | (j & x & Hj & Hg & Hbefore & ->)].
  - intros med' i x [= <-] Hi. by apply (Hall i).
  - split; [lia |]. exists med, j, x. by repeat split.
Qed.

(** ** Running a loop body under [result] *)

Lemma bind_Ok {A B} (m : result A) (k : A -> result B) (b : B) :
  m ≫= k = Ok b -> exists a, m = Ok a /\ k a = Ok b.
Proof. destruct m as [a|e]; [by exists a | done]. Qed.

Lemma traverse_Forall2 {A B} (f : A -> result B) (l : list A) (r : list B) :
  FirstFrames.traverse f l = Ok r -> Forall2 (fun a b => f a = Ok b) l r.
Proof.
  revert r. induction l as [|a l IH]; intros r H; simpl in H.
  - injection H as <-. constructor.
  - apply bind_Ok in H as (b & Hb & H). apply bind_Ok in H as (bs & Hbs & H).
    injection H as <-. constructor; [done | by apply IH].
Qed.

Lemma traverse_seq_lookup {B} (f : nat -> result B) (start n : nat) (r : list B) :
  FirstFrames.traverse f (seq start n) = Ok r ->
  length r = n /\ forall i b, r !! i = Some b -> f (start + i)%nat = Ok b.
Proof.
  intros H. apply traverse_Forall2 in H. split.
  - apply Forall2_length in H. by rewrite length_seq in H.
  - intros i b Hi.
    destruct (Forall2_lookup_r _ _ _ _ _ H Hi) as (k & Hk & Hf).
    apply lookup_seq in Hk as [-> _]. exact Hf.
Qed.

Lemma index_nat_Ok {A} (l : list A) (i : nat) (a : A) :
  FirstFrames.index_nat l i = Ok a <-> l !! i = Some a.
Proof.
  unfold FirstFrames.index_nat. destruct (l !! i); split; congruence.
Qed.

Lemma np_alloc_Ok (k : Z) (u : unit) : FirstFrames.np_alloc k = Ok u -> 0 <= k.
Proof.
  unfold FirstFrames.np_alloc. destruct (k <? 0) eqn:E; [done |].
  intros _. by apply Z.ltb_ge.
Qed.

Lemma check_range_Ok (n : Z) (len : nat) (u : unit) :
  FirstFrames.check_range n len = Ok u -> n <= Z.of_nat len.
Proof.
  unfold FirstFrames.check_range.
  destruct (Z.max n 0 <=? Z.of_nat len) eqn:E; [|done].
  intros _. apply Z.leb_le in E. lia.
Qed.

Lemma py_min_list_Ok_inv (l : list Z) (m : Z) :
  FirstFrames.py_min_list l = Ok m -> l <> [] /\ Forall (fun x => m <= x) l.
Proof.
  destruct l as [|x xs]; [done |]. intros [= <-]. split; [done |].
  unfold Np.py_min.
  assert (G : forall ys y, fold_left Z.min ys y <= y /\
                           Forall (fun z => fold_left Z.min ys y <= z) ys).
  { induction ys as [|z ys IH]; intros y; simpl; [split; [lia | constructor] |].
    destruct (IH (Z.min y z)) as [H1 H2]. split; [lia |].
    constructor; [lia | exact H2]. }
  destruct (G xs x). by constructor.
Qed.

(** ** The cropping loops of [first_frames_removal] *)

Lemma crop_rescale_sci_Ok (nfr_rm : nat) tmp (cnt : Z) row c :
  FirstFrames.crop_rescale_sci nfr_rm tmp cnt row = Ok c ->
  0 <= cnt /\ length c = Z.to_nat cnt /\
  forall i out, c !! i = Some out ->
    exists tmp_dd f, tmp !! (nfr_rm + i)%nat = Some tmp_dd /\
                     row !! (nfr_rm + i)%nat = Some f /\
                     out = FirstFrames.rescale tmp_dd (Np.np_median row) f.
Proof.
  unfold FirstFrames.crop_rescale_sci. intros H.
  apply bind_Ok in H as (u & Hu & H). apply np_alloc_Ok in Hu.
  apply traverse_seq_lookup in H as [Hlen Hbody].
  repeat split; [done | done |]. intros i out Hi.
  specialize (Hbody i out Hi). cbv beta in Hbody.
  apply bind_Ok in Hbody as (tmp_dd & Ht & Hbody).
  apply bind_Ok in Hbody as (f & Hf & Hbody).
  injection Hbody as <-. apply index_nat_Ok in Ht, Hf. by exists tmp_dd, f.
Qed.

Lemma crop_rescale_sky_Ok (nfr_rm : nat) tmp (cnt : Z) row c :
  FirstFrames.crop_rescale_sky nfr_rm tmp cnt row = Ok c ->
  0 <= cnt /\ length c = Z.to_nat cnt /\
  forall i out, c !! i = Some out ->
    exists tmp_dd f, tmp !! (nfr_rm + i)%nat = Some tmp_dd /\
                     row !! i = Some f /\
                     out = FirstFrames.rescale tmp_dd
                             (Np.np_median (drop nfr_rm row)) f.
Proof.
  unfold FirstFrames.crop_rescale_sky. intros H.
  apply bind_Ok in H as (u & Hu & H). apply np_alloc_Ok in Hu.
  apply traverse_seq_lookup in H as [Hlen Hbody].
  repeat split; [done | done |]. intros i out Hi.
  specialize (Hbody i out Hi). cbv beta in Hbody.
  apply bind_Ok in Hbody as (tmp_dd & Ht & Hbody).
  apply bind_Ok in Hbody as (f & Hf & Hbody).
  injection Hbody as <-. apply index_nat_Ok in Ht, Hf.
  replace (nfr_rm + i - nfr_rm)%nat with i in Hf by lia. by exists tmp_dd, f.
Qed.

Lemma measure_length (annulus_flux : FirstFrames.frame -> Q) tmp start n row :
  FirstFrames.measure annulus_flux tmp start n = Ok row -> length row = n.
Proof. intros H. by apply traverse_seq_lookup in H as [? _]. Qed.

(** ** What a completed run of [first_frames_removal] went through *)

Lemma real_ndit_traverse (cubes : list FirstFrames.cube) (r : list Z) :
  FirstFrames.traverse
    (fun tmp_tmp => _ ← Np.py_index tmp_tmp (-1);
                    Ok (Z.of_nat (length tmp_tmp) - 1)) cubes = Ok r ->
  r = real_ndit cubes.
Proof.
  intros H. apply traverse_Forall2 in H.
  induction H as [|c x cubes r Hc _ IH]; [done |].
  apply bind_Ok in Hc as (? & _ & [= <-]). simpl. by rewrite IH.
Qed.

Lemma traverse_check_range (n : Z) {A} (l : list (list A)) (us : list unit) :
  FirstFrames.traverse (fun tmp => FirstFrames.check_range n (length tmp)) l
  = Ok us ->
  Forall (fun c => n <= Z.of_nat (length c)) l.
Proof.
  intros H. apply traverse_Forall2 in H.
  induction H as [|c u l us Hc _ IH]; constructor; [|done].
  by apply check_range_Ok in Hc.
Qed.

Lemma Forall2_pattern3 {A B C D} (f : A -> B -> C -> result D)
    (l : list (A * B * C)) (r : list D) :
  Forall2 (fun a b => (let '(x, y, z) := a in f x y z) = Ok b) l r ->
  Forall2 (fun a b => f a.1.1 a.1.2 a.2 = Ok b) l r.
Proof.
  intros H. eapply Forall2_impl; [exact H |]. by intros [[x y] z] b.
Qed.

Lemma first_frames_removal_Ok annulus_flux np_std dd plot sci sky out :
  FirstFrames.first_frames_removal annulus_flux np_std dd plot sci sky = Ok out ->
  exists tmp_fluxes tmp_fluxes_sky nominal_sci nominal_sky min_ndit_sci min_ndit_sky,
    stage_completed annulus_flux np_std dd plot sci sky out
      tmp_fluxes tmp_fluxes_sky nominal_sci nominal_sky min_ndit_sci min_ndit_sky.
Proof.
  unfold FirstFrames.first_frames_removal. intros H.
  apply bind_Ok in H as (last_sci & Hlast & H).
  assert (Hne : sci <> []) by (intros ->; discriminate).
  apply bind_Ok in H as (rsci & Hrsci & H). apply real_ndit_traverse in Hrsci as ->.
  apply bind_Ok in H as (rsky & Hrsky & H). apply real_ndit_traverse in Hrsky as ->.
  apply bind_Ok in H as (min_ndit_sci & Hmin_sci & H).
  apply bind_Ok in H as ([tmp_fluxes nfr_opt] & Hfl & H). cbn [fst snd] in H.
  apply bind_Ok in H as (nfr & Hnfr & H).
  destruct nfr_opt as [k|]; [injection Hnfr as -> | done].
  apply bind_Ok in H as (nominal_sci & Hnom_sci & H).
  apply bind_Ok in H as (min_ndit_sky & Hmin_sky & H).
  apply bind_Ok in H as (nominal_sky & Hnom_sky & H).
  apply bind_Ok in H as (nominal_unsat & Hnom_unsat & H).
  apply bind_Ok in H as (rmfr_sci & Hsci & H).
  apply bind_Ok in H as (u1 & Halloc_sci & H). apply np_alloc_Ok in Halloc_sci.
  apply bind_Ok in H as (us1 & Hchk_sci & H).
  apply traverse_check_range in Hchk_sci.
  apply bind_Ok in H as (u2 & Hchk2 & H).
  apply bind_Ok in H as (u3 & Halloc_sky & H). apply np_alloc_Ok in Halloc_sky.
  apply bind_Ok in H as (tmp_fluxes_sky & Hfl_sky & H).
  apply bind_Ok in H as (rmfr_sky & Hsky & H).
  apply bind_Ok in H as (us2 & Hchk_sky & H).
  injection H as <-.
  apply traverse_Forall2, Forall2_pattern3 in Hsci, Hsky.
  exists tmp_fluxes, tmp_fluxes_sky, nominal_sci, nominal_sky, min_ndit_sci,
    min_ndit_sky.
  unfold stage_completed. cbn [FirstFrames.nfr_rm FirstFrames.rmfr_sci
    FirstFrames.rmfr_sky FirstFrames.new_ndit_sci FirstFrames.new_ndit_sky].
  repeat (split; [done |]). split; [|split; [done | split; [done | split; [done |]]]].
  - destruct (FirstFrames.fast_reduction dd).
    + injection Hfl as <- <-. by injection Hfl_sky as <-.
    + apply bind_Ok in Hfl as (fluxes & Hfluxes & [= <- <-]).
      apply check_range_Ok in Hchk2. rewrite Z2Nat.id in Hchk2 by done.
      done.
  - intros Hplot. rewrite Hplot in Hchk_sky.
    by apply traverse_check_range in Hchk_sky.
Qed.

(** ** Frame counts after [first_frames_removal] *)

Lemma zip3_lookup {A B C} (la : list A) (lb : list B) (lc : list C) i x :
  zip (zip la lb) lc !! i = Some x ->
  la !! i = Some x.1.1 /\ lb !! i = Some x.1.2 /\ lc !! i = Some x.2.
Proof.
  intros H. apply lookup_zip_with_Some in H as (ab & c & -> & Hab & Hc).
  apply lookup_zip_with_Some in Hab as (a & b & -> & Ha & Hb). done.
Qed.

Lemma zip3_length {A B C} (la : list A) (lb : list B) (lc : list C) :
  length lb = length la -> length lc = length la ->
  length (zip (zip la lb) lc) = length la.
Proof. intros Hb Hc. rewrite !length_zip_with. lia. Qed.

Lemma traverse_length {A B} (f : A -> result B) l r :
  FirstFrames.traverse f l = Ok r -> length r = length l.
Proof. intros H. apply traverse_Forall2 in H. symmetry. by eapply Forall2_length. Qed.

Lemma sky_rows_length annulus_flux np_std dd plot sci sky out
    tf tfs nsci nsky msci msky :
  stage_completed annulus_flux np_std dd plot sci sky out tf tfs nsci nsky msci msky ->
  length tfs = length sky /\
  forall i row, tfs !! i = Some row ->
    length row = Z.to_nat (FirstFrames.new_ndit_sky out).
Proof.
  intros (_ & _ & _ & _ & _ & _ & _ & _ & _ & Hmode & _).
  destruct (FirstFrames.fast_reduction dd).
  - destruct Hmode as (_ & _ & ->). split; [by rewrite length_map |].
    intros i row Hi. apply list_lookup_fmap_Some in Hi as (? & -> & _).
    apply repeat_length.
  - destruct Hmode as (_ & _ & Hsky & _). split; [by eapply traverse_length |].
    intros i row Hi. apply traverse_Forall2 in Hsky.
    destruct (Forall2_lookup_r _ _ _ _ _ Hsky Hi) as (tmp & _ & Hm).
    by eapply measure_length.
Qed.

Lemma sci_rows_length annulus_flux np_std dd plot sci sky out
    tf tfs nsci nsky msci msky :
  stage_completed annulus_flux np_std dd plot sci sky out tf tfs nsci nsky msci msky ->
  length tf = length sci.
Proof.
  intros (_ & _ & _ & _ & _ & _ & _ & _ & _ & Hmode & _).
  destruct (FirstFrames.fast_reduction dd).
  - destruct Hmode as (-> & _). by rewrite length_map.
  - destruct Hmode as (Hsci & _). by eapply traverse_length.
Qed.

(** C1, as the program has it: when the stage completes, every science cube
    holds the nominal science count less [nfr_rm], and every sky cube holds
    the smallest measured sky count less [nfr_rm]; both counts are uniform
    over their category.  The sky count never exceeds the nominal sky count
    less [nfr_rm] and equals it whenever the plots are produced. *)
Theorem rmfr_frame_counts annulus_flux np_std dd plot sci sky out :
  FirstFrames.first_frames_removal annulus_flux np_std dd plot sci sky = Ok out ->
  exists nominal_sci nominal_sky min_ndit_sky,
    FirstFrames.py_min_list (FirstFrames.ndit_sci dd) = Ok nominal_sci /\
    FirstFrames.py_min_list (FirstFrames.ndit_sky dd) = Ok nominal_sky /\
    FirstFrames.py_min_list (real_ndit sky) = Ok min_ndit_sky /\
    length (FirstFrames.rmfr_sci out) = length sci /\
    length (FirstFrames.rmfr_sky out) = length sky /\
    Forall (fun c => Z.of_nat (length c)
                     = nominal_sci - Z.of_nat (FirstFrames.nfr_rm out))
      (FirstFrames.rmfr_sci out) /\
    Forall (fun c => Z.of_nat (length c)
                     = min_ndit_sky - Z.of_nat (FirstFrames.nfr_rm out))
      (FirstFrames.rmfr_sky out) /\
    min_ndit_sky <= nominal_sky /\
    (FirstFrames.truthy plot = true -> min_ndit_sky = nominal_sky).
Proof.
  intros H. apply first_frames_removal_Ok in H
    as (tf & tfs & nsci & nsky & msci & msky & Hc).
  destruct (sky_rows_length _ _ _ _ _ _ _ _ _ _ _ _ _ Hc) as [Htfs Hrows].
  pose proof (sci_rows_length _ _ _ _ _ _ _ _ _ _ _ _ _ Hc) as Htf.
  destruct Hc as (Hne & Hmsci & Hnsci & Hmsky & Hnsky & Hnew_sci & Hnew_sky &
                  Hpos_sci & Hpos_sky & _ & Hsci & Hchk & Hsky & Hplot).
  set (nfr := FirstFrames.nfr_rm out) in *.
  assert (Hlen_sci : length (FirstFrames.rmfr_sci out) = length sci).
  { apply Forall2_length in Hsci. rewrite <- Hsci.
    apply zip3_length; [|done]. unfold real_ndit. by rewrite !length_map. }
  assert (Hlen_sky : length (FirstFrames.rmfr_sky out) = length sky).
  { apply Forall2_length in Hsky. rewrite <- Hsky.
    apply zip3_length; [|done]. unfold real_ndit. by rewrite !length_map. }
  assert (Hcnt_sci : Forall (fun c => Z.of_nat (length c) = nsci - Z.of_nat nfr)
                       (FirstFrames.rmfr_sci out)).
  { apply Forall_lookup. intros i c Hi.
    destruct (Forall2_lookup_r _ _ _ _ _ Hsci Hi) as (x & Hx & Hcrop).
    apply zip3_lookup in Hx as (_ & Hcnt & _).
    apply list_lookup_fmap_Some in Hcnt as (r & Hcnt & _).
    apply crop_rescale_sci_Ok in Hcrop as (Hpos & Hlen & _).
    rewrite Forall_lookup in Hchk. specialize (Hchk i c Hi). cbv beta in Hchk.
    lia. }
  assert (Hsky_each : forall i c, FirstFrames.rmfr_sky out !! i = Some c ->
            Z.of_nat (length c) = msky - Z.of_nat nfr /\
            msky - Z.of_nat nfr <= FirstFrames.new_ndit_sky out).
  { intros i c Hi.
    destruct (Forall2_lookup_r _ _ _ _ _ Hsky Hi) as (x & Hx & Hcrop).
    apply zip3_lookup in Hx as (_ & Hcnt & Hrow).
    apply list_lookup_fmap_Some in Hcnt as (r & Hcnt & _).
    apply Hrows in Hrow.
    apply crop_rescale_sky_Ok in Hcrop as (Hpos & Hlen & Hbody).
    split; [lia |].
    destruct (decide (length c = 0%nat)) as [Hz | Hnz]; [lia |].
    destruct (lookup_lt_is_Some_2 c (length c - 1)) as [fr Hfr]; [lia |].
    destruct (Hbody _ _ Hfr) as (tmp_dd & f & _ & Hf & _).
    apply lookup_lt_Some in Hf. lia. }
  exists nsci, nsky, msky. repeat split; try done.
  - apply Forall_lookup. intros i c Hi. by apply Hsky_each in Hi as [? _].
  - apply py_min_list_Ok_inv in Hmsky as [Hsky_ne _].
    destruct (FirstFrames.rmfr_sky out) as [|c cs] eqn:E.
    + destruct sky; [done | discriminate].
    + destruct (Hsky_each 0%nat c eq_refl). lia.
  - intros Hp. specialize (Hplot Hp).
    apply py_min_list_Ok_inv in Hmsky as [Hsky_ne _].
    destruct (FirstFrames.rmfr_sky out) as [|c cs] eqn:E.
    + destruct sky; [done | discriminate].
    + destruct (Hsky_each 0%nat c eq_refl).
      apply Forall_cons in Hplot as [Hplot _]. lia.
Qed.

Lemma rmfr_frame_counts_witness :
  exists out,
    FirstFrames.first_frames_removal whole_frame_flux rational_std
      drifting_dict FirstFrames.PlotSave [drifting_cube] [drifting_cube] = Ok out /\
    length (FirstFrames.rmfr_sci out) = 1%nat.
Proof.
  eexists. split; [vm_compute; reflexivity |].
  destruct (rmfr_frame_counts whole_frame_flux rational_std drifting_dict
              FirstFrames.PlotSave [drifting_cube] [drifting_cube] _
              ltac:(vm_compute; reflexivity))
    as (? & ? & ? & _ & _ & _ & Hlen & _).
  exact Hlen.
Defined.

(** C1, as the specification has it, fails: in a fast reduction without
    plots, a sky cube one frame short of the nominal count comes out with two
    frames although the nominal count less [nfr_rm] is three. *)
Lemma sky_count_differs_from_nominal :
  exists out,
    FirstFrames.first_frames_removal whole_frame_flux rational_std
      short_sky_dict FirstFrames.PlotNone [short_sky_cube] [short_sky_cube]
    = Ok out /\
    FirstFrames.nfr_rm out = 0%nat /\
    map length (FirstFrames.rmfr_sky out) = [2%nat] /\
    FirstFrames.new_ndit_sky out = 3 /\
    ~ counts_as_claimed short_sky_dict out.
Proof.
  eexists. split; [vm_compute; reflexivity |].
  repeat split.
  intros (nsci & nsky & _ & Hnsky & _ & Hsky).
  injection Hnsky as <-. apply Forall_cons in Hsky as [Hsky _].
  vm_compute in Hsky. discriminate.
Qed.

(** ** Flux rescaling in [first_frames_removal] *)

Lemma insert_sorted_length (x : Q) (l : list Q) :
  length (Np.insert_sorted x l) = S (length l).
Proof.
  induction l as [|y l IH]; simpl; [done |].
  destruct (Qle_bool x y); simpl; by rewrite ?IH.
Qed.

Lemma np_sort_length (l : list Q) : length (Np.np_sort l) = length l.
Proof.
  induction l as [|x l IH]; simpl; [done |].
  by rewrite insert_sorted_length, IH.
Qed.

Lemma np_median_nonempty (l : list Q) :
  l <> [] -> exists m, Np.np_median l = Some m.
Proof.
  intros Hne. unfold Np.np_median.
  destruct (length l) as [|n] eqn:Hlen; [by destruct l |].
  rewrite <- Hlen. clear n Hlen.
  assert (Hpos : (0 < length l)%nat) by (destruct l; [done | simpl; lia]).
  pose proof (Nat.div_lt (length l) 2 Hpos ltac:(lia)) as Hhalf.
  destruct (Nat.even (length l)).
  - destruct (lookup_lt_is_Some_2 (Np.np_sort l) (length l / 2 - 1)) as [a ->];
      [rewrite np_sort_length; lia |].
    destruct (lookup_lt_is_Some_2 (Np.np_sort l) (length l / 2)) as [b ->];
      [rewrite np_sort_length; lia |].
    by eexists.
  - destruct (lookup_lt_is_Some_2 (Np.np_sort l) (length l / 2)) as [b ->];
      [rewrite np_sort_length; lia |].
    by eexists.
Qed.

Lemma np_sort_ones (n : nat) : Np.np_sort (repeat 1%Q n) = repeat 1%Q n.
Proof.
  induction n as [|n IH]; [done |].
  change (Np.np_sort (repeat 1%Q (S n)))
    with (Np.insert_sorted 1%Q (Np.np_sort (repeat 1%Q n))).
  rewrite IH. by destruct n.
Qed.

Lemma lookup_repeat {A} (x y : A) (n i : nat) :
  repeat x n !! i = Some y -> y = x.
Proof.
  intros H. apply (repeat_spec n x y). apply list_elem_of_In.
  by eapply list_elem_of_lookup_2.
Qed.

Lemma np_median_ones (n : nat) (m : Q) :
  Np.np_median (repeat 1%Q n) = Some m -> (m == 1)%Q.
Proof.
  unfold Np.np_median. rewrite np_sort_ones, repeat_length.
  destruct n as [|n]; [done |].
  destruct (Nat.even (S n)).
  - destruct (repeat 1%Q (S n) !! (S n / 2 - 1)%nat) as [a|] eqn:Ha; [|done].
    destruct (repeat 1%Q (S n) !! (S n / 2)%nat) as [b|] eqn:Hb; [|done].
    apply lookup_repeat in Ha as ->. apply lookup_repeat in Hb as ->.
    by intros [= <-].
  - intros H. by apply lookup_repeat in H as ->.
Qed.

Lemma measure_take (annulus_flux : FirstFrames.frame -> Q) tmp n row :
  FirstFrames.measure annulus_flux tmp 0 n = Ok row ->
  row = map annulus_flux (take n tmp).
Proof.
  intros H. apply traverse_seq_lookup in H as [Hlen Hbody].
  apply list_eq. intros i.
  destruct (row !! i) as [f|] eqn:Hf.
  - specialize (Hbody i f Hf). cbn in Hbody.
    apply bind_Ok in Hbody as (fr & Hfr & [= <-]). apply index_nat_Ok in Hfr.
    apply lookup_lt_Some in Hf. symmetry.
    apply list_lookup_fmap_Some. exists fr. split; [done |].
    rewrite lookup_take_lt by lia. done.
  - symmetry. apply lookup_ge_None. apply lookup_ge_None in Hf.
    rewrite length_map, length_take. lia.
Qed.

Lemma rescale_at_reference (tmp_dd : FirstFrames.frame) (m f : Q) :
  (f == m)%Q -> ~ (m == 0)%Q ->
  same_frame tmp_dd (FirstFrames.rescale tmp_dd (Some m) f).
Proof.
  intros Hfm Hm. unfold same_frame, FirstFrames.rescale.
  apply Forall2_fmap_r, Forall_Forall2_diag, Forall_forall. intros p _.
  unfold FirstFrames.fdiv.
  destruct (Qeq_bool f 0) eqn:E.
  - apply Qeq_bool_eq in E. rewrite Hfm in E. contradiction.
  - eexists. split; [done |]. rewrite Hfm. field. exact Hm.
Qed.

(** What the science loop writes: when the stage completes, every retained
    frame of a science cube (index [nfr_rm + i] of the input) is written as
    that frame times [m / f], where [f] is the frame's own entry in the
    cube's flux row and [m] is the median of that whole row.  In a full
    reduction the row holds the annular fluxes of the cube's first
    [min_ndit_sci] frames, the trimmed ones included; in a fast reduction it
    holds ones, so [m] and [f] are 1. *)
Lemma sci_frames_rescaled annulus_flux np_std dd plot sci sky out :
  FirstFrames.first_frames_removal annulus_flux np_std dd plot sci sky = Ok out ->
  exists min_ndit_sci,
    FirstFrames.py_min_list (real_ndit sci) = Ok min_ndit_sci /\
    forall sc (tmp : FirstFrames.cube) (c : FirstFrames.scaled_cube),
      sci !! sc = Some tmp -> FirstFrames.rmfr_sci out !! sc = Some c ->
      exists row,
        row = (if FirstFrames.fast_reduction dd
               then repeat 1%Q (Z.to_nat min_ndit_sci)
               else map annulus_flux (take (Z.to_nat min_ndit_sci) tmp)) /\
        forall i out_fr, c !! i = Some out_fr ->
          exists tmp_dd f m,
            tmp !! (FirstFrames.nfr_rm out + i)%nat = Some tmp_dd /\
            row !! (FirstFrames.nfr_rm out + i)%nat = Some f /\
            Np.np_median row = Some m /\
            out_fr = map (fun p => FirstFrames.fdiv (p * m) f) tmp_dd /\
            (if FirstFrames.fast_reduction dd
             then f = 1%Q /\ (m == 1)%Q
             else f = annulus_flux tmp_dd) /\
            ((f == m)%Q -> ~ (m == 0)%Q -> same_frame tmp_dd out_fr).
Proof.
  intros H. apply first_frames_removal_Ok in H
    as (tf & tfs & nsci & nsky & msci & msky & Hc).
  destruct Hc as (Hne & Hmsci & _ & _ & _ & _ & _ & _ & _ & Hmode & Hsci & _).
  set (nfr := FirstFrames.nfr_rm out) in *.
  exists msci. split; [done |]. intros sc tmp c Htmp Hcsc.
  destruct (Forall2_lookup_r _ _ _ _ _ Hsci Hcsc) as (x & Hx & Hcrop).
  apply zip3_lookup in Hx as (Hx1 & _ & Hrow).
  assert (Hx1' : Some x.1.1 = Some tmp) by exact (eq_trans (eq_sym Hx1) Htmp).
  clear Hx1. injection Hx1' as Hx1.
  apply crop_rescale_sci_Ok in Hcrop as (_ & _ & Hbody). rewrite Hx1 in Hbody.
  set (row := x.2) in *. exists row.
  assert (Hrow_eq : row = (if FirstFrames.fast_reduction dd
               then repeat 1%Q (Z.to_nat msci)
               else map annulus_flux (take (Z.to_nat msci) tmp))).
  { destruct (FirstFrames.fast_reduction dd).
    - destruct Hmode as (-> & _).
      by apply list_lookup_fmap_Some in Hrow as (? & -> & _).
    - destruct Hmode as (Htf & _). apply traverse_Forall2 in Htf.
      destruct (Forall2_lookup_r _ _ _ _ _ Htf Hrow) as (tmp' & Htmp' & Hm).
      assert (Some tmp' = Some tmp) as [= ->]
        by exact (eq_trans (eq_sym Htmp') Htmp).
      by apply measure_take. }
  split; [done |]. intros i out_fr Hi.
  destruct (Hbody i out_fr Hi) as (tmp_dd & f & Hdd & Hf & ->).
  destruct (np_median_nonempty row) as [m Hm]; [intros E; by rewrite E in Hf |].
  exists tmp_dd, f, m. rewrite Hm. repeat split; try done.
  - destruct (FirstFrames.fast_reduction dd).
    + rewrite Hrow_eq in Hf, Hm. split; [by eapply lookup_repeat |].
      by eapply np_median_ones.
    + rewrite Hrow_eq in Hf.
      apply list_lookup_fmap_Some in Hf as (fr & -> & Hfr).
      apply lookup_take_Some in Hfr as [Hfr _].
      assert (Some fr = Some tmp_dd) as [= ->]
        by exact (eq_trans (eq_sym Hfr) Hdd).
      done.
  - intros Hfm Hm0. by apply rescale_at_reference.
Qed.

(** C4 on a full reduction of a cube with annular fluxes 1, 18, 21, 22: the
    loop trims one frame; the retained fluxes 18, 21, 22 have median 21, yet
    the retained frame of flux 21 is not written back unchanged, because the
    science loop scales by the median 39/2 of all four fluxes, the trimmed
    frame included, where the sky loop slices the row from [nfr_rm] on.  The
    standard deviation used, 17/2, is the exact one. *)
Lemma retained_median_frame_changed :
  exists out c out_fr,
    FirstFrames.first_frames_removal whole_frame_flux rational_std
      drifting_dict FirstFrames.PlotSave [drifting_cube] [drifting_cube] = Ok out /\
    FirstFrames.nfr_rm out = 1%nat /\
    (rational_std [1; 18; 21; 22] * rational_std [1; 18; 21; 22]
     == variance [1; 18; 21; 22])%Q /\
    FirstFrames.rmfr_sci out !! 0%nat = Some c /\
    length c = 3%nat /\
    c !! 1%nat = Some out_fr /\
    drifting_cube !! 2%nat = Some [11; 10]%Q /\
    retained_median whole_frame_flux 1 3 drifting_cube
    = Some (whole_frame_flux [11; 10]%Q) /\
    ~ same_frame [11; 10]%Q out_fr.
Proof.
  do 3 eexists. split; [vm_compute; reflexivity |].
  repeat split.
  intros Hsame. apply Forall2_cons_1 in Hsame as [(q & [= <-] & Hq) _].
  vm_compute in Hq. discriminate.
Qed.

(** ** The frame-indices flagged by [first_frames_removal] *)

Lemma list_lookup_map {A B} (f : A -> B) (l : list A) (i : nat) :
  map f l !! i = f <$> l !! i.
Proof. exact (list_lookup_fmap f l i). Qed.

(** Entry [ii] of [np.median(tmp_fluxes, axis=0)] is the median over the
    science cubes of the annular flux of their frame [ii]. *)
Lemma median_axis0_across_cubes (annulus_flux : FirstFrames.frame -> Q)
    (sci : list FirstFrames.cube) (ncols : nat) (tmp_fluxes : list (list Q))
    (ii : nat) (x : Q) :
  sci <> [] ->
  FirstFrames.traverse
    (fun tmp => FirstFrames.measure annulus_flux tmp 0 ncols) sci
  = Ok tmp_fluxes ->
  FirstFrames.median_axis0 tmp_fluxes ncols !! ii = Some x ->
  across_cube_median annulus_flux sci ii = Some x.
Proof.
  intros Hne Hm Hx. unfold FirstFrames.median_axis0 in Hx.
  rewrite list_lookup_map in Hx.
  destruct (seq 0 ncols !! ii) as [ii'|] eqn:Hii; [|done].
  apply lookup_seq in Hii as [-> Hlt]. cbn in Hx. injection Hx as <-.
  unfold across_cube_median.
  assert (Hcol : map (fun row => nth ii row 0%Q) tmp_fluxes
                 = omap (fun tmp => annulus_flux <$> tmp !! ii) sci).
  { apply traverse_Forall2 in Hm. clear Hne.
    induction Hm as [|tmp row sci' tf' Hrow _ IH]; [done |].
    pose proof (measure_length _ _ _ _ _ Hrow) as Hlen.
    apply measure_take in Hrow. cbn [map].
    assert (Hf : exists f, tmp !! ii = Some f /\ row !! ii = Some (annulus_flux f)).
    { destruct (lookup_lt_is_Some_2 row ii) as [v Hv]; [lia |].
      rewrite Hrow in Hv. apply list_lookup_fmap_Some in Hv as (f & -> & Hf).
      apply lookup_take_Some in Hf as [Hf _]. exists f. split; [done |].
      rewrite Hrow. apply list_lookup_fmap_Some. exists f. split; [done |].
      by rewrite lookup_take_lt by lia. }
    destruct Hf as (f & Hf & Hr).
    change (omap (fun tmp0 => annulus_flux <$> tmp0 !! ii) (tmp :: sci'))
      with (match annulus_flux <$> tmp !! ii with
            | Some y => y :: omap (fun tmp0 => annulus_flux <$> tmp0 !! ii) sci'
            | None => omap (fun tmp0 => annulus_flux <$> tmp0 !! ii) sci'
            end).
    rewrite Hf. cbn [fmap option_fmap option_map]. rewrite <- IH. f_equal.
    by apply nth_lookup_Some with (d := 0%Q) in Hr. }
  rewrite Hcol.
  destruct (np_median_nonempty (omap (fun tmp => annulus_flux <$> tmp !! ii) sci))
    as [m ->]; [|done].
  rewrite <- Hcol. destruct tmp_fluxes; [|done].
  apply traverse_length in Hm. destruct sci; [done | discriminate].
Qed.

(** C3: in a full reduction that completes, the list the flagging loop
    works on holds, for each frame-index below the shortest science cube's
    frame count, the median over the science cubes of the annular flux of
    that frame; a frame-index is flagged exactly when it is index 0 or this
    median differs from the median of the list by more than twice its
    standard deviation; [nfr_rm] is the first unflagged frame-index, capped
    at 10, so it never exceeds 10. *)
Theorem nfr_rm_first_unflagged_capped annulus_flux np_std dd plot sci sky out :
  FirstFrames.fast_reduction dd = false ->
  FirstFrames.first_frames_removal annulus_flux np_std dd plot sci sky = Ok out ->
  exists (min_ndit_sci : Z) (tmp_flux_med : list Q) (med_flux : Q),
    FirstFrames.py_min_list (real_ndit sci) = Ok min_ndit_sci /\
    length tmp_flux_med = Z.to_nat min_ndit_sci /\
    (forall ii x, tmp_flux_med !! ii = Some x ->
                  across_cube_median annulus_flux sci ii = Some x) /\
    Np.np_median tmp_flux_med = Some med_flux /\
    let std_flux := np_std tmp_flux_med in
    (forall ii x,
       FirstFrames.flagged x med_flux std_flux ii = true <->
       ii = 0%nat \/ (2 * std_flux < Qabs (x - med_flux))%Q) /\
    (FirstFrames.nfr_rm out <= 10)%nat /\
    exists i x,
      tmp_flux_med !! i = Some x /\
      FirstFrames.flagged x med_flux std_flux i = false /\
      (forall j y, (j < i)%nat -> tmp_flux_med !! j = Some y ->
                   FirstFrames.flagged y med_flux std_flux j = true) /\
      FirstFrames.nfr_rm out = (i `min` 10)%nat.
Proof.
  intros Hfast H. apply first_frames_removal_Ok in H
    as (tf & tfs & nsci & nsky & msci & msky & Hc).
  destruct Hc as (Hne & Hmsci & _ & _ & _ & _ & _ & _ & _ & Hmode & _).
  rewrite Hfast in Hmode. destruct Hmode as (Htf & Hnfr & _).
  set (tmp_flux_med := FirstFrames.median_axis0 tf (Z.to_nat msci)) in *.
  pose proof (find_nfr_rm_first_unflagged np_std tmp_flux_med) as [Hflag Hloop].
  rewrite Hnfr in Hloop.
  destruct Hloop as (Hcap & med & i & x & Hmed & Hi & Hgood & Hbefore & Hmin).
  exists msci, tmp_flux_med, med. split; [done |]. split.
  { unfold tmp_flux_med, FirstFrames.median_axis0.
    by rewrite length_map, length_seq. }
  split.
  { intros ii y Hy. by eapply median_axis0_across_cubes. }
  split; [done |]. cbv zeta. split; [by intros ii y |]. split; [done |].
  by exists i, x.
Qed.

Lemma nfr_rm_first_unflagged_capped_witness :
  exists out,
    FirstFrames.first_frames_removal whole_frame_flux rational_std
      drifting_dict FirstFrames.PlotSave [drifting_cube] [drifting_cube] = Ok out /\
    (FirstFrames.nfr_rm out <= 10)%nat.
Proof.
  eexists.
  destruct (nfr_rm_first_unflagged_capped whole_frame_flux rational_std
              drifting_dict FirstFrames.PlotSave [drifting_cube] [drifting_cube] _
              eq_refl ltac:(vm_compute; reflexivity))
    as (m & l & med & _ & _ & _ & _ & _ & Hcap & _).
  split; [reflexivity | exact Hcap].
Defined.

(** ** Dust specks kept for alignment *)

(** The test a detection passes to enter [dust_xy_tmp]. *)
Lemma select_step_tmp (cy cx fwhm : Q) acc (row : DustSpecks.detection_row) p :
  p ∈ (DustSpecks.select_step cy cx fwhm acc row).2 <->
  p ∈ acc.2 \/
  (p = (DustSpecks.det_x row, DustSpecks.det_y row) /\
   exists snr, DustSpecks.px_snr row = Some snr /\
     (3 * fwhm < Qabs (DustSpecks.det_y row - cy))%Q /\
     (3 * fwhm < Qabs (DustSpecks.det_x row - cx))%Q /\
     ((cy < DustSpecks.det_y row)%Q \/ (cx < DustSpecks.det_x row)%Q) /\
     (DustSpecks.snr_thr < snr)%Q).
Proof.
  destruct acc as [all tmp]. unfold DustSpecks.select_step.
  destruct (DustSpecks.px_snr row) as [snr|]; cbn [snd].
  2: { split; [by left | intros [H | (_ & ? & ? & _)]; done]. }
  destruct (Np.Qltb (3 * fwhm) (Qabs (DustSpecks.det_y row - cy))) eqn:Ey;
  destruct (Np.Qltb (3 * fwhm) (Qabs (DustSpecks.det_x row - cx))) eqn:Ex;
  cbn [andb snd].
  2-4: split; [by left | intros [H | (_ & s & _ & Hy & Hx & _)]; [done |]];
       apply Qltb_lt in Hy, Hx; congruence.
  apply Qltb_lt in Ey, Ex.
  destruct ((Np.Qltb cy (DustSpecks.det_y row) || Np.Qltb cx (DustSpecks.det_x row))
            && Np.Qltb DustSpecks.snr_thr snr) eqn:E; cbn [snd].
  - apply andb_true_iff in E as [Eq Es]. apply orb_true_iff in Eq.
    rewrite !Qltb_lt in Eq. apply Qltb_lt in Es.
    rewrite elem_of_app, list_elem_of_singleton. split.
    + intros [H | ->]; [by left | right]. split; [done |]. by exists snr.
    + intros [H | [-> _]]; [by left | by right].
  - split; [by left | intros [H | (_ & s & [= <-] & _ & _ & Hq & Hs)]; [done |]].
    apply andb_false_iff in E as [E | E].
    + apply orb_false_iff in E as [E1 E2]. apply Qltb_ge in E1, E2.
      destruct Hq as [Hq | Hq]; [by apply Qlt_not_le in Hq | by apply Qlt_not_le in Hq].
    + apply Qltb_ge in E. by apply Qlt_not_le in Hs.
Qed.

Lemma select_dust_tmp (table_det : list DustSpecks.detection_row)
    (cy cx fwhm : Q) p :
  p ∈ (DustSpecks.select_dust table_det cy cx fwhm).2 <->
  exists row snr,
    row ∈ table_det /\
    p = (DustSpecks.det_x row, DustSpecks.det_y row) /\
    DustSpecks.px_snr row = Some snr /\
    (3 * fwhm < Qabs (DustSpecks.det_y row - cy))%Q /\
    (3 * fwhm < Qabs (DustSpecks.det_x row - cx))%Q /\
    ((cy < DustSpecks.det_y row)%Q \/ (cx < DustSpecks.det_x row)%Q) /\
    (DustSpecks.snr_thr < snr)%Q.
Proof.
  unfold DustSpecks.select_dust.
  assert (G : forall acc,
    p ∈ (foldl (DustSpecks.select_step cy cx fwhm) acc table_det).2 <->
    p ∈ acc.2 \/
    exists row snr,
      row ∈ table_det /\
      p = (DustSpecks.det_x row, DustSpecks.det_y row) /\
      DustSpecks.px_snr row = Some snr /\
      (3 * fwhm < Qabs (DustSpecks.det_y row - cy))%Q /\
      (3 * fwhm < Qabs (DustSpecks.det_x row - cx))%Q /\
      ((cy < DustSpecks.det_y row)%Q \/ (cx < DustSpecks.det_x row)%Q) /\
      (DustSpecks.snr_thr < snr)%Q).
  { induction table_det as [|row rows IH]; intros acc; simpl.
    - split; [by left | intros [H | (row & ? & Hin & _)]; [done |]].
      by apply elem_of_nil in Hin.
    - rewrite IH, select_step_tmp. split.
      + intros [[H | (-> & snr & Hs)] | (r & snr & Hin & Hr)].
        * by left.
        * right. exists row, snr. split; [apply list_elem_of_here | done].
        * right. exists r, snr. split; [by apply list_elem_of_further | done].
      + intros [H | (r & snr & Hin & Hp & Hs)]; [by left; left |].
        apply elem_of_cons in Hin as [-> | Hin].
        * left; right. split; [done |]. by exists snr.
        * right. by exists r, snr. }
  rewrite G. cbn [snd]. split; [intros [H | H]; [by apply elem_of_nil in H | done] |].
  by right.
Qed.

Lemma find_bad_dust_Ok {image} (fit : image -> Q * Q -> Z -> DustSpecks.fit_call ->
                                  result DustSpecks.gauss_fit)
    (tmp : image) (crop_sz : Z) (dust_xy_tmp : list (Q * Q)) (bad_dust : list nat) :
  DustSpecks.find_bad_dust image fit tmp crop_sz dust_xy_tmp = Ok bad_dust ->
  forall dd xy, dust_xy_tmp !! dd = Some xy ->
    exists g, fit tmp xy crop_sz DustSpecks.FitReference = Ok g /\
              (dd ∈ bad_dust <-> DustSpecks.non_circular g = true).
Proof.
  unfold DustSpecks.find_bad_dust.
  assert (G : forall l i acc bad,
    DustSpecks.for_each
      (fun dd xy bad_dust =>
         table_gaus ← fit tmp xy crop_sz DustSpecks.FitReference;
         if DustSpecks.non_circular table_gaus then Ok (bad_dust ++ [dd])
         else Ok bad_dust) i l acc = Ok bad ->
    (forall k, k ∈ acc -> (k < i)%nat) ->
    (forall k, k ∈ acc -> k ∈ bad) /\
    (forall k, k ∈ bad -> (k < i)%nat -> k ∈ acc) /\
    forall j xy, l !! j = Some xy ->
      exists g, fit tmp xy crop_sz DustSpecks.FitReference = Ok g /\
                ((i + j)%nat ∈ bad <-> DustSpecks.non_circular g = true)).
  { induction l as [|xy l IH]; intros i acc bad H Hacc; simpl in H.
    - injection H as <-. by repeat split.
    - apply bind_Ok in H as (acc' & Hbody & H).
      apply bind_Ok in Hbody as (g & Hg & Hbody).
      assert (Hacc' : forall k, k ∈ acc' -> (k < S i)%nat).
      { intros k Hk. destruct (DustSpecks.non_circular g); injection Hbody as <-.
        - apply elem_of_app in Hk as [Hk | Hk]; [apply Hacc in Hk; lia |].
          apply list_elem_of_singleton in Hk. lia.
        - apply Hacc in Hk. lia. }
      destruct (IH _ _ _ H Hacc') as (Hsub & Hback & Hrest).
      repeat split.
      + intros k Hk. apply Hsub.
        destruct (DustSpecks.non_circular g); injection Hbody as <-; [|done].
        apply elem_of_app. by left.
      + intros k Hk Hlt. assert (Hk' : k ∈ acc') by (apply Hback; [done | lia]).
        destruct (DustSpecks.non_circular g); injection Hbody as <-; [|done].
        apply elem_of_app in Hk' as [Hk' | Hk']; [done |].
        apply list_elem_of_singleton in Hk'. lia.
      + intros [|j] xy' Hj; simpl in Hj.
        * injection Hj as <-. exists g. split; [done |]. rewrite Nat.add_0_r.
          destruct (DustSpecks.non_circular g) eqn:E; injection Hbody as <-.
          -- split; [done | intros _]. apply Hsub, elem_of_app. right.
             apply list_elem_of_singleton. done.
          -- split; [|done]. intros Hi.
             assert (Hi' : i ∈ acc) by (apply Hback; [done | lia]).
             apply Hacc in Hi'. lia.
        * destruct (Hrest j xy' Hj) as (g' & Hg' & Hiff). exists g'.
          split; [done |]. by rewrite <- Nat.add_succ_comm. }
  intros H dd xy Hdd.
  destruct (G _ _ _ _ H) as (_ & _ & Hall); [intros k Hk; by apply elem_of_nil in Hk |].
  exact (Hall dd xy Hdd).
Qed.

Lemma drop_bad_elem (dust_xy_tmp : list (Q * Q)) (bad_dust : list nat) p :
  p ∈ DustSpecks.drop_bad dust_xy_tmp bad_dust <->
  exists i, dust_xy_tmp !! i = Some p /\ i ∉ bad_dust.
Proof.
  unfold DustSpecks.drop_bad. rewrite list_elem_of_fmap. split.
  - intros ([i q] & -> & Hin). apply list_elem_of_filter in Hin as [Hnot Hin].
    apply elem_of_lookup_imap in Hin as (j & y & [= -> ->] & Hj).
    by exists j.
  - intros (i & Hi & Hnot). exists (i, p). split; [done |].
    apply list_elem_of_filter. split; [done |].
    apply elem_of_lookup_imap. by exists i, p.
Qed.

(** ** [np.sort] and [np.median] *)

Lemma insert_sorted_perm (x : Q) (l : list Q) : Np.insert_sorted x l ≡ₚ x :: l.
Proof.
  induction l as [|y l IH]; simpl; [done |].
  destruct (Qle_bool x y); [done |]. rewrite IH. apply Permutation_swap.
Qed.

Lemma np_sort_perm (l : list Q) : Np.np_sort l ≡ₚ l.
Proof.
  induction l as [|x l IH]; simpl; [done |].
  by rewrite insert_sorted_perm, IH.
Qed.

Lemma insert_sorted_sorted (x : Q) (l : list Q) :
  StronglySorted Qle l -> StronglySorted Qle (Np.insert_sorted x l).
Proof.
  induction 1 as [|y l Hs IH Hy]; simpl; [repeat constructor |].
  destruct (Qle_bool x y) eqn:E.
  - apply Qle_bool_iff in E. constructor; [by constructor |].
    constructor; [done |]. eapply Forall_impl; [exact Hy |].
    intros z Hz. by eapply Qle_trans.
  - constructor; [done |]. rewrite insert_sorted_perm. constructor; [|done].
    apply Qlt_le_weak, Qltb_lt. unfold Np.Qltb. by rewrite E.
Qed.

Lemma np_sort_sorted (l : list Q) : StronglySorted Qle (Np.np_sort l).
Proof.
  induction l as [|x l IH]; simpl; [constructor | by apply insert_sorted_sorted].
Qed.

Lemma sorted_lookup_le (s : list Q) (i j : nat) (a b : Q) :
  StronglySorted Qle s -> (i <= j)%nat ->
  s !! i = Some a -> s !! j = Some b -> (a <= b)%Q.
Proof.
  intros Hs. revert i j a b.
  induction Hs as [|x s Hs IH Hx]; intros i j a b Hij Hi Hj.
  - by rewrite lookup_nil in Hi.
  - destruct i as [|i], j as [|j]; simpl in *.
    + injection Hi as <-. injection Hj as <-. apply Qle_refl.
    + injection Hi as <-. rewrite Forall_forall in Hx. apply Hx.
      by eapply list_elem_of_lookup_2.
    + lia.
    + eapply (IH i j); [lia | done..].
Qed.

Lemma np_median_odd (l : list Q) :
  Nat.odd (length l) = true ->
  Np.np_median l = Np.np_sort l !! (length l / 2)%nat.
Proof.
  intros Hodd. unfold Np.np_median.
  destruct (length l) as [|n] eqn:E; [done |].
  rewrite <- Nat.negb_odd, Hodd. done.
Qed.



(** ** Arrays: shapes under [setitem] and [np.median(axis=0)] *)






Section DustFacts.

Variable image : Type.
Variable frame_filter_highpass : image -> image.
Variable fit_2dgaussian :
  image -> Q * Q -> Z -> DustSpecks.fit_call -> result DustSpecks.gauss_fit.
Variable cube_median : list image -> image.
Variable frame_shift : image -> option Q -> option Q -> image.

Let align_on_dust :=
  DustSpecks.align_on_dust image frame_filter_highpass fit_2dgaussian
    cube_median frame_shift.
Let track := DustSpecks.track image frame_filter_highpass fit_2dgaussian.
Let shift_cube := DustSpecks.shift_cube image frame_shift.

Lemma align_on_dust_Ok tmp table_det cy cx fwhm resel_ori sci sky n_sci n_sky al :
  align_on_dust tmp table_det cy cx fwhm resel_ori sci sky n_sci n_sky = Ok al ->
  exists bad_dust xy_cube0,
    DustSpecks.find_bad_dust image fit_2dgaussian tmp (reference_crop_sz resel_ori)
      (DustSpecks.select_dust table_det cy cx fwhm).2 = Ok bad_dust /\
    DustSpecks.dust_xy image al
    = DustSpecks.drop_bad (DustSpecks.select_dust table_det cy cx fwhm).2 bad_dust /\
    DustSpecks.dust_xy_all image al
    = (DustSpecks.select_dust table_det cy cx fwhm).1 /\
    track (DustSpecks.dust_xy image al) xy_cube0 (frame_crop_sz resel_ori) sci n_sci
    = Ok (DustSpecks.shifts_xy_sci image al) /\
    track (DustSpecks.dust_xy image al) xy_cube0 (frame_crop_sz resel_ori) sky n_sky
    = Ok (DustSpecks.shifts_xy_sky image al) /\
    DustSpecks.np_median_axis0 (DustSpecks.shifts_xy_sci image al)
    = Ok (DustSpecks.shifts_xy_sci_med image al) /\
    DustSpecks.np_median_axis0 (DustSpecks.shifts_xy_sky image al)
    = Ok (DustSpecks.shifts_xy_sky_med image al) /\
    DustSpecks.aligned_sci image al
    = imap (fun sc c => DustSpecks.swallow
                          (shift_cube (DustSpecks.shifts_xy_sci_med image al) sc c))
           sci /\
    FirstFrames.traverse
      (fun '(sk, c) => shift_cube (DustSpecks.shifts_xy_sky_med image al) sk c)
      (imap pair sky)
    = Ok (DustSpecks.aligned_sky image al).
Proof.
  unfold align_on_dust, DustSpecks.align_on_dust. intros H.
  destruct (DustSpecks.select_dust table_det cy cx fwhm) as [all tmp_l] eqn:Esel.
  apply bind_Ok in H as (bad & Hbad & H).
  apply bind_Ok in H as (cube0 & Hcube0 & H).
  apply bind_Ok in H as (xy0 & Hxy0 & H).
  apply bind_Ok in H as (ssci & Hssci & H).
  apply bind_Ok in H as (ssky & Hssky & H).
  apply bind_Ok in H as (msci & Hmsci & H).
  apply bind_Ok in H as (msky & Hmsky & H).
  apply bind_Ok in H as (asky & Hasky & H).
  injection H as <-. exists bad, xy0. cbn. by repeat split.
Qed.

(** C5: every speck kept for alignment comes from a detection whose SNR
    exceeds the alignment threshold, which lies more than 3 FWHM from the
    centre along both axes (hence, for a non-negative FWHM, more than 3 FWHM
    away), which is outside the lower-left quadrant, and whose reference fit
    has fwhm_y / fwhm_x within [0.8, 1.2]; a candidate whose fit leaves that
    interval is not kept. *)
Theorem retained_dust_invariant
    tmp table_det cy cx fwhm resel_ori sci sky n_sci n_sky al :
  align_on_dust tmp table_det cy cx fwhm resel_ori sci sky n_sci n_sky = Ok al ->
  (forall p, p ∈ DustSpecks.dust_xy image al ->
     exists row snr g,
       row ∈ table_det /\
       p = (DustSpecks.det_x row, DustSpecks.det_y row) /\
       DustSpecks.px_snr row = Some snr /\
       (DustSpecks.snr_thr < snr)%Q /\
       (3 * fwhm < Qabs (DustSpecks.det_y row - cy))%Q /\
       (3 * fwhm < Qabs (DustSpecks.det_x row - cx))%Q /\
       ((0 <= fwhm)%Q ->
        ((3 * fwhm) * (3 * fwhm)
         < (DustSpecks.det_x row - cx) * (DustSpecks.det_x row - cx)
           + (DustSpecks.det_y row - cy) * (DustSpecks.det_y row - cy))%Q) /\
       ((cy < DustSpecks.det_y row)%Q \/ (cx < DustSpecks.det_x row)%Q) /\
       fit_2dgaussian tmp p (reference_crop_sz resel_ori) DustSpecks.FitReference
       = Ok g /\
       (8 # 10 <= DustSpecks.fit_fwhm_y g / DustSpecks.fit_fwhm_x g)%Q /\
       (DustSpecks.fit_fwhm_y g / DustSpecks.fit_fwhm_x g <= 12 # 10)%Q) /\
  (forall p g,
     p ∈ (DustSpecks.select_dust table_det cy cx fwhm).2 ->
     fit_2dgaussian tmp p (reference_crop_sz resel_ori) DustSpecks.FitReference
     = Ok g ->
     (DustSpecks.fit_fwhm_y g / DustSpecks.fit_fwhm_x g < 8 # 10)%Q \/
     (12 # 10 < DustSpecks.fit_fwhm_y g / DustSpecks.fit_fwhm_x g)%Q ->
     p ∉ DustSpecks.dust_xy image al).
Proof.
  intros H. apply align_on_dust_Ok in H as (bad & xy0 & Hbad & Hxy & _).
  pose proof (find_bad_dust_Ok _ _ _ _ _ Hbad) as Hfit.
  rewrite Hxy. split.
  - intros p Hp. apply drop_bad_elem in Hp as (i & Hi & Hnot).
    destruct (Hfit i p Hi) as (g & Hg & Hiff).
    assert (Hin : p ∈ (DustSpecks.select_dust table_det cy cx fwhm).2)
      by (by eapply list_elem_of_lookup_2).
    apply select_dust_tmp in Hin
      as (row & snr & Hrow & -> & Hsnr & Hy & Hx & Hq & Hs).
    exists row, snr, g. repeat split; try done.
    + intros Hf. apply Qabs_gt_cases in Hy, Hx. nra.
    + destruct (DustSpecks.non_circular g) eqn:E; [exfalso; by apply Hnot, Hiff |].
      apply orb_false_iff in E as [E _]. by apply Qltb_ge in E.
    + destruct (DustSpecks.non_circular g) eqn:E; [exfalso; by apply Hnot, Hiff |].
      apply orb_false_iff in E as [_ E]. by apply Qltb_ge in E.
  - intros p g Hp Hg Hout Hkept.
    apply drop_bad_elem in Hkept as (i & Hi & Hnot).
    destruct (Hfit i p Hi) as (g' & Hg' & Hiff).
    rewrite Hg in Hg'. injection Hg' as <-.
    apply Hnot, Hiff. unfold DustSpecks.non_circular.
    apply orb_true_iff. rewrite !Qltb_lt. exact Hout.
Qed.




End DustFacts.

Lemma retained_dust_invariant_witness :
  exists al, sample_alignment = Ok al /\
    (220, 30)%Q ∉ DustSpecks.dust_xy Q al.
Proof.
  destruct sample_alignment as [al|e] eqn:E; [|vm_compute in E; discriminate].
  exists al. split; [reflexivity |]. unfold sample_alignment in E.
  eapply (proj2 (retained_dust_invariant _ _ _ _ _ _ _ _ _ _ _ _ _ _ _ _ E)).
  - vm_compute. apply list_elem_of_further, list_elem_of_here.
  - reflexivity.
  - right. reflexivity.
Defined.


(** ** Sky subtraction, nearest-sky mode *)

(** The median mode touches three files at most: the outputs of the first,
    the middle and the last science cube. *)
Lemma median_mode_writes_three {image} (cube_median : list image -> image)
    (frame_sub : image -> image -> image) sci_list sky_list headers
    (store store' : gmap string (list image)) :
  SkySubtract.subtract_sky_median image cube_median frame_sub sci_list sky_list
    headers store = Ok store' ->
  exists first middle last,
    Np.py_index sci_list 0 = Ok first /\
    Np.py_index sci_list (Z.of_nat (length sci_list) / 2) = Ok middle /\
    Np.py_index sci_list (-1) = Ok last /\
    forall fits_name,
      fits_name <> first -> fits_name <> middle -> fits_name <> last ->
      store' !! ("4_sky_subtr_imlib_" +:+ fits_name)
      = store !! ("4_sky_subtr_imlib_" +:+ fits_name).
Proof.
  unfold SkySubtract.subtract_sky_median. intros H.
  apply bind_Ok in H as (first & Hfirst & H).
  apply bind_Ok in H as (middle & Hmiddle & H).
  apply bind_Ok in H as (last & Hlast & H).
  apply bind_Ok in H as (master & _ & H).
  exists first, middle, last. repeat split; try done.
  intros name Hn1 Hn2 Hn3. cbn [DustSpecks.for_each] in H.
  assert (Hstep : forall fits_name (s s1 : gmap string (list image)),
    (tmp ← SkySubtract.open_fits image s ("3_AGPM_aligned_imlib_" +:+ fits_name);
     sc_time ← SkySubtract.mjd_obs headers fits_name;
     idx_sky ← SkySubtract.nearest_sky master.*2 sc_time;
     sky ← Np.py_index master.*1 idx_sky;
     Ok (<["4_sky_subtr_imlib_" +:+ fits_name
           := SkySubtract.cube_minus image frame_sub tmp sky]> s)) = Ok s1 ->
    fits_name <> name ->
    s1 !! ("4_sky_subtr_imlib_" +:+ name) = s !! ("4_sky_subtr_imlib_" +:+ name)).
  { intros fits_name s s1 Hs Hne.
    apply bind_Ok in Hs as (tmp & _ & Hs). apply bind_Ok in Hs as (t & _ & Hs).
    apply bind_Ok in Hs as (idx & _ & Hs). apply bind_Ok in Hs as (sky & _ & Hs).
    injection Hs as <-. apply lookup_insert_ne. intros Heq. apply Hne.
    by apply (inj (String.append "4_sky_subtr_imlib_")) in Heq. }
  apply bind_Ok in H as (s1 & H1 & H). apply bind_Ok in H as (s2 & H2 & H).
  apply bind_Ok in H as (s3 & H3 & H). injection H as <-.
  rewrite (Hstep _ _ _ H3), (Hstep _ _ _ H2), (Hstep _ _ _ H1); done.
Qed.

(** C8 on a dataset of four science cubes: the median mode subtracts from
    the first, the middle (index 2) and the last cube the median frame of the
    sky cube nearest in time, and writes them as [4_sky_subtr_imlib_]; the
    second science cube gets no output at all, because the loop runs over
    [sci_list_test] and not over [sci_list]. *)
Theorem median_mode_skips_science_cubes :
  file_after sample_median_run "4_sky_subtr_imlib_a.fits" = Ok (Some [4; 5]%Q) /\
  file_after sample_median_run "4_sky_subtr_imlib_c.fits" = Ok (Some [7; 8]%Q) /\
  file_after sample_median_run "4_sky_subtr_imlib_d.fits" = Ok (Some [9; 10]%Q) /\
  "b.fits" ∈ sample_sci_list /\
  file_after sample_median_run "4_sky_subtr_imlib_b.fits" = Ok None.
Proof.
  repeat split; try (vm_compute; reflexivity).
  apply list_elem_of_further, list_elem_of_here.
Qed.

(** ** The rank search of the PCA mode *)

Lemma first_nan_Some (l : list (option Q)) (i k : nat) :
  SkySubtract.first_nan i l = Some k ->
  (i <= k)%nat /\ l !! (k - i)%nat = Some None.
Proof.
  revert i. induction l as [|[x|] l IH]; intros i H; simpl in H; [done | |].
  - apply IH in H as [Hle Hl]. split; [lia |].
    replace (k - i)%nat with (S (k - S i)) by lia. done.
  - injection H as <-. by rewrite Nat.sub_diag.
Qed.

Lemma first_nan_None (l : list (option Q)) (i : nat) :
  SkySubtract.first_nan i l = None -> l = Some <$> omap id l.
Proof.
  revert i. induction l as [|[x|] l IH]; intros i H; simpl in H; [done | | done].
  cbn. f_equal. by eapply IH.
Qed.

(** [np.argmin] on possibly-NaN statistics picks a NaN if there is one, and
    a smallest entry otherwise. *)
Lemma np_argmin_nan_Ok (l : list (option Q)) (i : nat) :
  SkySubtract.np_argmin_nan l = Ok i ->
  exists x, l !! i = Some x /\
    forall v, x = Some v -> forall j w, l !! j = Some (Some w) -> (v <= w)%Q.
Proof.
  unfold SkySubtract.np_argmin_nan.
  destruct (SkySubtract.first_nan 0 l) as [k|] eqn:E.
  - intros [= <-]. apply first_nan_Some in E as [_ E].
    rewrite Nat.sub_0_r in E. exists None. by split.
  - apply first_nan_None in E. set (vals := omap id l) in *.
    intros H. destruct vals as [|x vals'] eqn:Ev; [done |].
    destruct (np_argmin_first_min x vals') as (i' & v & Hi' & Hv & Hle & _).
    rewrite Hi' in H. injection H as <-. exists (Some v). split.
    + rewrite E. by rewrite list_lookup_fmap, Hv.
    + intros v' [= <-] j w Hj. rewrite E, list_lookup_fmap in Hj.
      destruct ((x :: vals') !! j) as [y|] eqn:Hy; [|done].
      injection Hj as <-. by eapply Hle.
Qed.

(** The statistic averages the upper half of the sorted scatters: the
    sorted list splits into a lower part of [n / 2] entries and the part
    that is averaged, and nothing averaged is below anything left out. *)
Lemma upper_half_of_sorted (std : list Q) :
  let std_sort := Np.np_sort std in
  let lower := take (length std / 2) std_sort in
  let upper := drop (length std / 2) std_sort in
  lower ++ upper ≡ₚ std /\
  length upper = (length std - length std / 2)%nat /\
  forall a b, a ∈ lower -> b ∈ upper -> (a <= b)%Q.
Proof.
  intros std_sort lower upper. repeat split.
  - unfold lower, upper. rewrite take_drop. apply np_sort_perm.
  - unfold upper, std_sort. by rewrite length_drop, np_sort_length.
  - intros a b Ha Hb. apply list_elem_of_lookup in Ha as [i Hi], Hb as [j Hj].
    unfold lower in Hi. unfold upper in Hj.
    apply lookup_take_Some in Hi as [Hi Hlt]. rewrite lookup_drop in Hj.
    eapply (sorted_lookup_le std_sort i (length std / 2 + j));
      [apply np_sort_sorted | lia | done..].
Qed.

Lemma py_int_inject_Z (z : Z) : Np.py_int (inject_Z z) = z.
Proof. unfold Np.py_int. simpl. apply Z.quot_1_r. Qed.

Lemma np_median_three (a b c r : Z) (m : Q) :
  Np.np_median (map inject_Z [a; b; c]) = Some m -> Np.py_int m = r ->
  median_of_three r a b c.
Proof.
  intros Hm Hr. rewrite np_median_odd in Hm by done.
  pose proof (np_sort_perm (map inject_Z [a; b; c])) as Hperm.
  pose proof (np_sort_sorted (map inject_Z [a; b; c])) as Hsorted.
  apply Permutation_map_inv in Hperm as (l' & Hs & Hperm).
  rewrite Hs in Hm, Hsorted.
  pose proof (Permutation_length Hperm) as Hlen.
  destruct l' as [|lo [|mid [|hi [|? ?]]]]; try discriminate.
  cbn in Hm. injection Hm as <-. rewrite py_int_inject_Z in Hr. subst mid.
  exists lo, hi. split; [by symmetry |].
  cbn in Hsorted.
  pose proof (sorted_lookup_le _ 0 1 _ _ Hsorted ltac:(lia) eq_refl eq_refl) as H1.
  pose proof (sorted_lookup_le _ 1 2 _ _ Hsorted ltac:(lia) eq_refl eq_refl) as H2.
  rewrite <- Zle_Qle in H1, H2. done.
Qed.

Section SkyFacts.

Variable image : Type.
Variable cube_median : list image -> image.
Variable frame_sub : image -> image -> image.
Variable cube_subtract_sky_pca : list image -> list image -> Z -> list image.
Variable aperture_std : list image -> Q * Q -> Q.

Let nearest_sky_frames := SkySubtract.nearest_sky_frames image cube_median.
Let pca_residual :=
  SkySubtract.pca_residual image frame_sub cube_subtract_sky_pca.
Let hmean_std := SkySubtract.hmean_std image aperture_std.
Let optimal_rank :=
  SkySubtract.optimal_rank image cube_median frame_sub cube_subtract_sky_pca
    aperture_std.
Let subtract_sky_pca :=
  SkySubtract.subtract_sky_pca image cube_median frame_sub
    cube_subtract_sky_pca aperture_std.

Lemma optimal_rank_Ok store headers times real_ndit_sky all_skies dust_xy_all
    nnpc sci_list fits_idx o :
  optimal_rank store headers times real_ndit_sky all_skies dust_xy_all nnpc
    sci_list fits_idx = Ok o ->
  exists fits_name tmp med_sky,
    Np.py_index sci_list fits_idx = Ok fits_name /\
    nearest_sky_frames store headers times real_ndit_sky all_skies fits_name
    = Ok (tmp, med_sky) /\
    rank_minimises
      (fun c => hmean_std dust_xy_all (pca_residual all_skies tmp med_sky c))
      nnpc o.
Proof.
  unfold optimal_rank, SkySubtract.optimal_rank. intros H.
  apply bind_Ok in H as (name & Hname & H).
  apply bind_Ok in H as ([tmp med] & Hts & H). cbn [fst snd] in H.
  apply bind_Ok in H as (best & Hbest & H). apply index_nat_Ok in H.
  exists name, tmp, med. repeat split; [done | done | by eapply list_elem_of_lookup_2 |].
  apply np_argmin_nan_Ok in Hbest as (x & Hx & Hmin).
  rewrite list_lookup_fmap, H in Hx. injection Hx as <-.
  intros c Hc v w Hv Hw. apply list_elem_of_lookup in Hc as [j Hj].
  apply (Hmin v Hv j w). by rewrite list_lookup_fmap, Hj, <- Hw.
Qed.

Lemma aligned_ne_subtr (a b : string) :
  "3_AGPM_aligned_imlib_" +:+ a <> "4_sky_subtr_imlib_" +:+ b.
Proof. cbn. discriminate. Qed.

Lemma nearest_sky_frames_agree (s s' : gmap string (list image)) headers times
    real_ndit_sky all_skies fits_name :
  (forall name, s' !! ("3_AGPM_aligned_imlib_" +:+ name)
                = s !! ("3_AGPM_aligned_imlib_" +:+ name)) ->
  nearest_sky_frames s' headers times real_ndit_sky all_skies fits_name
  = nearest_sky_frames s headers times real_ndit_sky all_skies fits_name.
Proof.
  intros Hagree. unfold nearest_sky_frames, SkySubtract.nearest_sky_frames,
    SkySubtract.open_fits. by rewrite Hagree.
Qed.

(** The final loop of the PCA mode writes, for every science cube, the
    residual at the one rank [npc]. *)
Lemma pca_loop_Ok (s0 : gmap string (list image)) headers times real_ndit_sky
    all_skies (npc : Z) (l : list string) :
  forall i (s s' : gmap string (list image)),
    (forall name, s !! ("3_AGPM_aligned_imlib_" +:+ name)
                  = s0 !! ("3_AGPM_aligned_imlib_" +:+ name)) ->
    DustSpecks.for_each
      (fun (sc : nat) fits_name store =>
         ts ← nearest_sky_frames store headers times real_ndit_sky all_skies
                fits_name;
         Ok (<["4_sky_subtr_imlib_" +:+ fits_name
               := pca_residual all_skies ts.1 ts.2 npc]> store))
      i l s = Ok s' ->
    (forall name, s' !! ("3_AGPM_aligned_imlib_" +:+ name)
                  = s0 !! ("3_AGPM_aligned_imlib_" +:+ name)) /\
    (forall key, (forall name, name ∈ l -> key <> "4_sky_subtr_imlib_" +:+ name) ->
                 s' !! key = s !! key) /\
    (forall name, name ∈ l ->
       exists tmp med_sky,
         nearest_sky_frames s0 headers times real_ndit_sky all_skies name
         = Ok (tmp, med_sky) /\
         s' !! ("4_sky_subtr_imlib_" +:+ name)
         = Some (pca_residual all_skies tmp med_sky npc)).
Proof.
  induction l as [|x l IH]; intros i s s' Hagree H; simpl in H.
  - injection H as <-. repeat split; [done |].
    intros name Hin. by apply elem_of_nil in Hin.
  - apply bind_Ok in H as (s1 & Hbody & H).
    apply bind_Ok in Hbody as ([tmp med] & Hts & [= <-]). cbn [fst snd] in H.
    rewrite (nearest_sky_frames_agree s0 s) in Hts by done.
    destruct (IH _ _ _ ltac:(intros name; rewrite lookup_insert_ne;
                             [apply Hagree | apply not_eq_sym, aligned_ne_subtr]) H)
      as (Hagree' & Hkeep & Hwritten).
    repeat split; [done | |].
    + intros key Hkey. rewrite Hkeep.
      * apply lookup_insert_ne, not_eq_sym, Hkey, list_elem_of_here.
      * intros name Hin. apply Hkey. by apply list_elem_of_further.
    + intros name Hin.
      destruct (decide (name ∈ l)) as [Hl | Hl]; [by apply Hwritten |].
      apply elem_of_cons in Hin as [-> | Hin]; [|done].
      exists tmp, med. split; [done |]. rewrite Hkeep.
      * apply lookup_insert_eq.
      * intros name Hname Heq. apply Hl.
        apply (inj (String.append "4_sky_subtr_imlib_")) in Heq. by subst.
Qed.

(** C2: in PCA mode with [npc] None or a list, one rank serves the whole
    dataset: every science cube is written as its PCA residual at that rank.
    The rank is the median of three optima, found on the first, the middle
    and the last science cube; each optimum is a candidate rank at which the
    statistic is smallest; and the statistic of a residual is the mean of the
    upper half of its sorted per-speck aperture scatters, taken over the
    all-high-SNR specks. *)
Theorem pca_rank_chosen_once npc sci_list sky_list real_ndit_sky new_ndit_sky
    dust_xy_all headers store r store' :
  subtract_sky_pca npc sci_list sky_list real_ndit_sky new_ndit_sky dust_xy_all
    headers store = Ok (r, store') ->
  exists master all_skies,
    SkySubtract.master_skies image cube_median store headers sky_list = Ok master /\
    SkySubtract.pool_skies image store sky_list new_ndit_sky = Ok all_skies /\
    (forall name, name ∈ sci_list ->
       exists tmp med_sky,
         nearest_sky_frames store headers master.*2 real_ndit_sky all_skies name
         = Ok (tmp, med_sky) /\
         store' !! ("4_sky_subtr_imlib_" +:+ name)
         = Some (pca_residual all_skies tmp med_sky r)) /\
    match npc with
    | SkySubtract.NpcInt n => r = n
    | _ =>
        let nnpc := SkySubtract.candidate_ranks npc (length sky_list) new_ndit_sky in
        let n := Z.of_nat (length sci_list) in
        let optimum_at (fits_idx : Z) (o : Z) :=
          exists fits_name tmp med_sky,
            Np.py_index sci_list fits_idx = Ok fits_name /\
            nearest_sky_frames store headers master.*2 real_ndit_sky all_skies
              fits_name = Ok (tmp, med_sky) /\
            rank_minimises
              (fun c => hmean_std dust_xy_all (pca_residual all_skies tmp med_sky c))
              nnpc o in
        exists o_first o_middle o_last,
          optimum_at 0 o_first /\ optimum_at (n / 2) o_middle /\
          optimum_at (n - 1) o_last /\
          median_of_three r o_first o_middle o_last
    end /\
    (forall tmp_tmp : list image,
       let std := map (aperture_std tmp_tmp) dust_xy_all in
       let lower := take (length std / 2) (Np.np_sort std) in
       let upper := drop (length std / 2) (Np.np_sort std) in
       hmean_std dust_xy_all tmp_tmp = Np.np_mean upper /\
       lower ++ upper ≡ₚ std /\
       length upper = (length std - length std / 2)%nat /\
       forall a b, a ∈ lower -> b ∈ upper -> (a <= b)%Q).
Proof.
  unfold subtract_sky_pca, SkySubtract.subtract_sky_pca. intros H.
  apply bind_Ok in H as (master & Hmaster & H).
  apply bind_Ok in H as (all_skies & Hall & H).
  apply bind_Ok in H as (r' & Hnpc & H).
  apply bind_Ok in H as (s' & Hloop & [= <- <-]).
  apply (pca_loop_Ok store) in Hloop as (_ & _ & Hwritten); [|done].
  exists master, all_skies.
  split; [done |]. split; [done |]. split; [done |]. split.
  - unfold SkySubtract.choose_npc in Hnpc.
    assert (Hsearch : forall nnpc,
      (npc_opt ← FirstFrames.traverse
                   (optimal_rank store headers master.*2 real_ndit_sky all_skies
                      dust_xy_all nnpc sci_list)
                   [0; Z.of_nat (length sci_list) / 2; Z.of_nat (length sci_list) - 1];
       match Np.np_median (map inject_Z npc_opt) with
       | Some m => Ok (Np.py_int m)
       | None => Raise ValueError
       end) = Ok r' ->
      exists o0 o1 o2,
        optimal_rank store headers master.*2 real_ndit_sky all_skies
          dust_xy_all nnpc sci_list 0 = Ok o0 /\
        optimal_rank store headers master.*2 real_ndit_sky all_skies
          dust_xy_all nnpc sci_list (Z.of_nat (length sci_list) / 2) = Ok o1 /\
        optimal_rank store headers master.*2 real_ndit_sky all_skies
          dust_xy_all nnpc sci_list (Z.of_nat (length sci_list) - 1) = Ok o2 /\
        median_of_three r' o0 o1 o2).
    { intros nnpc Hs. apply bind_Ok in Hs as (opt & Hopt & Hs).
      apply traverse_Forall2 in Hopt.
      apply Forall2_cons_inv_l in Hopt as (o0 & t0 & H0 & Hopt & ->).
      apply Forall2_cons_inv_l in Hopt as (o1 & t1 & H1 & Hopt & ->).
      apply Forall2_cons_inv_l in Hopt as (o2 & t2 & H2 & Hopt & ->).
      apply Forall2_nil_inv_l in Hopt as ->.
      destruct (Np.np_median (map inject_Z [o0; o1; o2])) as [m|] eqn:Hm; [|done].
      injection Hs as Hs. exists o0, o1, o2.
      repeat split; try done. by eapply np_median_three. }
    destruct npc as [|l|n].
    + apply Hsearch in Hnpc as (o0 & o1 & o2 & H0 & H1 & H2 & Hmed).
      apply optimal_rank_Ok in H0, H1, H2. by exists o0, o1, o2.
    + apply Hsearch in Hnpc as (o0 & o1 & o2 & H0 & H1 & H2 & Hmed).
      apply optimal_rank_Ok in H0, H1, H2. by exists o0, o1, o2.
    + by injection Hnpc as <-.
  - intros tmp_tmp.
    split; [unfold hmean_std, SkySubtract.hmean_std; by rewrite length_map |].
    apply upper_half_of_sorted.
Qed.

End SkyFacts.

Lemma pca_rank_chosen_once_witness :
  exists r store master,
    sample_pca_run = Ok (r, store) /\
    SkySubtract.master_skies Q sample_cube_median sample_store sample_headers
      sample_sky_list = Ok master.
Proof.
  assert (Hr : rank_of sample_pca_run = Ok 5) by (vm_compute; reflexivity).
  destruct sample_pca_run as [[r store]|e] eqn:E; [|discriminate Hr].
  unfold sample_pca_run in E.
  destruct (pca_rank_chosen_once _ _ _ _ _ _ _ _ _ _ _ _ _ _ _ E)
    as (master & all_skies & Hmaster & _).
  exists r, store, master. split; [reflexivity | exact Hmaster].
Defined.

(** ** The offset objectives of [dark_subtract] on a degenerate mask *)

Lemma imap_same {A} (f : nat -> A -> A) (l : list A) :
  (forall i x, l !! i = Some x -> f i x = x) -> imap f l = l.
Proof.
  intros Hf. transitivity (imap (const id) l).
  - apply imap_ext. intros i x Hx. by apply Hf.
  - by rewrite imap_const, list_fmap_id.
Qed.

Lemma fill_ones_no_columns (a : DarkSubtract.array2) (r0 r1 c0 : Z) :
  DarkSubtract.fill_ones a r0 r1 c0 0 = a.
Proof.
  unfold DarkSubtract.fill_ones. apply imap_same. intros i row _.
  destruct (_ && _); [|done]. apply imap_same. intros j v _.
  replace (DarkSubtract.slice_bound 0 (length row)) with 0%nat
    by (unfold DarkSubtract.slice_bound; simpl; lia).
  by rewrite andb_false_r.
Qed.

Lemma select_where_zero_row (nx : nat) (frow : list Q) :
  omap (fun '(m, p) => if Qeq_bool m 0 then None else Some p)
       (zip (repeat 0%Q nx) frow) = [].
Proof.
  revert frow. induction nx as [|nx IH]; intros [|p frow]; try done.
  cbn. apply IH.
Qed.

Lemma select_where_zeros (ny nx : nat) (frame : DarkSubtract.array2) :
  DarkSubtract.select_where (DarkSubtract.np_zeros2 ny nx) frame = [].
Proof.
  unfold DarkSubtract.select_where, DarkSubtract.np_zeros2.
  revert frame. induction ny as [|ny IH]; intros [|frow frame]; try done.
  cbn [repeat zip_with concat]. rewrite select_where_zero_row. apply IH.
Qed.

(** At [com_sz = 734] the columns [:-crop] are [:-0], an empty slice, and
    [mask_std] stays all zero. *)
Lemma mask_std_734 (cy : Q) :
  DarkSubtract.make_mask_std 734 cy = Ok (DarkSubtract.np_zeros2 734 734, 0).
Proof.
  unfold DarkSubtract.make_mask_std.
  change (Np.py_int (inject_Z (734 - 733) / 2)) with 0.
  change (734 <=? 733) with false. cbn [mbind result_bind FirstFrames.np_alloc].
  change (734 <? 0) with false. cbv iota. cbn [Z.opp].
  rewrite fill_ones_no_columns. reflexivity.
Qed.

(** A search that is given NaN at every point settles where it would with
    no information at all, and raises nothing. *)
Lemma minimize_blind (method : OffsetSearch.search)
    (f : Q -> result (option Q)) :
  (forall x, f x = Ok None) ->
  OffsetSearch.minimize method f = Ok (blind method).
Proof.
  intros Hf. induction method as [x|x next IH]; [done |].
  cbn [OffsetSearch.minimize blind]. rewrite Hf. cbn [mbind result_bind].
  apply IH.
Qed.

Lemma empty_selection_gives_nan (pca_median : Q -> DarkSubtract.array2)
    (std : list Q -> Q) (mask : DarkSubtract.array2) (com_sz crop : Z)
    (med_diff guess : Q) :
  DarkSubtract.select_where mask
    (DarkSubtract.recentre med_diff guess (pca_median guess)) = [] ->
  (0 < com_sz - crop ->
   DarkSubtract._get_test_diff_flat pca_median std mask com_sz crop med_diff guess
   = Ok None) /\
  DarkSubtract._get_test_diff_sci pca_median std mask med_diff guess = Ok None.
Proof.
  intros Hempty. split.
  - intros Hw. unfold DarkSubtract._get_test_diff_flat. rewrite Hempty.
    unfold DarkSubtract.reshape_infer. cbn [length Z.of_nat].
    rewrite Z.mod_0_l by lia.
    replace (0 <? com_sz - crop) with true by (symmetry; by apply Z.ltb_lt).
    reflexivity.
  - unfold DarkSubtract._get_test_diff_sci. by rewrite Hempty.
Qed.

(** C9, as the program has it: when the mask selects no pixel, neither
    objective raises; each returns the NaN that [np.std] gives on an empty
    selection (the flat one provided its reshape width is positive).  When
    this holds at every offset, the search for [best_test_diff] raises
    nothing either: it is given NaN at every point it asks for, and the
    offset it returns is the one it settles on without any information. *)
Theorem degenerate_mask_gives_nan (pca_median : Q -> DarkSubtract.array2)
    (std : list Q -> Q) (mask : DarkSubtract.array2) (com_sz crop : Z)
    (med_diff : Q) :
  (forall guess,
     DarkSubtract.select_where mask
       (DarkSubtract.recentre med_diff guess (pca_median guess)) = [] ->
     (0 < com_sz - crop ->
      DarkSubtract._get_test_diff_flat pca_median std mask com_sz crop med_diff
        guess = Ok None) /\
     DarkSubtract._get_test_diff_sci pca_median std mask med_diff guess
     = Ok None) /\
  ((forall guess,
      DarkSubtract.select_where mask
        (DarkSubtract.recentre med_diff guess (pca_median guess)) = []) ->
   forall method : option Q -> OffsetSearch.search,
     (forall cy,
        DarkSubtract.make_mask_std com_sz cy = Ok (mask, crop) ->
        0 < com_sz - crop ->
        OffsetSearch.best_test_diff_flat pca_median std method com_sz cy med_diff
        = Ok (blind (method None))) /\
     OffsetSearch.best_test_diff_sci pca_median std method mask med_diff
     = Ok (blind (method None))).
Proof.
  split; [intros guess; apply empty_selection_gives_nan |].
  intros Hempty method. split.
  - intros cy Hmask Hw. unfold OffsetSearch.best_test_diff_flat.
    rewrite Hmask. cbn [mbind result_bind fst snd].
    apply (minimize_blind (OffsetSearch.Ask 0 method)).
    intros x. by apply empty_selection_gives_nan.
  - unfold OffsetSearch.best_test_diff_sci.
    apply (minimize_blind (OffsetSearch.Ask 0 method)).
    intros x. by apply empty_selection_gives_nan.
Qed.

Lemma degenerate_mask_gives_nan_witness :
  (forall guess,
     DarkSubtract.select_where (DarkSubtract.np_zeros2 2 2)
       (DarkSubtract.recentre 1 guess [[5; 6]; [7; 8]]%Q) = []) /\
  DarkSubtract._get_test_diff_sci (fun _ => [[5; 6]; [7; 8]]%Q) rational_std
    (DarkSubtract.np_zeros2 2 2) 1 0 = Ok None /\
  OffsetSearch.best_test_diff_sci (fun _ => [[5; 6]; [7; 8]]%Q) rational_std
    two_point_search (DarkSubtract.np_zeros2 2 2) 1 = Ok 0%Q.
Proof.
  assert (H : forall guess,
            DarkSubtract.select_where (DarkSubtract.np_zeros2 2 2)
              (DarkSubtract.recentre 1 guess [[5; 6]; [7; 8]]%Q) = [])
    by (intros guess; reflexivity).
  destruct (degenerate_mask_gives_nan (fun _ => [[5; 6]; [7; 8]]%Q)
              rational_std (DarkSubtract.np_zeros2 2 2) 2 0 1) as [Hobj Hsearch].
  split; [exact H |]. split.
  - exact (proj2 (Hobj 0%Q (H 0%Q))).
  - exact (proj2 (Hsearch H two_point_search)).
Defined.

(** C9, as the specification has it, fails: for a NACO frame of side 734
    the mask built by [dark_subtract] selects no pixel; the flat objective
    returns NaN, and the search for [best_test_diff] completes, with a
    search of two evaluations as with any other, where the specification
    wants a fatal error. *)
Lemma degenerate_mask_not_fatal :
  DarkSubtract.make_mask_std 734 (733 # 2)
  = Ok (DarkSubtract.np_zeros2 734 734, 0) /\
  DarkSubtract.select_where (DarkSubtract.np_zeros2 734 734)
    (DarkSubtract.recentre 0 0 (flat_residual 0)) = [] /\
  DarkSubtract._get_test_diff_flat flat_residual rational_std
    (DarkSubtract.np_zeros2 734 734) 734 0 0 0 = Ok None /\
  ~ raising (DarkSubtract._get_test_diff_flat flat_residual rational_std
               (DarkSubtract.np_zeros2 734 734) 734 0 0 0) /\
  OffsetSearch.best_test_diff_flat flat_residual rational_std two_point_search
    734 (733 # 2) 0 = Ok 0%Q /\
  (forall method,
     ~ raising (OffsetSearch.best_test_diff_flat flat_residual rational_std
                  method 734 (733 # 2) 0)).
Proof.
  assert (Hsel : forall guess,
            DarkSubtract.select_where (DarkSubtract.np_zeros2 734 734)
              (DarkSubtract.recentre 0 guess (flat_residual guess)) = [])
    by (intros guess; apply select_where_zeros).
  assert (Hobj : DarkSubtract._get_test_diff_flat flat_residual rational_std
                   (DarkSubtract.np_zeros2 734 734) 734 0 0 0 = Ok None).
  { unfold DarkSubtract._get_test_diff_flat. rewrite Hsel. reflexivity. }
  assert (Hrun : forall method,
            OffsetSearch.best_test_diff_flat flat_residual rational_std method
              734 (733 # 2) 0 = Ok (blind (method None))).
  { intros method. unfold OffsetSearch.best_test_diff_flat.
    rewrite mask_std_734. cbn [mbind result_bind fst snd].
    apply (minimize_blind (OffsetSearch.Ask 0 method)). intros x.
    unfold DarkSubtract._get_test_diff_flat. rewrite Hsel. reflexivity. }
  split; [apply mask_std_734 |]. split; [apply Hsel |]. split; [exact Hobj |].
  split; [rewrite Hobj; intros [e He]; discriminate |].
  split; [by rewrite Hrun |].
  intros method. rewrite Hrun. intros [e He]. discriminate.
Qed.
(** ** Medians of arrays that are mostly zero *)

Lemma zeros_app (a b : list Q) : zeros (a ++ b) = (zeros a + zeros b)%nat.
Proof. induction a as [|x a IH]; simpl; [done | rewrite IH; lia]. Qed.

Lemma zeros_perm (a b : list Q) : a ≡ₚ b -> zeros a = zeros b.
Proof. induction 1; simpl; lia. Qed.

Lemma zeros_le_length (l : list Q) : (zeros l <= length l)%nat.
Proof. induction l as [|x l IH]; simpl; [lia | destruct (Qeq_bool x 0); lia]. Qed.

Lemma zeros_none (l : list Q) : Forall (fun x => ~ (x == 0)%Q) l -> zeros l = 0%nat.
Proof.
  induction 1 as [|x l Hx _ IH]; simpl; [done |].
  destruct (Qeq_bool x 0) eqn:E; [|done]. by apply Qeq_bool_eq in E.
Qed.

Lemma zeros_repeat (n : nat) : zeros (repeat 0%Q n) = n.
Proof. induction n as [|n IH]; simpl; [done | by rewrite IH]. Qed.

(** In a sorted list, a negative entry has no zero before it and a positive
    entry has no zero after it. *)
Lemma sorted_zeros_bound (s : list Q) (i : nat) (x : Q) :
  StronglySorted Qle s -> s !! i = Some x ->
  ((x < 0)%Q -> (zeros s + S i <= length s)%nat) /\
  ((0 < x)%Q -> (zeros s <= i)%nat).
Proof.
  intros Hs Hi. pose proof (lookup_lt_Some _ _ _ Hi) as Hlt. split; intros Hx.
  - rewrite <- (take_drop (S i) s) at 1 2. rewrite zeros_app, length_app.
    rewrite zeros_none.
    + pose proof (zeros_le_length (drop (S i) s)). rewrite length_take. lia.
    + apply Forall_forall. intros y Hy.
      apply list_elem_of_lookup in Hy as [j Hj].
      apply lookup_take_Some in Hj as [Hj Hji].
      pose proof (sorted_lookup_le s j i y x Hs ltac:(lia) Hj Hi). lra.
  - rewrite <- (take_drop i s) at 1. rewrite zeros_app.
    rewrite (zeros_none (drop i s)).
    + pose proof (zeros_le_length (take i s)). rewrite length_take in H. lia.
    + apply Forall_forall. intros y Hy.
      apply list_elem_of_lookup in Hy as [j Hj].
      rewrite lookup_drop in Hj.
      pose proof (sorted_lookup_le s i (i + j) x y Hs ltac:(lia) Hi Hj). lra.
Qed.

(** When more than half of the entries are zero, so is the median. *)
Lemma np_median_majority_zero (l : list Q) :
  (length l < 2 * zeros l)%nat ->
  exists m, Np.np_median l = Some m /\ (m == 0)%Q.
Proof.
  intros Hmaj. set (s := Np.np_sort l).
  pose proof (np_sort_sorted l) as Hs. fold s in Hs.
  pose proof (np_sort_length l) as Hsl. fold s in Hsl.
  assert (Hz : zeros s = zeros l) by (apply zeros_perm, np_sort_perm).
  pose proof (zeros_le_length l) as Hzl.
  assert (Hat : forall i x, s !! i = Some x ->
            (2 * i < length l)%nat -> (length l <= 2 * i + 2)%nat -> (x == 0)%Q).
  { intros i x Hi H1 H2. destruct (sorted_zeros_bound s i x Hs Hi) as [Hneg Hpos].
    destruct (Q_dec x 0) as [[Hx | Hx] | Hx]; [| | done].
    - specialize (Hneg Hx). lia.
    - specialize (Hpos Hx). lia. }
  unfold Np.np_median. fold s.
  destruct (length l) as [|n] eqn:Hlen; [lia |]. rewrite <- Hlen in *.
  pose proof (Nat.div_mod_eq (length l) 2) as Hdm.
  destruct (Nat.even (length l)) eqn:Hev.
  - assert (Hmod : (length l mod 2 = 0)%nat).
    { apply Nat.even_spec in Hev as [k Hk]. rewrite Hk.
      rewrite Nat.mul_comm. apply Nat.Div0.mod_mul. }
    destruct (lookup_lt_is_Some_2 s (length l / 2 - 1)) as [a Ha]; [lia |].
    destruct (lookup_lt_is_Some_2 s (length l / 2)) as [b Hb]; [lia |].
    rewrite Ha, Hb. eexists. split; [done |].
    assert (Ha0 : (a == 0)%Q) by (apply (Hat _ _ Ha); lia).
    assert (Hb0 : (b == 0)%Q).
    { destruct (sorted_zeros_bound s _ b Hs Hb) as [Hneg Hpos].
      destruct (Q_dec b 0) as [[Hx | Hx] | Hx]; [| | done].
      - specialize (Hneg Hx). lia.
      - specialize (Hpos Hx). lia. }
    rewrite Ha0, Hb0. reflexivity.
  - assert (Hmod : (length l mod 2 = 1)%nat).
    { rewrite <- Nat.negb_odd in Hev. apply negb_false_iff in Hev.
      apply Nat.odd_spec in Hev as [k Hk]. rewrite Hk.
      rewrite Nat.add_comm, Nat.mul_comm, Nat.Div0.mod_add. done. }
    destruct (lookup_lt_is_Some_2 s (length l / 2)) as [b Hb]; [lia |].
    rewrite Hb. eexists. split; [done |]. apply (Hat _ _ Hb); lia.
Qed.

(** ** [correct_bad_pixels] *)

Lemma zeros_map_seq (f : nat -> Q) (start k : nat) :
  (forall i, (start <= i)%nat -> f i = 0%Q) -> zeros (map f (seq start k)) = k.
Proof.
  revert start. induction k as [|k IH]; intros start Hf; simpl; [done |].
  rewrite (Hf start) by lia. simpl. rewrite IH; [done |].
  intros i Hi. apply Hf. lia.
Qed.

Lemma nth_app_zeros (frame : list Q) (k i : nat) :
  (length frame <= i)%nat -> nth i (frame ++ repeat 0%Q k) 0%Q = 0%Q.
Proof.
  intros Hi. rewrite app_nth2 by lia.
  destruct (nth_in_or_default (i - length frame) (repeat 0%Q k) 0%Q) as [Hin | ->];
    [|done].
  by apply repeat_spec in Hin.
Qed.

Lemma drop_repeat {A} (x : A) (n k : nat) :
  drop k (repeat x n) = repeat x (n - k).
Proof.
  revert k. induction n as [|n IH]; intros [|k]; simpl; by try done.
Qed.

(** X1: with three science (or sky) cubes or more, the master median frame
    of [correct_bad_pixels] is zero at every pixel, whatever the cubes
    hold: the loop over [sci_list[:1]] fills one frame of the [n] that were
    allocated as zeros, and the median over the [n] frames follows the
    zeros. *)
Theorem master_median_is_zero (n : nat) (cube : DustSpecks.ndarray Q)
    (ndit : list Z) (draw : Z) (m : DustSpecks.ndarray (option Q)) :
  (3 <= n)%nat ->
  BadPixels.master_median n cube ndit draw = Ok m ->
  exists n_z n_y n_x,
    DustSpecks.shape cube = [n_z; n_y; n_x] /\
    DustSpecks.shape m = [n_y; n_x] /\
    length (DustSpecks.data m) = (n_y * n_x)%nat /\
    Forall (fun p => exists q, p = Some q /\ (q == 0)%Q) (DustSpecks.data m).
Proof.
  intros Hn H. unfold BadPixels.master_median in H.
  destruct (DustSpecks.shape cube) as [|n_z [|n_y [|n_x [|]]]] eqn:Hsh; try done.
  apply bind_Ok in H as (mn & _ & H). apply bind_Ok in H as (k & _ & H).
  apply bind_Ok in H as (frame & Hfr & H). apply bind_Ok in H as (t & Ht & H).
  unfold BadPixels.frame_at in Hfr. rewrite Hsh in Hfr.
  destruct (Z.to_nat k <? n_z)%nat; [|done]. injection Hfr as Hfr.
  assert (Hfl : (length frame <= n_y * n_x)%nat).
  { rewrite <- Hfr, length_take. simpl. lia. }
  unfold BadPixels.set_frame in Ht. simpl in Ht.
  destruct (0 <? n)%nat; [|done]. injection Ht as <-.
  unfold DustSpecks.np_median_axis0 in H. simpl in H. injection H as <-.
  exists n_z, n_y, n_x. simpl. rewrite length_map, length_seq, Nat.add_0_r, Nat.mul_1_r.
  repeat split; try done.
  apply Forall_forall. intros p Hp.
  apply list_elem_of_fmap in Hp as (j & -> & Hj).
  apply elem_of_seq in Hj.
  apply np_median_majority_zero.
  unfold DustSpecks.column. simpl. rewrite length_map, length_seq.
  destruct n as [|n]; [lia |]. simpl seq. rewrite fmap_cons.
  change (zeros (?x :: ?l)) with ((if Qeq_bool x 0 then 1 else 0) + zeros l)%nat.
  rewrite zeros_map_seq.
  - destruct (Qeq_bool _ _); lia.
  - intros i Hi. rewrite drop_repeat.
    apply nth_app_zeros. nia.
Qed.

Lemma deviant_out_of_range (g : FlatField.double) :
  BadPixels.deviant g = true <-> out_of_range g.
Proof.
  destruct g as [q| | |]; unfold BadPixels.deviant, out_of_range; try done.
  rewrite Qltb_lt, Qabs_gt_cases. split; intros [H | H]; (left; lra) || (right; lra).
Qed.

Lemma elem_of_concat {A} (x : A) (ls : list (list A)) :
  x ∈ concat ls <-> exists l, x ∈ l /\ l ∈ ls.
Proof.
  rewrite list_elem_of_In, in_concat. split; intros (l & H1 & H2); exists l.
  - by rewrite !list_elem_of_In.
  - by rewrite <- !list_elem_of_In.
Qed.

Lemma elem_of_np_where (mff : list (list FlatField.double)) (i j : nat) :
  (i, j) ∈ BadPixels.np_where mff <->
  exists row g, mff !! i = Some row /\ row !! j = Some g /\
                BadPixels.deviant g = true.
Proof.
  unfold BadPixels.np_where. rewrite elem_of_concat. split.
  - intros (l & Hin & Hl).
    apply elem_of_lookup_imap in Hl as (i' & row & -> & Hrow).
    apply list_elem_of_omap in Hin as (o & Ho & Hid).
    apply elem_of_lookup_imap in Ho as (j' & g & -> & Hg).
    destruct (BadPixels.deviant g) eqn:E; [|done].
    injection Hid as <- <-. by exists row, g.
  - intros (row & g & Hrow & Hg & Hdev).
    exists (omap id (imap (fun j g => if BadPixels.deviant g then Some (i, j)
                                      else None) row)).
    split.
    + apply list_elem_of_omap. exists (Some (i, j)). split; [|done].
      apply elem_of_lookup_imap. exists j, g. by rewrite Hdev.
    + apply elem_of_lookup_imap. by exists i, row.
Qed.

(** X2: on a master flat of side [com_sz] the bad pixel map holds 1 where
    the gain is below 0.68, above 1.5 or infinite, and 0 elsewhere; a NaN
    gain is left unflagged. *)
Theorem bpix_map_flags_out_of_range (com_sz : Z)
    (master_flat_frame : list (list FlatField.double)) :
  0 <= com_sz ->
  length master_flat_frame = Z.to_nat com_sz ->
  Forall (fun row => length row = Z.to_nat com_sz) master_flat_frame ->
  exists bpix_map,
    BadPixels.make_bpix_map com_sz master_flat_frame = Ok bpix_map /\
    forall i j row g,
      master_flat_frame !! i = Some row -> row !! j = Some g ->
      exists brow b,
        bpix_map !! i = Some brow /\ brow !! j = Some b /\
        (b = 1%Q \/ b = 0%Q) /\ (b = 1%Q <-> out_of_range g).
Proof.
  intros Hsz Hrows Hcols. unfold BadPixels.make_bpix_map, FirstFrames.np_alloc.
  replace (com_sz <? 0) with false by (symmetry; apply Z.ltb_ge; lia).
  cbn [mbind result_bind]. set (n := Z.to_nat com_sz) in *.
  assert (Hin : forall i j, (i, j) ∈ BadPixels.np_where master_flat_frame ->
                            (i < n)%nat /\ (j < n)%nat).
  { intros i j Hij. apply elem_of_np_where in Hij as (row & g & Hrow & Hg & _).
    pose proof (lookup_lt_Some _ _ _ Hrow) as Hi.
    pose proof (lookup_lt_Some _ _ _ Hg) as Hj.
    rewrite Forall_forall in Hcols.
    rewrite (Hcols row) in Hj by (by eapply list_elem_of_lookup_2). lia. }
  rewrite (proj2 (forallb_forall _ _)).
  2:{ intros [i j] Hij. apply list_elem_of_In, Hin in Hij as [Hi Hj]. simpl.
      apply andb_true_iff. split; by apply Nat.ltb_lt. }
  eexists. split; [reflexivity |]. intros i j row g Hrow Hg.
  pose proof (lookup_lt_Some _ _ _ Hrow) as Hi.
  pose proof (lookup_lt_Some _ _ _ Hg) as Hj.
  rewrite Forall_forall in Hcols.
  rewrite (Hcols row) in Hj by (by eapply list_elem_of_lookup_2).
  rewrite Hrows in Hi.
  eexists _, _. split; [|split].
  - unfold DarkSubtract.array2.
    rewrite list_lookup_map, lookup_seq_lt by done. reflexivity.
  - cbv beta. rewrite list_lookup_map, lookup_seq_lt by done. reflexivity.
  - simpl. case_bool_decide as Hmem.
    + split; [by left |]. split; [intros _ | done].
      apply elem_of_np_where in Hmem as (row' & g' & Hrow' & Hg' & Hdev).
      rewrite Hrow in Hrow'. injection Hrow' as <-.
      rewrite Hg in Hg'. injection Hg' as <-. by apply deviant_out_of_range.
    + split; [by right |]. split; [done |]. intros Hout. exfalso. apply Hmem.
      apply elem_of_np_where. exists row, g. by rewrite deviant_out_of_range.
Qed.

(** ** [flat_field_correction] *)

Lemma isclose_refl (v atol : Q) : (0 <= atol)%Q -> FlatField.isclose v v atol = true.
Proof.
  intros Ha. unfold FlatField.isclose. apply Qle_bool_iff.
  assert (H : (v - v == 0)%Q) by ring. rewrite H.
  change (Qabs 0) with 0%Q. pose proof (Qabs_nonneg v). nra.
Qed.

Lemma collect_step_spec (atol : Q) (vals : list Q) (fl : nat) (v : Q) :
  (0 <= atol)%Q -> (fl = 0%nat -> vals = []) ->
  let vals' := FlatField.collect_step atol vals fl v in
  (exists x, x ∈ vals' /\ FlatField.isclose v x atol = true) /\
  (vals' = vals \/
   vals' = vals ++ [v] /\ forall x, x ∈ vals -> FlatField.isclose v x atol = false).
Proof.
  intros Ha H0. unfold FlatField.collect_step.
  destruct (fl =? 0)%nat eqn:E.
  - apply Nat.eqb_eq in E. rewrite (H0 E). split.
    + exists v. split; [apply list_elem_of_here | by apply isclose_refl].
    + right. split; [done |]. intros x Hx. by apply elem_of_nil in Hx.
  - cbv zeta. case_bool_decide as Hocc.
    + split; [|by left].
      apply list_elem_of_fmap in Hocc as (x & Hx & Hin). by exists x.
    + split.
      * exists v. split; [apply elem_of_app; right; apply list_elem_of_here |].
        by apply isclose_refl.
      * right. split; [done |]. intros x Hx.
        destruct (FlatField.isclose v x atol) eqn:Hc; [|done].
        exfalso. apply Hocc. apply list_elem_of_fmap. by exists x.
Qed.

Lemma separated_snoc (atol : Q) (vals : list Q) (v : Q) :
  separated atol vals ->
  (forall x, x ∈ vals -> FlatField.isclose v x atol = false) ->
  separated atol (vals ++ [v]).
Proof.
  intros Hsep Hv i j x y Hij Hi Hj.
  apply lookup_app_Some in Hj as [Hj | [Hge Hj]].
  - apply lookup_app_Some in Hi as [Hi | [Hge' _]].
    + by eapply Hsep.
    + apply lookup_lt_Some in Hj. lia.
  - apply list_lookup_singleton_Some in Hj as [Hj <-].
    apply lookup_app_Some in Hi as [Hi | [Hge' _]]; [|lia].
    apply Hv. by eapply list_elem_of_lookup_2.
Qed.

Lemma collect_from_spec (atol : Q) (rest vals : list Q) (fl : nat) :
  (0 <= atol)%Q -> (fl = 0%nat -> vals = []) -> separated atol vals ->
  let r := FlatField.collect_from atol vals fl rest in
  (exists suffix, r = vals ++ suffix /\ Forall (fun x => x ∈ rest) suffix) /\
  (forall v, v ∈ rest -> exists x, x ∈ r /\ FlatField.isclose v x atol = true) /\
  separated atol r.
Proof.
  intros Ha. revert vals fl.
  induction rest as [|v rest IH]; intros vals fl H0 Hsep; simpl.
  - split; [exists []; by rewrite app_nil_r |]. split; [|done].
    intros v Hv. by apply elem_of_nil in Hv.
  - destruct (collect_step_spec atol vals fl v Ha H0) as [(x & Hx & Hclose) Hstep].
    set (vals' := FlatField.collect_step atol vals fl v) in *.
    assert (Hsep' : separated atol vals').
    { destruct Hstep as [-> | [-> Hfar]]; [done | by apply separated_snoc]. }
    destruct (IH vals' (S fl) ltac:(lia) Hsep') as ((suffix & Hr & Hsuf) & Hcov & Hsepr).
    split; [|split; [|done]].
    + destruct Hstep as [E | [E _]].
      * exists suffix. split; [by rewrite Hr, E |].
        eapply Forall_impl; [exact Hsuf |]. intros y Hy. by apply list_elem_of_further.
      * exists (v :: suffix). split; [by rewrite Hr, E, <- app_assoc |].
        constructor; [apply list_elem_of_here |].
        eapply Forall_impl; [exact Hsuf |]. intros y Hy. by apply list_elem_of_further.
    + intros w Hw. apply elem_of_cons in Hw as [-> | Hw]; [|by apply Hcov].
      exists x. split; [|done]. rewrite Hr. apply elem_of_app. by left.
Qed.

(** X3: the values that group the flats ([flat_X_values]): the value of
    every flat is close to a retained one, no retained value is close to
    one retained before it, every retained value is the value of a flat,
    the value of the first flat is retained, and sorting only reorders
    them. *)
Theorem flat_values_cover_and_separate (atol : Q) (flat_X : list Q) :
  (0 <= atol)%Q ->
  let vals := FlatField.collect_values atol flat_X in
  (forall v, v ∈ flat_X -> exists x, x ∈ vals /\ FlatField.isclose v x atol = true) /\
  separated atol vals /\
  (forall x, x ∈ vals -> x ∈ flat_X) /\
  head vals = head flat_X /\
  Np.np_sort vals ≡ₚ vals.
Proof.
  intros Ha vals.
  assert (Hnil : separated atol []).
  { intros i j x y _ Hi. by rewrite lookup_nil in Hi. }
  destruct (collect_from_spec atol flat_X [] 0 Ha ltac:(done) Hnil)
    as ((suffix & Hr & Hsuf) & Hcov & Hsep).
  fold (FlatField.collect_values atol flat_X) in Hr, Hcov, Hsep. fold vals in Hr, Hcov, Hsep.
  split; [done |]. split; [done |]. split; [|split; [|apply np_sort_perm]].
  - intros x Hx. rewrite Hr in Hx. simpl in Hx.
    rewrite Forall_forall in Hsuf. by apply Hsuf.
  - subst vals. unfold FlatField.collect_values.
    destruct flat_X as [|v rest]; [done |]. simpl.
    unfold FlatField.collect_step. simpl.
    destruct (collect_from_spec atol rest [v] 1 Ha ltac:(done)) as ((suf & -> & _) & _).
    + intros i j x y Hij Hi Hj. apply lookup_lt_Some in Hj. simpl in Hj. lia.
    + done.
Qed.

Lemma set_slot_Ok (n : nat) cube counter f0 c :
  FlatField.set_slot n cube counter f0 = Ok c ->
  exists frame, FlatField.broadcast_frame n f0 = Ok frame /\
    (counter < length cube)%nat /\ c = <[counter := frame]> cube.
Proof.
  unfold FlatField.set_slot. destruct (counter <? length cube)%nat eqn:E; [|done].
  apply Nat.ltb_lt in E. intros H. apply bind_Ok in H as (frame & Hb & [= <-]).
  by exists frame.
Qed.

Lemma assign_step_spec (n : nat) vals flat_cube fl x s s' (g : Z) :
  0 <= g <= 2 ->
  FlatField.assign_step n vals flat_cube fl x s = Ok s' ->
  exists g', FlatField.nearest_index vals x = Ok g' /\
    if g' =? g
    then exists frame, filed n flat_cube fl frame /\
           (counter_of g s < length (stack_of g s))%nat /\
           stack_of g s' = <[counter_of g s := frame]> (stack_of g s) /\
           counter_of g s' = S (counter_of g s)
    else stack_of g s' = stack_of g s /\ counter_of g s' = counter_of g s.
Proof.
  intros Hg H. unfold FlatField.assign_step in H.
  apply bind_Ok in H as (g' & Hg' & H). exists g'. split; [done |].
  assert (Hcases : g = 0 \/ g = 1 \/ g = 2) by lia.
  destruct (g' =? 0) eqn:E0; [|destruct (g' =? 1) eqn:E1; [|destruct (g' =? 2) eqn:E2]].
  - apply Z.eqb_eq in E0 as ->.
    apply bind_Ok in H as (f0 & Hf0 & H). apply bind_Ok in H as (c & Hc & [= <-]).
    apply index_nat_Ok in Hf0. apply set_slot_Ok in Hc as (frame & Hb & Hlt & ->).
    destruct Hcases as [-> | [-> | ->]]; simpl; try done.
    exists frame. repeat split; try done. by exists f0.
  - apply Z.eqb_eq in E1 as ->.
    apply bind_Ok in H as (f0 & Hf0 & H). apply bind_Ok in H as (c & Hc & [= <-]).
    apply index_nat_Ok in Hf0. apply set_slot_Ok in Hc as (frame & Hb & Hlt & ->).
    destruct Hcases as [-> | [-> | ->]]; simpl; try done.
    exists frame. repeat split; try done. by exists f0.
  - apply Z.eqb_eq in E2 as ->.
    apply bind_Ok in H as (f0 & Hf0 & H). apply bind_Ok in H as (c & Hc & [= <-]).
    apply index_nat_Ok in Hf0. apply set_slot_Ok in Hc as (frame & Hb & Hlt & ->).
    destruct Hcases as [-> | [-> | ->]]; simpl; try done.
    exists frame. repeat split; try done. by exists f0.
  - injection H as <-.
    replace (g' =? g) with false; [done |].
    symmetry. apply Z.eqb_neq. apply Z.eqb_neq in E0, E1, E2. lia.
Qed.

Lemma assign_loop_spec (n : nat) vals flat_cube (g : Z) flat_X fl s s' :
  0 <= g <= 2 ->
  DustSpecks.for_each (FlatField.assign_step n vals flat_cube) fl flat_X s = Ok s' ->
  exists frames,
    Forall2 (filed n flat_cube) (members vals g fl flat_X) frames /\
    counter_of g s' = (counter_of g s + length frames)%nat /\
    (frames <> [] -> (counter_of g s' <= length (stack_of g s))%nat) /\
    stack_of g s' = take (counter_of g s) (stack_of g s) ++ frames
                    ++ drop (counter_of g s') (stack_of g s).
Proof.
  intros Hg. revert fl s.
  induction flat_X as [|x rest IH]; intros fl s H; simpl in H.
  - injection H as <-. exists []. simpl. rewrite Nat.add_0_r, take_drop.
    by repeat split.
  - apply bind_Ok in H as (s1 & Hstep & Hloop).
    apply (assign_step_spec _ _ _ _ _ _ _ g Hg) in Hstep as (g' & Hg' & Hstep).
    destruct (IH _ _ Hloop) as (frames & Hmem & Hcnt & Hle & Hst).
    simpl. rewrite Hg'. destruct (g' =? g).
    + destruct Hstep as (frame & Hfiled & Hlt & Hs1 & Hc1).
      assert (Hlen : length (stack_of g s1) = length (stack_of g s))
        by (by rewrite Hs1, length_insert).
      exists (frame :: frames). split; [by constructor |].
      split; [simpl; lia |]. split.
      * intros _. destruct frames as [|f fs].
        -- simpl in Hcnt. lia.
        -- rewrite <- Hlen. by apply Hle.
      * rewrite Hst, Hs1, Hc1.
        rewrite (take_S_r _ _ frame)
          by (rewrite list_lookup_insert_eq; [done | lia]).
        rewrite take_insert_ge by lia.
        rewrite drop_insert_lt by lia.
        by rewrite <- app_assoc.
    + destruct Hstep as (Hs1 & Hc1). exists frames.
      rewrite <- Hs1, <- Hc1. by repeat split.
Qed.

Lemma assign_loop_from_empty (n : nat) (vals : list Q)
    (flat_cube : list DarkSubtract.array2) (flat_X : list Q)
    (s : FlatField.stacks) (g : Z) :
  0 <= g <= 2 ->
  DustSpecks.for_each (FlatField.assign_step n vals flat_cube) 0 flat_X
    (FlatField.empty_stacks n) = Ok s ->
  exists frames,
    Forall2 (filed n flat_cube) (members vals g 0 flat_X) frames /\
    (length frames <= 5)%nat /\
    counter_of g s = length frames /\
    stack_of g s = frames ++ repeat (DarkSubtract.np_zeros2 n n) (5 - length frames).
Proof.
  intros Hg H.
  destruct (assign_loop_spec _ _ _ g _ _ _ _ Hg H) as (frames & Hmem & Hcnt & Hle & Hst).
  assert (Hc0 : counter_of g (FlatField.empty_stacks n) = 0%nat).
  { unfold counter_of. by repeat destruct (_ =? _). }
  assert (Hs0 : stack_of g (FlatField.empty_stacks n)
                = repeat (DarkSubtract.np_zeros2 n n) 5).
  { unfold stack_of. by repeat destruct (_ =? _). }
  rewrite Hc0 in Hcnt, Hst. rewrite Hs0 in Hle, Hst. simpl in Hcnt.
  rewrite repeat_length in Hle.
  exists frames. split; [done |]. split; [|split; [done |]].
  - destruct frames; [simpl; lia |]. rewrite <- Hcnt. by apply Hle.
  - rewrite Hst, Hcnt. by rewrite drop_repeat.
Qed.

(** X4: after the filing loop, the stack of group [g] (0, 1 or 2) holds
    the frames of the flats nearest to value number [g], in the order of
    [flat_list], followed by the zero frames it was allocated with; a
    completed loop has filed at most five flats per group. *)
Theorem flats_filed_under_nearest_value (n : nat) (vals : list Q)
    (flat_cube : list DarkSubtract.array2) (flat_X : list Q)
    (s : FlatField.stacks) (g : Z) :
  0 <= g <= 2 ->
  DustSpecks.for_each (FlatField.assign_step n vals flat_cube) 0 flat_X
    (FlatField.empty_stacks n) = Ok s ->
  exists frames,
    Forall2 (filed n flat_cube) (members vals g 0 flat_X) frames /\
    (length frames <= 5)%nat /\
    counter_of g s = length frames /\
    stack_of g s = frames ++ repeat (DarkSubtract.np_zeros2 n n) (5 - length frames).
Proof. apply assign_loop_from_empty. Qed.

Lemma pixel_zeros (ny nx i j : nat) :
  FlatField.pixel (DarkSubtract.np_zeros2 ny nx) i j = 0%Q.
Proof.
  unfold FlatField.pixel, DarkSubtract.np_zeros2.
  destruct (nth_in_or_default i (repeat (repeat 0%Q nx) ny) []) as [Hin | ->].
  - apply repeat_spec in Hin. rewrite Hin.
    destruct (nth_in_or_default j (repeat 0%Q nx) 0%Q) as [Hin' | ->]; [|done].
    by apply repeat_spec in Hin'.
  - by destruct j.
Qed.

Lemma stack_median_sparse (n : nat) (frames : list DarkSubtract.array2) :
  (length frames <= 2)%nat ->
  Forall (Forall (fun p => (p == 0)%Q))
    (FlatField.stack_median n
       (frames ++ repeat (DarkSubtract.np_zeros2 n n) (5 - length frames))).
Proof.
  intros Hlen. unfold FlatField.stack_median.
  apply Forall_forall. intros row Hrow.
  apply list_elem_of_fmap in Hrow as (i & -> & _).
  apply Forall_forall. intros p Hp.
  apply list_elem_of_fmap in Hp as (j & -> & _).
  destruct (np_median_majority_zero
              (map (fun f => FlatField.pixel f i j)
                   (frames ++ repeat (DarkSubtract.np_zeros2 n n)
                                     (5 - length frames))))
    as (m & -> & Hm); [|done].
  rewrite map_app, zeros_app, length_app, !length_map, repeat_length.
  assert (Hz : zeros (map (fun f => FlatField.pixel f i j)
                          (repeat (DarkSubtract.np_zeros2 n n) (5 - length frames)))
               = (5 - length frames)%nat).
  { induction (5 - length frames)%nat as [|k IH]; simpl; [done |].
    by rewrite pixel_zeros, IH. }
  rewrite Hz. lia.
Qed.

Lemma zeros_all (l : list Q) : Forall (fun p => (p == 0)%Q) l -> zeros l = length l.
Proof.
  induction 1 as [|x l Hx _ IH]; simpl; [done |].
  apply Qeq_bool_iff in Hx. by rewrite Hx, IH.
Qed.

Lemma gain_of_zero_frame (frame : DarkSubtract.array2) :
  Forall (Forall (fun p => (p == 0)%Q)) frame ->
  FlatField.gain frame = map (map (fun _ => FlatField.NaN)) frame.
Proof.
  intros Hz. unfold FlatField.gain.
  assert (Hall : Forall (fun p => (p == 0)%Q) (concat frame)).
  { apply Forall_forall. intros p Hp. apply elem_of_concat in Hp as (row & Hp & Hrow).
    rewrite Forall_forall in Hz. specialize (Hz row Hrow).
    rewrite Forall_forall in Hz. by apply Hz. }
  apply map_ext_in. intros row Hrow. apply list_elem_of_In in Hrow.
  apply map_ext_in. intros p Hp. apply list_elem_of_In in Hp.
  assert (Hpc : p ∈ concat frame) by (apply elem_of_concat; by exists row).
  destruct (np_median_majority_zero (concat frame)) as (m & -> & Hm).
  - rewrite zeros_all by done. destruct (concat frame); [by apply elem_of_nil in Hpc |].
    simpl. lia.
  - simpl. unfold FlatField.truediv.
    rewrite Forall_forall in Hall. specialize (Hall p Hpc).
    apply Qeq_bool_iff in Hm, Hall. by rewrite Hm, Hall.
Qed.

Lemma zip_with3_const {A B C D} (f : A -> B -> C -> D) (d : D)
    (la : list A) (lb : list B) (lc : list C) (n : nat) :
  length la = n -> length lb = n -> length lc = n ->
  (forall a b c, a ∈ la -> b ∈ lb -> c ∈ lc -> f a b c = d) ->
  FlatField.zip_with3 f la lb lc = repeat d n.
Proof.
  revert la lb lc. induction n as [|n IH]; intros [|a la] [|b lb] [|c lc]; try done.
  simpl. intros [= Ha] [= Hb] [= Hc] Hf. unfold FlatField.zip_with3 in *. simpl.
  rewrite (Hf a b c) by apply list_elem_of_here. f_equal.
  apply IH; try done. intros a' b' c' Ha' Hb' Hc'.
  apply Hf; by apply list_elem_of_further.
Qed.

Lemma gain_shape (n : nat) (cube : list DarkSubtract.array2) :
  length (FlatField.gain (FlatField.stack_median n cube)) = n /\
  Forall (fun row => length row = n) (FlatField.gain (FlatField.stack_median n cube)).
Proof.
  unfold FlatField.gain, FlatField.stack_median. cbv zeta.
  rewrite !length_map, length_seq. split; [done |].
  apply Forall_forall. intros row Hrow.
  apply list_elem_of_fmap in Hrow as (r & -> & Hr).
  apply list_elem_of_fmap in Hr as (i & -> & _).
  by rewrite !length_map, length_seq.
Qed.

Lemma median3_nan (a b c : FlatField.double) :
  a = FlatField.NaN \/ b = FlatField.NaN \/ c = FlatField.NaN ->
  FlatField.median3 a b c = FlatField.NaN.
Proof.
  unfold FlatField.median3. intros [-> | [-> | ->]]; simpl; [done | |].
  - by rewrite orb_true_r.
  - by rewrite !orb_true_r.
Qed.

Lemma sparse_gain_is_nan (n : nat) (frames : list DarkSubtract.array2) :
  (length frames <= 2)%nat ->
  forall row p,
    row ∈ FlatField.gain
            (FlatField.stack_median n
               (frames ++ repeat (DarkSubtract.np_zeros2 n n) (5 - length frames))) ->
    p ∈ row -> p = FlatField.NaN.
Proof.
  intros Hlen row p Hrow Hp.
  rewrite gain_of_zero_frame in Hrow by (by apply stack_median_sparse).
  apply list_elem_of_fmap in Hrow as (r & -> & _).
  by apply list_elem_of_fmap in Hp as (q & -> & _).
Qed.

Lemma sparse_master_flat_nan (com_sz : Z) (keys : FlatField.flat_keys)
    (flat_cube : list DarkSubtract.array2) (g : Z)
    (master_flat_frame : list (list FlatField.double)) :
  FlatField.master_flat_frame com_sz keys flat_cube = Ok master_flat_frame ->
  0 <= g <= 2 ->
  (length (members (Np.np_sort (FlatField.collect_values (FlatField.atol keys)
                                  (FlatField.flat_X keys)))
                   g 0 (FlatField.flat_X keys)) <= 2)%nat ->
  master_flat_frame
  = repeat (repeat FlatField.NaN (Z.to_nat com_sz)) (Z.to_nat com_sz).
Proof.
  intros H Hg Hfew. unfold FlatField.master_flat_frame in H.
  apply bind_Ok in H as (x0 & _ & H). apply bind_Ok in H as (u & _ & H).
  apply bind_Ok in H as (s & Hloop & [= <-]).
  set (n := Z.to_nat com_sz) in *.
  destruct (assign_loop_from_empty _ _ _ _ _ g Hg Hloop)
    as (frames & Hmem & _ & _ & Hst).
  assert (Hlen : (length frames <= 2)%nat)
    by (by rewrite <- (Forall2_length _ _ _ Hmem)).
  pose proof (sparse_gain_is_nan n frames Hlen) as Hnan. rewrite <- Hst in Hnan.
  destruct (gain_shape n (FlatField.flat_tmp_cube_1 s)) as [H1 H1'].
  destruct (gain_shape n (FlatField.flat_tmp_cube_2 s)) as [H2 H2'].
  destruct (gain_shape n (FlatField.flat_tmp_cube_3 s)) as [H3 H3'].
  rewrite Forall_forall in H1', H2', H3'.
  apply zip_with3_const; try done. intros r1 r2 r3 Hr1 Hr2 Hr3.
  apply zip_with3_const; [by apply H1' | by apply H2' | by apply H3' |].
  intros a b c Ha Hb Hc. apply median3_nan.
  assert (Hcases : g = 0 \/ g = 1 \/ g = 2) by lia.
  destruct Hcases as [-> | [-> | ->]]; unfold stack_of in Hnan; simpl in Hnan.
  - left. by apply (Hnan r1).
  - right. left. by apply (Hnan r2).
  - right. right. by apply (Hnan r3).
Qed.

(** X5: when one of the three groups receives two flats or fewer (none,
    when the flats show fewer than three distinct values), the median of
    its stack is the zero frame, its gains are 0/0, and the master flat is
    NaN at every pixel. *)
Theorem sparse_group_spoils_master_flat (com_sz : Z) (keys : FlatField.flat_keys)
    (flat_cube : list DarkSubtract.array2) (g : Z)
    (master_flat_frame : list (list FlatField.double)) :
  FlatField.master_flat_frame com_sz keys flat_cube = Ok master_flat_frame ->
  0 <= g <= 2 ->
  (length (members (Np.np_sort (FlatField.collect_values (FlatField.atol keys)
                                  (FlatField.flat_X keys)))
                   g 0 (FlatField.flat_X keys)) <= 2)%nat ->
  master_flat_frame
  = repeat (repeat FlatField.NaN (Z.to_nat com_sz)) (Z.to_nat com_sz).
Proof. apply sparse_master_flat_nan. Qed.

Lemma np_where_nan (n m : nat) :
  BadPixels.np_where (repeat (repeat FlatField.NaN m) n) = [].
Proof.
  apply elem_of_nil_inv. intros [i j] Hij.
  apply elem_of_np_where in Hij as (row & g & Hrow & Hg & Hdev).
  apply lookup_repeat in Hrow as ->. by apply lookup_repeat in Hg as ->.
Qed.

Lemma map_seq_const {A} (x : A) (start n : nat) :
  map (fun _ => x) (seq start n) = repeat x n.
Proof.
  revert start. induction n as [|n IH]; intros start; simpl; [done | by rewrite IH].
Qed.

(** X6: [flat_field_correction] followed by [correct_bad_pixels]: with a
    group of two flats or fewer the bad pixel map is zero everywhere, so no
    pixel is flagged. *)
Theorem sparse_group_hides_bad_pixels (com_sz : Z) (keys : FlatField.flat_keys)
    (flat_cube : list DarkSubtract.array2) (g : Z)
    (master_flat_frame : list (list FlatField.double)) :
  FlatField.master_flat_frame com_sz keys flat_cube = Ok master_flat_frame ->
  0 <= g <= 2 ->
  (length (members (Np.np_sort (FlatField.collect_values (FlatField.atol keys)
                                  (FlatField.flat_X keys)))
                   g 0 (FlatField.flat_X keys)) <= 2)%nat ->
  BadPixels.make_bpix_map com_sz master_flat_frame
  = Ok (DarkSubtract.np_zeros2 (Z.to_nat com_sz) (Z.to_nat com_sz)).
Proof.
  intros H Hg Hfew.
  rewrite (sparse_master_flat_nan _ _ _ _ _ H Hg Hfew).
  unfold FlatField.master_flat_frame in H.
  apply bind_Ok in H as (x0 & _ & H). apply bind_Ok in H as (u & Hsz & _).
  apply np_alloc_Ok in Hsz.
  unfold BadPixels.make_bpix_map, FirstFrames.np_alloc.
  replace (com_sz <? 0) with false by (symmetry; apply Z.ltb_ge; lia).
  cbn [mbind result_bind]. rewrite np_where_nan. simpl forallb. cbv iota.
  f_equal. unfold DarkSubtract.np_zeros2.
  rewrite <- (map_seq_const _ 0). apply map_ext. intros i.
  rewrite <- (map_seq_const _ 0). apply map_ext. intros j.
  case_bool_decide as Hmem; [by apply elem_of_nil in Hmem | done].
Qed.

Lemma master_median_is_zero_witness :
  (3 <= 4)%nat /\
  exists m, BadPixels.master_median 4 sample_bpix_cube [2; 3] 7 = Ok m /\
            DustSpecks.shape m = [1; 2]%nat.
Proof.
  assert (Hn : (3 <= 4)%nat) by lia. split; [exact Hn |].
  destruct (BadPixels.master_median 4 sample_bpix_cube [2; 3] 7) as [m|e] eqn:E;
    [|vm_compute in E; discriminate].
  exists m. split; [reflexivity |].
  destruct (master_median_is_zero _ _ _ _ _ Hn E)
    as (n_z & n_y & n_x & Hcube & Hm & _).
  injection Hcube as _ <- <-. exact Hm.
Defined.

Lemma bpix_map_flags_out_of_range_witness :
  0 <= 2 /\ length sample_master_flat = Z.to_nat 2 /\
  Forall (fun row => length row = Z.to_nat 2) sample_master_flat /\
  exists bpix_map, BadPixels.make_bpix_map 2 sample_master_flat = Ok bpix_map.
Proof.
  assert (H0 : 0 <= 2) by lia.
  assert (H1 : length sample_master_flat = Z.to_nat 2) by reflexivity.
  assert (H2 : Forall (fun row => length row = Z.to_nat 2) sample_master_flat)
    by (repeat constructor).
  split; [exact H0 |]. split; [exact H1 |]. split; [exact H2 |].
  destruct (bpix_map_flags_out_of_range 2 sample_master_flat H0 H1 H2)
    as (bpix_map & Hmap & _).
  by exists bpix_map.
Defined.

Lemma flat_values_cover_and_separate_witness :
  (0 <= 1 # 10)%Q /\
  separated (1 # 10) (FlatField.collect_values (1 # 10) [1; 1; 1; 2; 2; 2]%Q).
Proof.
  assert (Ha : (0 <= 1 # 10)%Q) by discriminate. split; [exact Ha |].
  exact (proj1 (proj2 (flat_values_cover_and_separate (1 # 10)
                         [1; 1; 1; 2; 2; 2]%Q Ha))).
Defined.

Lemma flats_filed_under_nearest_value_witness :
  0 <= 1 <= 2 /\
  exists s, DustSpecks.for_each
              (FlatField.assign_step 2 [1; 2]%Q sample_flat_cube) 0
              [1; 1; 1; 2; 2; 2]%Q (FlatField.empty_stacks 2) = Ok s /\
            counter_of 1 s = 3%nat.
Proof.
  assert (Hg : 0 <= 1 <= 2) by lia. split; [exact Hg |].
  destruct (DustSpecks.for_each
              (FlatField.assign_step 2 [1; 2]%Q sample_flat_cube) 0
              [1; 1; 1; 2; 2; 2]%Q (FlatField.empty_stacks 2)) as [s|e] eqn:E;
    [|vm_compute in E; discriminate].
  exists s. split; [reflexivity |].
  destruct (flats_filed_under_nearest_value _ _ _ _ _ 1 Hg E)
    as (frames & Hmem & _ & -> & _).
  by rewrite <- (Forall2_length _ _ _ Hmem).
Defined.

Lemma sparse_group_spoils_master_flat_witness :
  exists mff,
    FlatField.master_flat_frame 2 sample_keys sample_flat_cube = Ok mff /\
    0 <= 2 <= 2 /\
    mff = repeat (repeat FlatField.NaN 2) 2.
Proof.
  destruct (FlatField.master_flat_frame 2 sample_keys sample_flat_cube)
    as [mff|e] eqn:E; [|vm_compute in E; discriminate].
  assert (Hg : 0 <= 2 <= 2) by lia.
  exists mff. split; [reflexivity |]. split; [exact Hg |].
  apply (sparse_group_spoils_master_flat _ _ _ _ _ E Hg).
  vm_compute. lia.
Defined.

Lemma sparse_group_hides_bad_pixels_witness :
  exists mff,
    FlatField.master_flat_frame 2 sample_keys sample_flat_cube = Ok mff /\
    0 <= 2 <= 2 /\
    BadPixels.make_bpix_map 2 mff = Ok (DarkSubtract.np_zeros2 2 2).
Proof.
  destruct (FlatField.master_flat_frame 2 sample_keys sample_flat_cube)
    as [mff|e] eqn:E; [|vm_compute in E; discriminate].
  assert (Hg : 0 <= 2 <= 2) by lia.
  exists mff. split; [reflexivity |]. split; [exact Hg |].
  apply (sparse_group_hides_bad_pixels _ _ _ _ _ E Hg).
  vm_compute. lia.
Defined.

(** ** The masks of [dark_subtract] *)

Lemma fill_lookup (v : Q) (a : DarkSubtract.array2) (r0 r1 c0 c1 : option Z)
    (i j : nat) (row : list Q) (p : Q) :
  a !! i = Some row -> row !! j = Some p ->
  exists row',
    DarkMasks.fill v a r0 r1 c0 c1 !! i = Some row' /\
    length row' = length row /\
    row' !! j = Some (if (DarkMasks.lower_bound r0 (length a) <=? i)%nat
                         && (i <? DarkMasks.upper_bound r1 (length a))%nat
                         && (DarkMasks.lower_bound c0 (length row) <=? j)%nat
                         && (j <? DarkMasks.upper_bound c1 (length row))%nat
                      then v else p).
Proof.
  intros Hrow Hp. unfold DarkMasks.fill, DarkSubtract.array2 in *. cbv zeta.
  rewrite list_lookup_imap, Hrow. simpl.
  destruct ((DarkMasks.lower_bound r0 (length a) <=? i)%nat
            && (i <? DarkMasks.upper_bound r1 (length a))%nat) eqn:E.
  - eexists. split; [done |]. split; [by rewrite length_imap |].
    rewrite list_lookup_imap, Hp. simpl.
    by destruct ((DarkMasks.lower_bound c0 (length row) <=? j)%nat),
                (j <? DarkMasks.upper_bound c1 (length row))%nat.
  - by exists row.
Qed.

Lemma fill_length (v : Q) (a : DarkSubtract.array2) (r0 r1 c0 c1 : option Z) :
  length (DarkMasks.fill v a r0 r1 c0 c1) = length a.
Proof. unfold DarkMasks.fill. by rewrite length_imap. Qed.

Lemma slice_bound_nonneg (x : Z) (n i : nat) :
  0 <= x -> (i < n)%nat ->
  ((DarkSubtract.slice_bound x n <=? i)%nat = (x <=? Z.of_nat i)) /\
  ((i <? DarkSubtract.slice_bound x n)%nat = (Z.of_nat i <? x)).
Proof.
  intros Hx Hi. unfold DarkSubtract.slice_bound.
  replace (x <? 0) with false by (symmetry; apply Z.ltb_ge; lia).
  split.
  - destruct (x <=? Z.of_nat i) eqn:E.
    + apply Z.leb_le in E. apply Nat.leb_le. lia.
    + apply Z.leb_gt in E. apply Nat.leb_gt. lia.
  - destruct (Z.of_nat i <? x) eqn:E.
    + apply Z.ltb_lt in E. apply Nat.ltb_lt. lia.
    + apply Z.ltb_ge in E. apply Nat.ltb_ge. lia.
Qed.

Lemma zero_quadrant_lookup (cy cx : Q) (mask : DarkSubtract.array2)
    (quadrant : Z) (i j : nat) (row : list Q) (p : Q) :
  -1 <= Np.py_int cy -> -1 <= Np.py_int cx ->
  mask !! i = Some row -> row !! j = Some p ->
  exists row',
    DarkMasks.zero_quadrant cy cx mask quadrant !! i = Some row' /\
    row' !! j = Some (if quadrant =? quadrant_of cy cx i j then 0%Q else p).
Proof.
  intros Hcy Hcx Hrow Hp.
  pose proof (lookup_lt_Some _ _ _ Hrow) as Hi.
  pose proof (lookup_lt_Some _ _ _ Hp) as Hj.
  destruct (slice_bound_nonneg (Np.py_int cy + 1) (length mask) i ltac:(lia) Hi)
    as [Hy1 Hy2].
  destruct (slice_bound_nonneg (Np.py_int cx + 1) (length row) j ltac:(lia) Hj)
    as [Hx1 Hx2].
  assert (Hi' : (i <? length mask)%nat = true) by (by apply Nat.ltb_lt).
  assert (Hj' : (j <? length row)%nat = true) by (by apply Nat.ltb_lt).
  unfold DarkMasks.zero_quadrant, quadrant_of. cbv zeta.
  destruct (quadrant =? 1) eqn:E1; [apply Z.eqb_eq in E1 as -> |];
    [|destruct (quadrant =? 2) eqn:E2; [apply Z.eqb_eq in E2 as -> |];
      [|destruct (quadrant =? 3) eqn:E3; [apply Z.eqb_eq in E3 as -> |];
        [|destruct (quadrant =? 4) eqn:E4; [apply Z.eqb_eq in E4 as -> |]]]];
    cbn [Z.eqb Pos.eqb].
  - destruct (fill_lookup 0 mask (Some (Np.py_int cy + 1)) None
                (Some (Np.py_int cx + 1)) None i j row p Hrow Hp)
      as (row' & Hr' & _ & Hp').
    exists row'. split; [done |]. rewrite Hp'. f_equal.
    cbn [DarkMasks.lower_bound DarkMasks.upper_bound].
    rewrite Hy1, Hx1, Hi', Hj'.
    destruct (Z.leb_spec (Z.of_nat i) (Np.py_int cy)),
             (Z.leb_spec (Z.of_nat j) (Np.py_int cx)),
             (Z.leb_spec (Np.py_int cy + 1) (Z.of_nat i)),
             (Z.leb_spec (Np.py_int cx + 1) (Z.of_nat j)); simpl; (done || lia).
  - destruct (fill_lookup 0 mask (Some (Np.py_int cy + 1)) None None
                (Some (Np.py_int cx + 1)) i j row p Hrow Hp)
      as (row' & Hr' & _ & Hp').
    exists row'. split; [done |]. rewrite Hp'. f_equal.
    cbn [DarkMasks.lower_bound DarkMasks.upper_bound].
    rewrite Hy1, Hx2, Hi'.
    destruct (Z.leb_spec (Z.of_nat i) (Np.py_int cy)),
             (Z.leb_spec (Z.of_nat j) (Np.py_int cx)),
             (Z.leb_spec (Np.py_int cy + 1) (Z.of_nat i)),
             (Z.ltb_spec (Z.of_nat j) (Np.py_int cx + 1)); simpl; (done || lia).
  - destruct (fill_lookup 0 mask None (Some (Np.py_int cy + 1)) None
                (Some (Np.py_int cx + 1)) i j row p Hrow Hp)
      as (row' & Hr' & _ & Hp').
    exists row'. split; [done |]. rewrite Hp'. f_equal.
    cbn [DarkMasks.lower_bound DarkMasks.upper_bound].
    rewrite Hy2, Hx2.
    destruct (Z.leb_spec (Z.of_nat i) (Np.py_int cy)),
             (Z.leb_spec (Z.of_nat j) (Np.py_int cx)),
             (Z.ltb_spec (Z.of_nat i) (Np.py_int cy + 1)),
             (Z.ltb_spec (Z.of_nat j) (Np.py_int cx + 1)); simpl; (done || lia).
  - destruct (fill_lookup 0 mask None (Some (Np.py_int cy + 1))
                (Some (Np.py_int cx + 1)) None i j row p Hrow Hp)
      as (row' & Hr' & _ & Hp').
    exists row'. split; [done |]. rewrite Hp'. f_equal.
    cbn [DarkMasks.lower_bound DarkMasks.upper_bound].
    rewrite Hy2, Hx1, Hj'.
    destruct (Z.leb_spec (Z.of_nat i) (Np.py_int cy)),
             (Z.leb_spec (Z.of_nat j) (Np.py_int cx)),
             (Z.ltb_spec (Z.of_nat i) (Np.py_int cy + 1)),
             (Z.leb_spec (Np.py_int cx + 1) (Z.of_nat j)); simpl; (done || lia).
  - exists row. split; [done |]. rewrite Hp. f_equal.
    replace (quadrant =? _) with false; [done |].
    symmetry. apply Z.eqb_neq. apply Z.eqb_neq in E1, E2, E3, E4.
    repeat destruct (_ <=? _); lia.
Qed.

(** X7: after the loop over [bad_quadrant], the pixel [(i, j)] of a mask
    is 0 when its quadrant is listed and keeps its value otherwise;
    quadrants are numbered 1 to 4 around [(int(cy), int(cx))], the row and
    the column of the centre belonging to the lower and to the left ones. *)
Theorem bad_quadrants_zeroed (cy cx : Q) (bad_quadrant : list Z)
    (mask : DarkSubtract.array2) (i j : nat) (row : list Q) (p : Q) :
  -1 <= Np.py_int cy -> -1 <= Np.py_int cx ->
  mask !! i = Some row -> row !! j = Some p ->
  exists row',
    DarkMasks.exclude_quadrants cy cx bad_quadrant mask !! i = Some row' /\
    row' !! j = Some (if bool_decide (quadrant_of cy cx i j ∈ bad_quadrant)
                      then 0%Q else p) /\
    1 <= quadrant_of cy cx i j <= 4.
Proof.
  intros Hcy Hcx. unfold DarkMasks.exclude_quadrants.
  revert mask row p. induction bad_quadrant as [|q rest IH]; intros mask row p Hrow Hp.
  - exists row. simpl. repeat split; try done; unfold quadrant_of;
      repeat destruct (_ <=? _); lia.
  - destruct (zero_quadrant_lookup cy cx mask q i j row p Hcy Hcx Hrow Hp)
      as (row1 & Hrow1 & Hp1).
    destruct (IH _ _ _ Hrow1 Hp1) as (row' & Hrow' & Hp' & Hq).
    exists row'. simpl. split; [done |]. split; [|done]. rewrite Hp'. f_equal.
    destruct (q =? quadrant_of cy cx i j) eqn:E.
    + apply Z.eqb_eq in E.
      rewrite (bool_decide_true (_ ∈ q :: rest))
        by (rewrite <- E; apply list_elem_of_here).
      by case_bool_decide.
    + apply Z.eqb_neq in E.
      rewrite (bool_decide_ext (_ ∈ q :: rest) (quadrant_of cy cx i j ∈ rest));
        [done |]. rewrite elem_of_cons.
      split; [intros [Heq | H]; [by symmetry in Heq | done] | by right].
Qed.

Lemma bad_quadrants_zeroed_witness :
  -1 <= Np.py_int (1 # 2) /\ -1 <= Np.py_int (1 # 2) /\
  exists row', DarkMasks.exclude_quadrants (1 # 2) (1 # 2) [3]
                 [[1; 1]; [1; 1]]%Q !! 0%nat = Some row' /\
               row' !! 0%nat = Some 0%Q.
Proof.
  assert (H1 : -1 <= Np.py_int (1 # 2)) by (vm_compute; discriminate).
  split; [exact H1 |]. split; [exact H1 |].
  destruct (bad_quadrants_zeroed (1 # 2) (1 # 2) [3] [[1; 1]; [1; 1]]%Q
              0 0 [1; 1]%Q 1%Q H1 H1 eq_refl eq_refl) as (row' & Hrow' & Hp' & _).
  exists row'. split; [exact Hrow' | exact Hp'].
Defined.

(** X8: [dark_subtract] brings an unsaturated cube and an unsaturated dark
    of the same side [nx] to the same side exactly when [nx] exceeds
    [com_sz], or equals it and is odd, or lies below it and is even; in the
    other cases the two sides differ by one pixel: below [com_sz] with [nx]
    odd the cube keeps [nx] and the dark gets [nx - 1], at [com_sz] with
    [nx] even the cube gets [nx - 1] and the dark keeps [nx]. *)
Theorem unsat_crop_sides_agree (com_sz nx : Z) :
  (DarkMasks.nx_unsat_crop com_sz nx = DarkMasks.unsat_dark_side com_sz nx <->
   com_sz < nx \/ (nx = com_sz /\ Z.odd nx = true)
   \/ (nx < com_sz /\ Z.even nx = true)) /\
  (DarkMasks.nx_unsat_crop com_sz nx <> DarkMasks.unsat_dark_side com_sz nx ->
   Z.abs (DarkMasks.nx_unsat_crop com_sz nx
          - DarkMasks.unsat_dark_side com_sz nx) = 1) /\
  (nx < com_sz -> Z.odd nx = true ->
   DarkMasks.nx_unsat_crop com_sz nx = nx /\
   DarkMasks.unsat_dark_side com_sz nx = nx - 1) /\
  (nx = com_sz -> Z.even nx = true ->
   DarkMasks.nx_unsat_crop com_sz nx = nx - 1 /\
   DarkMasks.unsat_dark_side com_sz nx = nx).
Proof.
  unfold DarkMasks.nx_unsat_crop, DarkMasks.unsat_dark_side.
  rewrite Zodd_mod, Zeven_mod.
  destruct (Z.ltb_spec nx com_sz), (Z.gtb_spec nx com_sz);
    destruct (Z.eqb_spec (nx mod 2) 0), (Z.eqb_spec (nx mod 2) 1);
    repeat split; intros;
    try (Z.div_mod_to_equations; lia);
    try (destruct_or?; destruct_and?; try discriminate; Z.div_mod_to_equations; lia).
Qed.

Lemma unsat_crop_sides_agree_witness :
  255 < 511 /\ Z.odd 255 = true /\
  DarkMasks.nx_unsat_crop 511 255 = 255 /\
  DarkMasks.unsat_dark_side 511 255 = 254.
Proof.
  assert (H1 : 255 < 511) by lia. assert (H2 : Z.odd 255 = true) by reflexivity.
  split; [exact H1 |]. split; [exact H2 |].
  exact (proj1 (proj2 (proj2 (unsat_crop_sides_agree 511 255))) H1 H2).
Defined.

(** ** What the offset objectives of [dark_subtract] sample *)

Lemma omap_where_zero (p : Q) (l : list (Q * Q)) :
  omap (fun '(m, p) => if Qeq_bool m 0 then None else Some p) ((0%Q, p) :: l)
  = omap (fun '(m, p) => if Qeq_bool m 0 then None else Some p) l.
Proof. reflexivity. Qed.

Lemma omap_where_one (p : Q) (l : list (Q * Q)) :
  omap (fun '(m, p) => if Qeq_bool m 0 then None else Some p) ((1%Q, p) :: l)
  = p :: omap (fun '(m, p) => if Qeq_bool m 0 then None else Some p) l.
Proof. reflexivity. Qed.

Lemma select_band_row (c0 c1 : nat) (frow : list Q) :
  omap (fun '(m, p) => if Qeq_bool m 0 then None else Some p)
       (zip (imap (fun j v => if (c0 <=? j)%nat && (j <? c1)%nat then 1%Q else v)
                  (repeat 0%Q (length frow)))
            frow)
  = take (c1 - c0) (drop c0 frow).
Proof.
  revert c0 c1. induction frow as [|p frow IH]; intros c0 c1.
  - by rewrite drop_nil, take_nil.
  - cbn [length repeat]. rewrite imap_cons. cbn [zip zip_with].
    destruct c0 as [|c0]; [destruct c1 as [|c1] |].
    + change ((0 <=? 0)%nat && (0 <? 0)%nat) with false. cbv iota.
      rewrite omap_where_zero. rewrite <- (IH 0%nat 0%nat) at 1.
      apply (f_equal (omap _)), (f_equal (fun x => zip x frow)), imap_ext.
      by intros j v _.
    + change ((0 <=? 0)%nat && (0 <? S c1)%nat) with true. cbv iota.
      rewrite omap_where_one. cbn [Nat.sub drop take]. f_equal.
      transitivity (take (c1 - 0) (drop 0 frow)); [|by rewrite Nat.sub_0_r].
      rewrite <- (IH 0%nat c1).
      apply (f_equal (omap _)), (f_equal (fun x => zip x frow)), imap_ext.
      by intros j v _.
    + change ((S c0 <=? 0)%nat && (0 <? c1)%nat) with (false && (0 <? c1)%nat).
      cbn [andb]. cbv iota. rewrite omap_where_zero. cbn [drop].
      replace (c1 - S c0)%nat with (c1 - 1 - c0)%nat by lia.
      rewrite <- (IH c0 (c1 - 1)%nat).
      apply (f_equal (omap _)), (f_equal (fun x => zip x frow)), imap_ext.
      intros j v _. simpl.
      assert ((S j <? c1)%nat = (j <? c1 - 1)%nat) as ->; [|done].
      destruct (Nat.ltb_spec (S j) c1), (Nat.ltb_spec j (c1 - 1)); (done || lia).
Qed.

Lemma select_band (r0 r1 c0 c1 n : nat) (frame : DarkSubtract.array2) :
  Forall (fun row => length row = n) frame ->
  concat (zip_with (fun mrow frow =>
                      omap (fun '(m, p) => if Qeq_bool m 0 then None else Some p)
                           (zip mrow frow))
            (imap (fun i (_ : list Q) =>
                     if (r0 <=? i)%nat && (i <? r1)%nat
                     then imap (fun j v => if (c0 <=? j)%nat && (j <? c1)%nat
                                           then 1%Q else v) (repeat 0%Q n)
                     else repeat 0%Q n)
                  (repeat (repeat 0%Q n) (length frame)))
            frame)
  = concat (map (fun frow => take (c1 - c0) (drop c0 frow))
                (take (r1 - r0) (drop r0 frame))).
Proof.
  intros Hrows. revert r0 r1.
  induction Hrows as [|frow frame Hlen _ IH]; intros r0 r1.
  - by rewrite drop_nil, take_nil.
  - cbn [length repeat]. rewrite imap_cons. cbn [zip_with concat].
    destruct r0 as [|r0]; [destruct r1 as [|r1] |].
    + change ((0 <=? 0)%nat && (0 <? 0)%nat) with false. cbv iota.
      rewrite select_where_zero_row. cbn [app take Nat.sub map concat].
      rewrite <- (IH 0%nat 0%nat) at 1.
      apply (f_equal (@concat Q)), (f_equal (fun x => zip_with _ x frame)), imap_ext.
      by intros i v _.
    + change ((0 <=? 0)%nat && (0 <? S r1)%nat) with true. cbv iota.
      rewrite <- Hlen, select_band_row, Hlen.
      cbn [Nat.sub drop take map concat]. f_equal.
      transitivity (concat (map (fun frow => take (c1 - c0) (drop c0 frow))
                              (take (r1 - 0) (drop 0 frame))));
        [|by rewrite Nat.sub_0_r].
      rewrite <- (IH 0%nat r1).
      apply (f_equal (@concat Q)), (f_equal (fun x => zip_with _ x frame)), imap_ext.
      by intros i v _.
    + change ((S r0 <=? 0)%nat && (0 <? r1)%nat) with (false && (0 <? r1)%nat).
      cbn [andb]. cbv iota. rewrite select_where_zero_row. cbn [app drop].
      replace (r1 - S r0)%nat with (r1 - 1 - r0)%nat by lia.
      rewrite <- (IH r0 (r1 - 1)%nat).
      apply (f_equal (@concat Q)), (f_equal (fun x => zip_with _ x frame)), imap_ext.
      intros i v _. simpl.
      assert ((S i <? r1)%nat = (i <? r1 - 1)%nat) as ->; [|done].
      destruct (Nat.ltb_spec (S i) r1), (Nat.ltb_spec i (r1 - 1)); (done || lia).
Qed.

(** Where the mask is a band of ones on a zero frame, the selection is the
    same band of the frame, row after row. *)
Lemma select_where_fill_ones (n : nat) (r0 r1 c0 c1 : Z)
    (frame : DarkSubtract.array2) :
  length frame = n -> Forall (fun row => length row = n) frame ->
  DarkSubtract.select_where
    (DarkSubtract.fill_ones (DarkSubtract.np_zeros2 n n) r0 r1 c0 c1) frame
  = concat (map (fun frow => take (DarkSubtract.slice_bound c1 n
                                   - DarkSubtract.slice_bound c0 n)
                                  (drop (DarkSubtract.slice_bound c0 n) frow))
                (take (DarkSubtract.slice_bound r1 n - DarkSubtract.slice_bound r0 n)
                      (drop (DarkSubtract.slice_bound r0 n) frame))).
Proof.
  intros Hlen Hrows. rewrite <- (select_band _ _ _ _ n) by done.
  unfold DarkSubtract.select_where, DarkSubtract.fill_ones, DarkSubtract.np_zeros2.
  cbv zeta. rewrite repeat_length, Hlen.
  apply (f_equal (@concat Q)), (f_equal (fun x => zip_with _ x frame)), imap_ext.
  intros i row Hrow. apply lookup_repeat in Hrow as ->.
  by rewrite repeat_length.
Qed.

Lemma length_concat_band (n h w r : nat) (frame : DarkSubtract.array2) :
  Forall (fun row => length row = n) frame ->
  (r + h <= length frame)%nat -> (w <= n)%nat ->
  forall c, (c + w <= n)%nat ->
  length (concat (map (fun frow => take w (drop c frow)) (take h (drop r frame))))
  = (h * w)%nat.
Proof.
  intros Hrows Hh Hw c Hc.
  assert (Hall : Forall (fun l => length l = w)
                   (map (fun frow => take w (drop c frow)) (take h (drop r frame)))).
  { apply Forall_forall. intros l Hl.
    apply list_elem_of_fmap in Hl as (frow & -> & Hin).
    apply list_elem_of_lookup in Hin as [k Hk].
    apply lookup_take_Some in Hk as [Hk _]. rewrite lookup_drop in Hk.
    apply list_elem_of_lookup_2 in Hk as Hin. rewrite Forall_forall in Hrows.
    rewrite length_take, length_drop, (Hrows frow Hin). lia. }
  assert (Hcount : length (map (fun frow => take w (drop c frow))
                              (take h (drop r frame))) = h).
  { rewrite length_map, length_take, length_drop. lia. }
  revert Hall Hcount. generalize (map (fun frow => take w (drop c frow))
                                      (take h (drop r frame))).
  intros ls Hall. revert h Hh. induction Hall as [|l ls Hl _ IH]; intros h Hh Hcount.
  - simpl in *. subst. done.
  - simpl in *. destruct h as [|h]; [done |]. rewrite length_app, Hl.
    rewrite (IH h); [lia | lia | lia].
Qed.

Lemma recentre_shape (med_diff guess : Q) (frame : DarkSubtract.array2) (n : nat) :
  length frame = n -> Forall (fun row => length row = n) frame ->
  length (DarkSubtract.recentre med_diff guess frame) = n /\
  Forall (fun row => length row = n) (DarkSubtract.recentre med_diff guess frame).
Proof.
  intros Hlen Hrows. unfold DarkSubtract.recentre. split; [by rewrite length_map |].
  apply Forall_forall. intros row Hrow.
  apply list_elem_of_fmap in Hrow as (r & -> & Hr).
  rewrite length_map. rewrite Forall_forall in Hrows. by apply Hrows.
Qed.

Lemma py_int_half (k : Z) : 0 <= k -> Np.py_int (inject_Z k / 2) = k / 2.
Proof.
  intros Hk. unfold Np.py_int. simpl. rewrite Z.mul_1_r.
  by apply Z.quot_div_nonneg.
Qed.

(** X9: when the band of 46 rows around the centre fits in the frame and
    [com_sz] is not 734, the flat objective returns the scatter of the
    pixels of that band, rows [int(cy)-23 .. int(cy)+22] and the first
    [com_sz - crop] columns of the recentred residual, [46 * (com_sz -
    crop)] values; it returns a number, not NaN, and raises nothing. *)
Theorem flat_objective_samples_band (pca_median : Q -> DarkSubtract.array2)
    (std : list Q -> Q) (com_sz : Z) (cy med_diff guess : Q)
    (mask : DarkSubtract.array2) (crop : Z) :
  DarkSubtract.make_mask_std com_sz cy = Ok (mask, crop) ->
  23 <= Np.py_int cy -> Np.py_int cy + 23 <= com_sz -> com_sz <> 734 ->
  length (pca_median guess) = Z.to_nat com_sz ->
  Forall (fun row => length row = Z.to_nat com_sz) (pca_median guess) ->
  let subframe :=
    concat (map (fun frow => take (Z.to_nat (com_sz - crop)) frow)
                (take 46 (drop (Z.to_nat (Np.py_int cy - 23))
                               (DarkSubtract.recentre med_diff guess
                                  (pca_median guess))))) in
  0 <= crop < com_sz /\
  length subframe = (46 * Z.to_nat (com_sz - crop))%nat /\
  DarkSubtract._get_test_diff_flat pca_median std mask com_sz crop med_diff guess
  = Ok (Some (std subframe)).
Proof.
  intros Hmask Hlo Hhi H734 Hlen Hrows subframe.
  set (n := Z.to_nat com_sz) in *.
  destruct (recentre_shape med_diff guess _ n Hlen Hrows) as [Hlen' Hrows'].
  set (frame := DarkSubtract.recentre med_diff guess (pca_median guess)) in *.
  unfold DarkSubtract.make_mask_std, FirstFrames.np_alloc in Hmask.
  replace (com_sz <? 0) with false in Hmask by (symmetry; apply Z.ltb_ge; lia).
  cbn [mbind result_bind] in Hmask. fold n in Hmask.
  assert (Hr0 : DarkSubtract.slice_bound (Np.py_int cy - 23) n
                = Z.to_nat (Np.py_int cy - 23)).
  { unfold DarkSubtract.slice_bound.
    replace (Np.py_int cy - 23 <? 0) with false by (symmetry; apply Z.ltb_ge; lia).
    lia. }
  assert (Hr1 : DarkSubtract.slice_bound (Np.py_int cy + 23) n
                = Z.to_nat (Np.py_int cy + 23)).
  { unfold DarkSubtract.slice_bound.
    replace (Np.py_int cy + 23 <? 0) with false by (symmetry; apply Z.ltb_ge; lia).
    lia. }
  assert (Hc0 : DarkSubtract.slice_bound 0 n = 0%nat)
    by (unfold DarkSubtract.slice_bound; simpl; lia).
  assert (Hsel : 0 <= crop < com_sz /\
            DarkSubtract.select_where mask frame = subframe).
  { destruct (com_sz <=? 733) eqn:E; injection Hmask as <- <-.
    - apply Z.leb_le in E. split; [lia |].
      rewrite select_where_fill_ones by done. rewrite Hr0, Hr1, Hc0.
      assert (Hc1 : DarkSubtract.slice_bound com_sz n = n).
      { unfold DarkSubtract.slice_bound.
        replace (com_sz <? 0) with false by (symmetry; apply Z.ltb_ge; lia). lia. }
      rewrite Hc1. unfold subframe.
      replace (Z.to_nat (Np.py_int cy + 23) - Z.to_nat (Np.py_int cy - 23))%nat
        with 46%nat by lia.
      by rewrite Z.sub_0_r, Nat.sub_0_r.
    - apply Z.leb_gt in E. unfold subframe. rewrite !py_int_half by lia.
      assert (Hcrop : 1 <= (com_sz - 733) / 2 < com_sz)
        by (Z.div_mod_to_equations; lia).
      split; [lia |].
      rewrite select_where_fill_ones by done. rewrite Hr0, Hr1, Hc0.
      assert (Hc1 : DarkSubtract.slice_bound (- ((com_sz - 733) / 2)) n
                    = Z.to_nat (com_sz - (com_sz - 733) / 2)).
      { unfold DarkSubtract.slice_bound.
        replace (- ((com_sz - 733) / 2) <? 0) with true
          by (symmetry; apply Z.ltb_lt; lia). lia. }
      rewrite Hc1. unfold subframe.
      replace (Z.to_nat (Np.py_int cy + 23) - Z.to_nat (Np.py_int cy - 23))%nat
        with 46%nat by lia.
      by rewrite Nat.sub_0_r. }
  destruct Hsel as [Hcrop Hsel]. split; [done |].
  assert (Hsub : length subframe = (46 * Z.to_nat (com_sz - crop))%nat).
  { unfold subframe. change (fun frow : list Q => take ?k frow)
      with (fun frow : list Q => take k (drop 0 frow)).
    apply (length_concat_band n); try done; rewrite ?Hlen'; lia. }
  split; [done |].
  unfold DarkSubtract._get_test_diff_flat. fold frame. rewrite Hsel.
  unfold DarkSubtract.reshape_infer. rewrite Hsub.
  replace (0 <? com_sz - crop) with true by (symmetry; apply Z.ltb_lt; lia).
  replace (Z.of_nat (46 * Z.to_nat (com_sz - crop)) mod (com_sz - crop) =? 0)
    with true.
  2:{ symmetry. apply Z.eqb_eq.
      rewrite Nat2Z.inj_mul, Z2Nat.id by lia. apply Z.mod_mul. lia. }
  cbn [andb mbind result_bind]. unfold DarkSubtract.np_std.
  destruct subframe; [simpl in Hsub; lia | done].
Qed.

Lemma slice_bound_le (i : Z) (n : nat) : (DarkSubtract.slice_bound i n <= n)%nat.
Proof. unfold DarkSubtract.slice_bound. destruct (i <? 0); lia. Qed.

(** X10: when the band of 46 rows fits in the frame, the science objective
    returns the scatter of rows [int(cy)-23 .. int(cy)+22] and columns
    [int(cx-outer_rad) .. int(cx+outer_rad)-1] of the recentred residual,
    the column bounds clipped to the frame; a negative lower bound counts
    from the right edge, as a slice does. *)
Theorem sci_objective_samples_band (pca_median : Q -> DarkSubtract.array2)
    (std : list Q -> Q) (com_sz : Z) (cy cx outer_rad med_diff guess : Q)
    (mask_sci : DarkSubtract.array2) :
  DarkMasks.make_mask_sci com_sz cy cx outer_rad = Ok mask_sci ->
  23 <= Np.py_int cy -> Np.py_int cy + 23 <= com_sz ->
  length (pca_median guess) = Z.to_nat com_sz ->
  Forall (fun row => length row = Z.to_nat com_sz) (pca_median guess) ->
  let lo := Np.py_int (cx - outer_rad) in
  let hi := Np.py_int (cx + outer_rad) in
  let c0 := DarkSubtract.slice_bound lo (Z.to_nat com_sz) in
  let c1 := DarkSubtract.slice_bound hi (Z.to_nat com_sz) in
  let subframe :=
    concat (map (fun frow => take (c1 - c0) (drop c0 frow))
                (take 46 (drop (Z.to_nat (Np.py_int cy - 23))
                               (DarkSubtract.recentre med_diff guess
                                  (pca_median guess))))) in
  Z.of_nat c0 = (if lo <? 0 then Z.max (lo + com_sz) 0 else Z.min lo com_sz) /\
  length subframe = (46 * (c1 - c0))%nat /\
  DarkSubtract._get_test_diff_sci pca_median std mask_sci med_diff guess
  = Ok (DarkSubtract.np_std std subframe).
Proof.
  intros Hmask Hlo Hhi Hlen Hrows lo hi c0 c1 subframe.
  set (n := Z.to_nat com_sz) in *.
  destruct (recentre_shape med_diff guess _ n Hlen Hrows) as [Hlen' Hrows'].
  set (frame := DarkSubtract.recentre med_diff guess (pca_median guess)) in *.
  unfold DarkMasks.make_mask_sci, FirstFrames.np_alloc in Hmask.
  replace (com_sz <? 0) with false in Hmask by (symmetry; apply Z.ltb_ge; lia).
  cbn [mbind result_bind] in Hmask. fold n in Hmask. injection Hmask as <-.
  assert (Hr0 : DarkSubtract.slice_bound (Np.py_int cy - 23) n
                = Z.to_nat (Np.py_int cy - 23)).
  { unfold DarkSubtract.slice_bound.
    replace (Np.py_int cy - 23 <? 0) with false by (symmetry; apply Z.ltb_ge; lia).
    lia. }
  assert (Hr1 : DarkSubtract.slice_bound (Np.py_int cy + 23) n
                = Z.to_nat (Np.py_int cy + 23)).
  { unfold DarkSubtract.slice_bound.
    replace (Np.py_int cy + 23 <? 0) with false by (symmetry; apply Z.ltb_ge; lia).
    lia. }
  assert (Hsel : DarkSubtract.select_where
                   (DarkSubtract.fill_ones (DarkSubtract.np_zeros2 n n)
                      (Np.py_int cy - 23) (Np.py_int cy + 23) lo hi) frame
                 = subframe).
  { rewrite select_where_fill_ones by done. rewrite Hr0, Hr1. unfold subframe.
    by replace (Z.to_nat (Np.py_int cy + 23) - Z.to_nat (Np.py_int cy - 23))%nat
      with 46%nat by lia. }
  pose proof (slice_bound_le lo n) as Hc0. pose proof (slice_bound_le hi n) as Hc1.
  fold c0 in Hc0. fold c1 in Hc1.
  assert (Hsub : length subframe = (46 * (c1 - c0))%nat).
  { unfold subframe. apply (length_concat_band n); try done; rewrite ?Hlen'; lia. }
  split; [|split; [done |]].
  - unfold c0, DarkSubtract.slice_bound, n. destruct (Z.ltb_spec lo 0); lia.
  - unfold DarkSubtract._get_test_diff_sci. fold frame. fold lo hi. rewrite Hsel.
    unfold DarkSubtract.reshape_infer. rewrite Hsub.
    replace (Z.of_nat (46 * (c1 - c0)) mod 46 =? 0) with true; [done |].
    symmetry. apply Z.eqb_eq. rewrite Nat2Z.inj_mul, Z.mul_comm.
    by apply Z.mod_mul.
Qed.

Lemma flat_objective_samples_band_witness :
  exists mask crop v,
    DarkSubtract.make_mask_std 46 23 = Ok (mask, crop) /\
    23 <= Np.py_int 23 /\ Np.py_int 23 + 23 <= 46 /\ 46 <> 734 /\
    DarkSubtract._get_test_diff_flat band_residual rational_std mask 46 crop 0 0
    = Ok (Some v).
Proof.
  destruct (DarkSubtract.make_mask_std 46 23) as [[mask crop]|e] eqn:E;
    [|vm_compute in E; discriminate].
  assert (H1 : 23 <= Np.py_int 23) by (vm_compute; discriminate).
  assert (H2 : Np.py_int 23 + 23 <= 46) by (vm_compute; discriminate).
  assert (H3 : 46 <> 734) by discriminate.
  assert (H4 : length (band_residual 0) = Z.to_nat 46) by reflexivity.
  assert (H5 : Forall (fun row => length row = Z.to_nat 46) (band_residual 0))
    by (repeat constructor).
  destruct (flat_objective_samples_band band_residual rational_std 46 23 0 0
              mask crop E H1 H2 H3 H4 H5) as (_ & _ & Hobj).
  eexists mask, crop, _. split; [reflexivity |].
  split; [exact H1 |]. split; [exact H2 |]. split; [exact H3 |]. exact Hobj.
Defined.

Lemma sci_objective_samples_band_witness :
  exists mask_sci r,
    DarkMasks.make_mask_sci 46 23 (45 # 2) 10 = Ok mask_sci /\
    23 <= Np.py_int 23 /\ Np.py_int 23 + 23 <= 46 /\
    DarkSubtract._get_test_diff_sci band_residual rational_std mask_sci 0 0 = Ok r.
Proof.
  destruct (DarkMasks.make_mask_sci 46 23 (45 # 2) 10) as [mask_sci|e] eqn:E;
    [|vm_compute in E; discriminate].
  assert (H1 : 23 <= Np.py_int 23) by (vm_compute; discriminate).
  assert (H2 : Np.py_int 23 + 23 <= 46) by (vm_compute; discriminate).
  assert (H4 : length (band_residual 0) = Z.to_nat 46) by reflexivity.
  assert (H5 : Forall (fun row => length row = Z.to_nat 46) (band_residual 0))
    by (repeat constructor).
  destruct (sci_objective_samples_band band_residual rational_std 46 23 (45 # 2)
              10 0 0 mask_sci E H1 H2 H4 H5) as (_ & _ & Hobj).
  eexists mask_sci, _. split; [reflexivity |].
  split; [exact H1 |]. split; [exact H2 |]. exact Hobj.
Defined.

(** ** The mask of [fix_sporadic_columns] *)

Lemma py_range_up (start stop step : Z) :
  0 < step ->
  exists cols, SporadicColumns.py_range start stop step = Ok cols /\
    forall a, a ∈ cols <-> start <= a < stop /\ (a - start) mod step = 0.
Proof.
  intros Hstep. unfold SporadicColumns.py_range.
  replace (step =? 0) with false by (symmetry; apply Z.eqb_neq; lia).
  replace (0 <? step) with true by (symmetry; apply Z.ltb_lt; lia).
  eexists. split; [done |]. intros a. rewrite list_elem_of_fmap. split.
  - intros (k & -> & Hk). apply elem_of_seq in Hk.
    assert (Z.of_nat k < (stop - start + step - 1) / step) by lia.
    split.
    + assert (step * Z.of_nat k < stop - start); [|lia].
      Z.div_mod_to_equations. nia.
    + replace (start + step * Z.of_nat k - start) with (Z.of_nat k * step) by lia.
      apply Z.mod_mul. lia.
  - intros [[Hlo Hhi] Hmod].
    exists (Z.to_nat ((a - start) / step)).
    assert (Hq : 0 <= (a - start) / step) by (apply Z.div_pos; lia).
    split.
    + rewrite Z2Nat.id by done. Z.div_mod_to_equations. nia.
    + apply elem_of_seq. split; [lia |].
      assert ((a - start) / step < (stop - start + step - 1) / step); [|lia].
      Z.div_mod_to_equations. nia.
Qed.

Lemma set_column_spec (n : nat) (r0 r1 : Z) (mask : DarkSubtract.array2) (a : Z) :
  0 <= a < Z.of_nat n ->
  exists mask', SporadicColumns.set_column n r0 r1 mask a = Ok mask' /\
    forall i j row p, mask !! i = Some row -> row !! j = Some p ->
      exists row', mask' !! i = Some row' /\
        row' !! j = Some (if (DarkSubtract.slice_bound r0 n <=? i)%nat
                             && (i <? DarkSubtract.slice_bound r1 n)%nat
                             && bool_decide (Z.of_nat j = a)
                          then 1%Q else p).
Proof.
  intros Ha. unfold SporadicColumns.set_column.
  replace (- Z.of_nat n <=? a) with true by (symmetry; apply Z.leb_le; lia).
  replace (a <? Z.of_nat n) with true by (symmetry; apply Z.ltb_lt; lia).
  replace (a <? 0) with false by (symmetry; apply Z.ltb_ge; lia).
  eexists. split; [done |]. intros i j row p Hrow Hp.
  unfold DarkSubtract.array2 in *. rewrite list_lookup_imap, Hrow. simpl.
  destruct ((DarkSubtract.slice_bound r0 n <=? i)%nat
            && (i <? DarkSubtract.slice_bound r1 n)%nat).
  - eexists. split; [done |]. simpl. case_bool_decide as Hj.
    + replace (Z.to_nat a) with j by lia.
      apply list_lookup_insert_eq. by eapply lookup_lt_Some.
    + rewrite list_lookup_insert_ne by lia. done.
  - by exists row.
Qed.

Lemma set_columns_spec (n : nat) (r0 r1 : Z) (cols : list Z)
    (mask : DarkSubtract.array2) :
  (forall a, a ∈ cols -> 0 <= a < Z.of_nat n) ->
  exists mask', SporadicColumns.set_columns n r0 r1 mask cols = Ok mask' /\
    forall i j row p, mask !! i = Some row -> row !! j = Some p ->
      exists row', mask' !! i = Some row' /\
        row' !! j = Some (if (DarkSubtract.slice_bound r0 n <=? i)%nat
                             && (i <? DarkSubtract.slice_bound r1 n)%nat
                             && bool_decide (Z.of_nat j ∈ cols)
                          then 1%Q else p).
Proof.
  revert mask. induction cols as [|a cols IH]; intros mask Hcols.
  - exists mask. split; [done |]. intros i j row p Hrow Hp. exists row.
    split; [done |]. rewrite Hp. f_equal.
    rewrite (bool_decide_false (_ ∈ [])) by apply not_elem_of_nil.
    by rewrite andb_false_r.
  - destruct (set_column_spec n r0 r1 mask a) as (m1 & Hm1 & Hspec1);
      [apply Hcols, list_elem_of_here |].
    destruct (IH m1) as (m2 & Hm2 & Hspec2);
      [intros b Hb; by apply Hcols, list_elem_of_further |].
    exists m2. split; [simpl; by rewrite Hm1 |].
    intros i j row p Hrow Hp.
    destruct (Hspec1 i j row p Hrow Hp) as (row1 & Hrow1 & Hp1).
    destruct (Hspec2 i j row1 _ Hrow1 Hp1) as (row2 & Hrow2 & Hp2).
    exists row2. split; [done |]. rewrite Hp2. f_equal.
    destruct ((DarkSubtract.slice_bound r0 n <=? i)%nat
              && (i <? DarkSubtract.slice_bound r1 n)%nat); simpl;
      [|done].
    destruct (bool_decide (Z.of_nat j ∈ cols)) eqn:E1.
    + apply bool_decide_eq_true in E1.
      by rewrite (bool_decide_true (_ ∈ a :: cols)) by (by apply list_elem_of_further).
    + apply bool_decide_eq_false in E1. case_bool_decide as E2.
      * by rewrite (bool_decide_true (_ ∈ a :: cols))
          by (rewrite E2; apply list_elem_of_here).
      * rewrite (bool_decide_false (_ ∈ a :: cols)); [done |].
        rewrite elem_of_cons. by intros [? | ?].
Qed.

Lemma zeros2_lookup (n i j : nat) :
  (i < n)%nat -> (j < n)%nat ->
  DarkSubtract.np_zeros2 n n !! i = Some (repeat 0%Q n) /\
  repeat 0%Q n !! j = Some 0%Q.
Proof.
  intros Hi Hj. unfold DarkSubtract.np_zeros2.
  destruct (lookup_lt_is_Some_2 (repeat (repeat 0%Q n) n) i) as [row Hrow];
    [by rewrite repeat_length |].
  destruct (lookup_lt_is_Some_2 (repeat 0%Q n) j) as [p Hp];
    [by rewrite repeat_length |].
  pose proof (lookup_repeat _ _ _ _ Hrow) as ->.
  pose proof (lookup_repeat _ _ _ _ Hp) as ->. done.
Qed.

(** X11: the mask of [fix_sporadic_columns] holds 1 exactly on the columns
    [start, start + interval, ...] below [com_sz - 1], with [start =
    int(centerx + xpixels_from_center)], over the upper rows for 'topright'
    and the lower rows for 'bottomright'; for any other quadrant, the
    default 'topleft' included, the mask is zero everywhere. *)
Theorem bad_column_mask_marks_columns (quadrant : string) (com_sz : Z)
    (centerx : Q) (xpixels_from_center interval : Z) :
  0 <= com_sz -> 0 < interval ->
  0 <= Np.py_int (centerx + inject_Z xpixels_from_center) ->
  let start := Np.py_int (centerx + inject_Z xpixels_from_center) in
  exists mask,
    SporadicColumns.bad_column_mask quadrant com_sz centerx xpixels_from_center
      interval = Ok mask /\
    forall i j, Z.of_nat i < com_sz -> Z.of_nat j < com_sz ->
      exists row v,
        mask !! i = Some row /\ row !! j = Some v /\
        (v = 1%Q \/ v = 0%Q) /\
        (v = 1%Q <-> marked_rows quadrant com_sz i /\
                     start <= Z.of_nat j < com_sz - 1 /\
                     (Z.of_nat j - start) mod interval = 0).
Proof.
  intros Hsz Hstep Hstart start.
  unfold SporadicColumns.bad_column_mask, FirstFrames.np_alloc.
  replace (com_sz <? 0) with false by (symmetry; apply Z.ltb_ge; lia).
  cbn [mbind result_bind]. fold start.
  set (n := Z.to_nat com_sz). set (half := Np.py_int (inject_Z (com_sz - 1) / 2)).
  destruct (py_range_up start (com_sz - 1) interval Hstep) as (cols & Hcols & Hin).
  assert (Hrange : forall a, a ∈ cols -> 0 <= a < Z.of_nat n).
  { intros a Ha. apply Hin in Ha. lia. }
  assert (Hhalf : 1 <= com_sz -> half = (com_sz - 1) / 2).
  { intros H1. unfold half. apply py_int_half. lia. }
  assert (Hb : forall i, Z.of_nat i < com_sz ->
            ((DarkSubtract.slice_bound half n <=? i)%nat
             && (i <? DarkSubtract.slice_bound (com_sz - 1) n)%nat = true
             <-> half <= Z.of_nat i < com_sz - 1) /\
            ((DarkSubtract.slice_bound 0 n <=? i)%nat
             && (i <? DarkSubtract.slice_bound half n)%nat = true
             <-> Z.of_nat i < half)).
  { intros i Hi. specialize (Hhalf ltac:(lia)).
    assert (0 <= half < com_sz) by (rewrite Hhalf; Z.div_mod_to_equations; lia).
    destruct (slice_bound_nonneg half n i ltac:(lia) ltac:(lia)) as [-> ->].
    destruct (slice_bound_nonneg (com_sz - 1) n i ltac:(lia) ltac:(lia)) as [_ ->].
    destruct (slice_bound_nonneg 0 n i ltac:(lia) ltac:(lia)) as [-> _].
    rewrite !andb_true_iff, !Z.leb_le, !Z.ltb_lt. split; [done |].
    split; [by intros [_ ?] | intros ?; split; [lia | done]]. }
  destruct (decide (quadrant = "topright")) as [-> | Etop];
    [|destruct (decide (quadrant = "bottomright")) as [-> | Ebot]].
  - rewrite (bool_decide_true ("topright" = "topright")) by done.
    rewrite (bool_decide_false ("topright" = "bottomright")) by discriminate.
    rewrite Hcols. cbn [mbind result_bind].
    destruct (set_columns_spec n half (com_sz - 1) cols
                (DarkSubtract.np_zeros2 n n) Hrange) as (mask & -> & Hspec).
    exists mask. split; [done |].
    intros i j Hi Hj.
    destruct (zeros2_lookup n i j ltac:(lia) ltac:(lia)) as [Hrow Hp].
    destruct (Hspec i j _ _ Hrow Hp) as (row' & Hrow' & Hp').
    eexists row', _. split; [done |]. split; [exact Hp' |].
    destruct (Hb i Hi) as [Hband _]. unfold marked_rows. fold half.
    destruct (_ && _ && _) eqn:E.
    + split; [by left |]. split; [intros _ | done].
      apply andb_true_iff in E as [E1 E2]. apply bool_decide_eq_true in E2.
      apply Hband in E1. apply Hin in E2. split; [by left | done].
    + split; [by right |]. split; [done |].
      intros ([[_ Hr] | [? _]] & Hc); [|done].
      apply Hband in Hr. apply Hin, (bool_decide_eq_true_2 _) in Hc.
      by rewrite Hr, Hc in E.
  - rewrite (bool_decide_false ("bottomright" = "topright")) by discriminate.
    rewrite (bool_decide_true ("bottomright" = "bottomright")) by done.
    rewrite Hcols. cbn [mbind result_bind].
    destruct (set_columns_spec n 0 half cols
                (DarkSubtract.np_zeros2 n n) Hrange) as (mask & -> & Hspec).
    exists mask. split; [done |].
    intros i j Hi Hj.
    destruct (zeros2_lookup n i j ltac:(lia) ltac:(lia)) as [Hrow Hp].
    destruct (Hspec i j _ _ Hrow Hp) as (row' & Hrow' & Hp').
    eexists row', _. split; [done |]. split; [exact Hp' |].
    destruct (Hb i Hi) as [_ Hband]. unfold marked_rows. fold half.
    destruct (_ && _ && _) eqn:E.
    + split; [by left |]. split; [intros _ | done].
      apply andb_true_iff in E as [E1 E2]. apply bool_decide_eq_true in E2.
      apply Hband in E1. apply Hin in E2. split; [by right | done].
    + split; [by right |]. split; [done |].
      intros ([[? _] | [_ Hr]] & Hc); [done |].
      apply Hband in Hr. apply Hin, (bool_decide_eq_true_2 _) in Hc.
      by rewrite Hr, Hc in E.
  - rewrite !bool_decide_false by done.
    exists (DarkSubtract.np_zeros2 n n). split; [done |].
    intros i j Hi Hj.
    destruct (zeros2_lookup n i j ltac:(lia) ltac:(lia)) as [Hrow Hp].
    eexists _, _. split; [done |]. split; [exact Hp |].
    split; [by right |]. split; [done |].
    by intros ([[? _] | [? _]] & _).
Qed.

Lemma bad_column_mask_marks_columns_witness :
  0 <= 20 /\ 0 < 8 /\ 0 <= Np.py_int ((19 # 2) + inject_Z 2) /\
  exists mask,
    SporadicColumns.bad_column_mask "topright" 20 (19 # 2) 2 8 = Ok mask.
Proof.
  assert (H1 : 0 <= 20) by lia. assert (H2 : 0 < 8) by lia.
  assert (H3 : 0 <= Np.py_int ((19 # 2) + inject_Z 2)) by (vm_compute; discriminate).
  split; [exact H1 |]. split; [exact H2 |]. split; [exact H3 |].
  destruct (bad_column_mask_marks_columns "topright" 20 (19 # 2) 2 8 H1 H2 H3)
    as (mask & Hmask & _).
  by exists mask.
Defined.

(** ** [get_stellar_psf] *)

Lemma within_3_sigma_needs_scatter (med_flux : option Q) (std_flux flux : Q) :
  (std_flux <= 0)%Q -> StellarPsf.within_3_sigma med_flux std_flux flux = false.
Proof.
  intros Hstd. unfold StellarPsf.within_3_sigma. destruct med_flux as [med|]; [|done].
  destruct (Np.Qltb flux (med + 3 * std_flux)) eqn:E1; [|done].
  destruct (Np.Qltb (med - 3 * std_flux) flux) eqn:E2; [|done].
  apply Qltb_lt in E1, E2. lra.
Qed.

(** X12: when the fluxes of the unsaturated cubes show no scatter
    ([std_flux] is zero, as it is with a single cube), no cube passes the
    strict 3-sigma test: [good_unsat_list] and [good_unsat_pos] are
    empty. *)
Theorem no_scatter_no_good_cube (med_flux : option Q) (std_flux : Q)
    (flux_list : list Q) (unsat_list : list string) (unsat_pos : list (Z * Z)) :
  (std_flux <= 0)%Q ->
  StellarPsf.good_unsat med_flux std_flux flux_list unsat_list unsat_pos
  = Ok ([], []).
Proof.
  intros Hstd. unfold StellarPsf.good_unsat.
  generalize (@nil string, @nil (Z * Z)). generalize 0%nat.
  induction flux_list as [|flux rest IH]; intros i acc; simpl; [done |].
  rewrite within_3_sigma_needs_scatter by done. simpl. apply IH.
Qed.

Lemma no_scatter_no_good_cube_witness :
  (0 <= 0)%Q /\
  StellarPsf.good_unsat (Some 5%Q) 0 [5%Q] ["unsat_1.fits"] [(10, 12)]
  = Ok ([], []).
Proof.
  assert (H : (0 <= 0)%Q) by discriminate. split; [exact H |].
  exact (no_scatter_no_good_cube (Some 5%Q) 0 [5%Q] ["unsat_1.fits"] [(10, 12)] H).
Defined.

Lemma first_within_Some (thr_d : Q) (pos : Z * Z) (unique_pos : list (Z * Z))
    (i : nat) :
  StellarPsf.first_within thr_d pos unique_pos = Some i ->
  exists uni, unique_pos !! i = Some uni /\ within thr_d pos uni /\
    forall d' uni', (d' < i)%nat -> unique_pos !! d' = Some uni' ->
                    ~ within thr_d pos uni'.
Proof.
  unfold StellarPsf.first_within. intros H.
  apply fmap_Some in H as ([i' uni] & Hfind & ->).
  apply list_find_Some in Hfind as (Hi & Hw & Hbefore).
  exists uni. split; [done |]. split; [done |].
  intros d' uni' Hd Hu. by apply (Hbefore d').
Qed.

Lemma first_within_None (thr_d : Q) (pos : Z * Z) (unique_pos : list (Z * Z)) :
  StellarPsf.first_within thr_d pos unique_pos = None ->
  forall d' uni', unique_pos !! d' = Some uni' -> ~ within thr_d pos uni'.
Proof.
  unfold StellarPsf.first_within. intros H d' uni' Hu.
  apply fmap_None, list_find_None in H. rewrite Forall_forall in H.
  apply H. by eapply list_elem_of_lookup_2.
Qed.

Lemma dither_fold (thr_d : Q) (rest positions : list (Z * Z))
    (index_dither : list nat) (unique_pos : list (Z * Z)) (counter : nat) :
  counter = length unique_pos ->
  dither_invariant thr_d positions index_dither unique_pos ->
  dither_invariant thr_d (positions ++ rest)
    (foldl (StellarPsf.dither_step thr_d) (index_dither, unique_pos, counter)
           rest).1.1
    (foldl (StellarPsf.dither_step thr_d) (index_dither, unique_pos, counter)
           rest).1.2.
Proof.
  revert positions index_dither unique_pos counter.
  induction rest as [|pos rest IH];
    intros positions index_dither unique_pos counter Hc Hinv.
  - by rewrite app_nil_r.
  - cbn [foldl]. unfold StellarPsf.dither_step at 2 4.
    destruct Hinv as (Hlen & Hidx & Hsep).
    replace (positions ++ pos :: rest) with ((positions ++ [pos]) ++ rest)
      by (by rewrite <- app_assoc).
    destruct (StellarPsf.first_within thr_d pos unique_pos) as [i|] eqn:Hfw.
    + apply IH; [done |].
      apply first_within_Some in Hfw as (uni & Hu & Hw & Hbefore).
      split; [by rewrite !length_app, Hlen |]. split; [|done].
      intros un d Hd. apply lookup_app_Some in Hd as [Hd | [Hge Hd]].
      * destruct (Hidx un d Hd) as (p & u & Hp & Hu' & Hrel).
        exists p, u. split; [by apply lookup_app_l_Some | done].
      * apply list_lookup_singleton_Some in Hd as [Hun <-].
        exists pos, uni. split; [|by repeat split; try (by right)].
        rewrite lookup_app_r by lia.
        replace (un - length positions)%nat with 0%nat by lia. done.
    + pose proof (first_within_None _ _ _ Hfw) as Hnone.
      apply IH; [by rewrite length_app; simpl; lia |].
      split; [by rewrite !length_app, Hlen |]. split.
      * intros un d Hd. apply lookup_app_Some in Hd as [Hd | [Hge Hd]].
        -- destruct (Hidx un d Hd) as (p & u & Hp & Hu' & Hor & Hbefore).
           exists p, u. split; [by apply lookup_app_l_Some |].
           split; [by apply lookup_app_l_Some |]. split; [done |].
           intros d' uni' Hd' Hu''. apply (Hbefore d'); [done |].
           apply lookup_app_Some in Hu'' as [? | [Hge _]]; [done |].
           apply lookup_lt_Some in Hu'. lia.
        -- apply list_lookup_singleton_Some in Hd as [Hun <-].
           exists pos, pos. split.
           { rewrite lookup_app_r by lia.
             replace (un - length positions)%nat with 0%nat by lia. done. }
           split.
           { rewrite Hc, lookup_app_r by lia. by rewrite Nat.sub_diag. }
           split; [by left |].
           intros d' uni' Hd' Hu'. apply (Hnone d').
           apply lookup_app_Some in Hu' as [? | [Hge' _]]; [done | lia].
      * intros d' d u' u Hdd Hu' Hu.
        apply lookup_app_Some in Hu as [Hu | [Hge Hu]].
        -- apply (Hsep d' d); try done.
           apply lookup_app_Some in Hu' as [? | [Hge' _]]; [done |].
           apply lookup_lt_Some in Hu. lia.
        -- apply list_lookup_singleton_Some in Hu as [Hd <-].
           apply (Hnone d').
           apply lookup_app_Some in Hu' as [? | [Hge' _]]; [done | lia].
Qed.

(** X13: the dither loop of [get_stellar_psf] gives every cube the number
    of the first dither position lying less than [thr_d] from its star
    (integer pixel distance), or a new number when there is none; no dither
    position lies less than [thr_d] from an earlier one, and the test is
    the comparison of the squared distance with [thr_d] squared. *)
Theorem dither_groups_first_match (thr_d : Q) (unsat_pos : list (Z * Z))
    (index_dither : list nat) (unique_pos : list (Z * Z)) :
  StellarPsf.dither_groups thr_d unsat_pos = Ok (index_dither, unique_pos) ->
  dither_invariant thr_d unsat_pos index_dither unique_pos /\
  (forall y x y1 x1,
     StellarPsf.closer_than thr_d y x y1 x1 = true <->
     (0 < thr_d)%Q /\
     (inject_Z ((y - y1) ^ 2 + (x - x1) ^ 2) < thr_d ^ 2)%Q).
Proof.
  intros H. split.
  - unfold StellarPsf.dither_groups in H.
    destruct unsat_pos as [|pos0 rest]; [done |].
    cbn [FirstFrames.index_nat lookup list_lookup mbind result_bind drop] in H.
    change (drop 0 rest) with rest in H.
    pose proof (dither_fold thr_d rest [pos0] [0%nat] [pos0] 1 eq_refl) as Hfold.
    destruct (foldl (StellarPsf.dither_step thr_d) ([0%nat], [pos0], 1%nat) rest)
      as [[idx uniq] counter].
    cbn in H. injection H as <- <-. apply Hfold. split; [done |]. split.
    + intros [|un] d Hd; [|done]. injection Hd as <-.
      exists pos0, pos0. repeat split; try done; [by left | lia].
    + intros d' [|d] u' u Hdd Hu' Hu; [lia | done].
  - intros y x y1 x1. unfold StellarPsf.closer_than.
    rewrite andb_true_iff, !Qltb_lt.
    replace ((y - y1) ^ 2 + (x - x1) ^ 2)
      with ((y - y1) * (y - y1) + (x - x1) * (x - x1)) by ring.
    assert (Hsq : (thr_d ^ 2 == thr_d * thr_d)%Q) by (simpl; ring).
    by rewrite Hsq.
Qed.

Lemma dither_groups_first_match_witness :
  exists index_dither unique_pos,
    StellarPsf.dither_groups 5 [(10, 10); (11, 10); (50, 50)]
    = Ok (index_dither, unique_pos) /\
    length index_dither = 3%nat.
Proof.
  destruct (StellarPsf.dither_groups 5 [(10, 10); (11, 10); (50, 50)])
    as [[index_dither unique_pos]|e] eqn:E; [|vm_compute in E; discriminate].
  destruct (dither_groups_first_match _ _ _ _ E) as [(Hlen & _) _].
  exists index_dither, unique_pos. split; [reflexivity | exact Hlen].
Defined.

(** *** Files under a stage that may raise *)

Lemma tail_untouched_refl {image} (s : StellarPsf.files image) : tail_untouched s s.
Proof. by split. Qed.

Lemma tail_untouched_trans {image} (s1 s2 s3 : StellarPsf.files image) :
  tail_untouched s1 s2 -> tail_untouched s2 s3 -> tail_untouched s1 s3.
Proof. intros [H1 H2] [H3 H4]. split; congruence. Qed.

Lemma keeps_lift {image A} (r : result A) :
  keeps (StellarPsf.lift r : StellarPsf.stage (StellarPsf.files image) A).
Proof. intros s. apply tail_untouched_refl. Qed.

Lemma keeps_ret {image A} (a : A) :
  keeps (mret a : StellarPsf.stage (StellarPsf.files image) A).
Proof. intros s. apply tail_untouched_refl. Qed.

Lemma keeps_bind {image A B} (m : StellarPsf.stage (StellarPsf.files image) A)
    (k : A -> StellarPsf.stage (StellarPsf.files image) B) :
  keeps m -> (forall a, keeps (k a)) -> keeps (m ≫= k).
Proof.
  intros Hm Hk s. unfold mbind, StellarPsf.stage_bind.
  specialize (Hm s). destruct (m s) as [s' [a|e]]; [|done].
  eapply tail_untouched_trans; [exact Hm | apply Hk].
Qed.

Lemma keeps_raise {image A B} (e : exn)
    (k : A -> StellarPsf.stage (StellarPsf.files image) B) :
  keeps (StellarPsf.lift (Raise e) ≫= k).
Proof. intros s. apply tail_untouched_refl. Qed.

Lemma never_bind {image A B} (m : StellarPsf.stage (StellarPsf.files image) A)
    (k : A -> StellarPsf.stage (StellarPsf.files image) B) :
  (forall a, never (k a)) -> never (m ≫= k).
Proof.
  intros Hk s. unfold mbind, StellarPsf.stage_bind.
  destruct (m s) as [s' [a|e]]; [apply Hk | by exists e].
Qed.

Lemma never_raise {image A B} (e : exn)
    (k : A -> StellarPsf.stage (StellarPsf.files image) B) :
  never (StellarPsf.lift (Raise e) ≫= k).
Proof. intros s. by exists e. Qed.

Lemma keeps_for_each_st {image A}
    (body : nat -> A -> StellarPsf.stage (StellarPsf.files image) unit)
    (i : nat) (l : list A) :
  (forall i a, keeps (body i a)) -> keeps (StellarPsf.for_each_st body i l).
Proof.
  intros Hbody. revert i. induction l as [|a l IH]; intros i; simpl.
  - apply keeps_ret.
  - apply keeps_bind; [apply Hbody | intros _; apply IH].
Qed.

Lemma keeps_map_st {image A B}
    (f : A -> StellarPsf.stage (StellarPsf.files image) B) (l : list A) :
  (forall a, keeps (f a)) -> keeps (StellarPsf.map_st f l).
Proof.
  intros Hf. induction l as [|a l IH]; simpl.
  - apply keeps_ret.
  - apply keeps_bind; [apply Hf | intros b].
    apply keeps_bind; [apply IH | intros bs; apply keeps_ret].
Qed.

Section PsfFacts.

Variable image : Type.
Variable lowpass_median : list image -> DustSpecks.ndarray Q.
Variable cube_median : list image -> image.
Variable frame_sub : image -> image -> image.
Variable zeros_frame : Z -> image.
Variable aperture : Type.
Variable circular_aperture : Z * Z -> Z -> result aperture.
Variable aperture_photometry : image -> aperture -> result Q.
Variable np_std : list Q -> Q.
Variable cube_crop_frames : list image -> Z -> Q * Q -> result (list image).
Variable frame_center : image -> Q * Q.
Variable cube_recenter_2dfit : list image -> Z * Z -> Q -> result (list image).
Variable fit_2dgaussian : image -> Q -> result (Q * Q * Q).
Variable normalize_psf : image -> Q -> result (image * Q).

Lemma keeps_open_fits (name : string) : keeps (StellarPsf.open_fits image name).
Proof. intros s. apply tail_untouched_refl. Qed.

Lemma keeps_open_vector (name : string) :
  keeps (StellarPsf.open_vector image name).
Proof. intros s. apply tail_untouched_refl. Qed.

Lemma keeps_isfile (name : string) : keeps (StellarPsf.isfile image name).
Proof. intros s. apply tail_untouched_refl. Qed.

Lemma keeps_write_cube (name : string) (cube : list image) :
  keeps (StellarPsf.write_cube image name cube).
Proof. intros s. by split. Qed.

Lemma keeps_rm (name : string) : keeps (StellarPsf.rm image name).
Proof. intros s. by split. Qed.

Lemma keeps_write_frame (name : string) (frame : image) :
  name <> "master_unsat_psf_norm.fits" ->
  keeps (StellarPsf.write_frame image name frame).
Proof. intros Hne s. split; [|done]. simpl. by rewrite lookup_insert_ne. Qed.

Lemma keeps_write_vector (name : string) (v : list Q) :
  name <> "master_unsat-stellarpsf_fluxes.fits" ->
  keeps (StellarPsf.write_vector image name v).
Proof. intros Hne s. split; [done |]. simpl. by rewrite lookup_insert_ne. Qed.

Ltac keeps_step :=
  first
    [ apply keeps_lift | apply keeps_ret | apply keeps_open_fits
    | apply keeps_open_vector | apply keeps_isfile | apply keeps_write_cube
    | apply keeps_rm
    | apply keeps_write_frame; discriminate
    | apply keeps_write_vector; discriminate
    | apply keeps_raise
    | apply keeps_bind; [|intros ?] ].

Lemma keeps_find_filtered_max (path : string) :
  keeps (StellarPsf.find_filtered_max image lowpass_median path).
Proof.
  unfold StellarPsf.find_filtered_max. repeat keeps_step.
  destruct (DustSpecks.shape _) as [|? [|? [|]]]; keeps_step.
Qed.

Lemma keeps_sky_subtract_unsat unsat_list good_unsat_list index_dither
    unsat_mjd_list un fits_name :
  keeps (StellarPsf.sky_subtract_unsat image cube_median frame_sub unsat_list
           good_unsat_list index_dither unsat_mjd_list un fits_name).
Proof.
  unfold StellarPsf.sky_subtract_unsat. case_bool_decide; repeat keeps_step.
Qed.

Lemma keeps_stack_psf resel_ori crop_sz_tmp crop_sz new_ndit_unsat
    good_unsat_pos un fits_name psf_tmp :
  keeps (StellarPsf.stack_psf image cube_crop_frames frame_center
           cube_recenter_2dfit resel_ori crop_sz_tmp crop_sz new_ndit_unsat
           good_unsat_pos un fits_name psf_tmp).
Proof.
  unfold StellarPsf.stack_psf. repeat keeps_step.
  destruct (frame_center _) as [cy cx]. repeat keeps_step.
Qed.

Lemma keeps_stack_psfs resel_ori crop_sz_tmp crop_sz new_ndit_unsat
    good_unsat_pos un good_unsat_list psf_tmp :
  keeps (StellarPsf.stack_psfs image cube_crop_frames frame_center
           cube_recenter_2dfit resel_ori crop_sz_tmp crop_sz new_ndit_unsat
           good_unsat_pos un good_unsat_list psf_tmp).
Proof.
  revert un psf_tmp. induction good_unsat_list as [|fits_name rest IH];
    intros un psf_tmp; simpl.
  - apply keeps_ret.
  - apply keeps_bind; [apply keeps_stack_psf | intros p; apply IH].
Qed.

(** X14: [get_stellar_psf] never completes: whatever the inputs and the
    files, it raises, and neither [master_unsat_psf_norm.fits] nor
    [master_unsat-stellarpsf_fluxes.fits] is written.  The statement that
    reads [nd_filter], a name that the docstring describes and nothing
    binds, stands before the two writes. *)
Theorem get_stellar_psf_never_completes (dataset_dict : StellarPsf.psf_dict)
    (unsat_list : list string) (headers : gmap string Q)
    (plot : FirstFrames.plot_option) (remove : bool)
    (s : StellarPsf.files image) :
  let run := StellarPsf.get_stellar_psf image lowpass_median cube_median
               frame_sub zeros_frame aperture circular_aperture
               aperture_photometry np_std cube_crop_frames frame_center
               cube_recenter_2dfit fit_2dgaussian normalize_psf dataset_dict
               unsat_list headers plot remove s in
  raising run.2 /\ tail_untouched s run.1.
Proof.
  cbv zeta. split.
  - revert s. unfold StellarPsf.get_stellar_psf.
    repeat first [apply never_raise | apply never_bind; intros ?].
  - revert s. unfold StellarPsf.get_stellar_psf.
    repeat first
      [ apply keeps_raise
      | apply keeps_find_filtered_max
      | apply keeps_sky_subtract_unsat
      | apply keeps_stack_psfs
      | apply keeps_for_each_st; intros ? ?
      | apply keeps_map_st; intros ?
      | match goal with
        | |- keeps (if ?b then _ else _) => destruct b
        | |- keeps (let '(_, _) := ?p in _) => destruct p
        end
      | keeps_step ].
Qed.

End PsfFacts.

(** *** Unsaturated cubes taken at one dither position *)

Lemma traverse_Ok_map {A B} (f : A -> result B) (g : A -> B) (l : list A) :
  (forall a, a ∈ l -> f a = Ok (g a)) ->
  FirstFrames.traverse f l = Ok (map g l).
Proof.
  induction l as [|a l IH]; intros H; [done |].
  cbn [FirstFrames.traverse map]. rewrite (H a) by left.
  rewrite IH by (intros b Hb; apply H; by right). done.
Qed.

Lemma dither_fold_one (thr_d : Q) (pos0 : Z * Z) (rest : list (Z * Z))
    (index_dither : list nat) (counter : nat) :
  (forall pos, pos ∈ rest -> within thr_d pos pos0) ->
  foldl (StellarPsf.dither_step thr_d) (index_dither, [pos0], counter) rest
  = (index_dither ++ repeat 0%nat (length rest), [pos0], counter).
Proof.
  revert index_dither. induction rest as [|pos rest IH]; intros index_dither H.
  - by rewrite app_nil_r.
  - cbn [foldl length repeat]. unfold StellarPsf.dither_step at 2.
    assert (Hf : StellarPsf.first_within thr_d pos [pos0] = Some 0%nat).
    { unfold StellarPsf.first_within. cbn [list_find].
      rewrite decide_True; [done |]. apply (H pos). by left. }
    rewrite Hf, IH by (intros p Hp; apply H; by right).
    by rewrite <- app_assoc.
Qed.

Lemma lookup_repeat_lt {A} (x : A) (n i : nat) :
  (i < n)%nat -> repeat x n !! i = Some x.
Proof.
  revert i. induction n as [|n IH]; intros [|i] Hi; simpl; try lia; [done |].
  apply IH. lia.
Qed.

Lemma filter_none {A} (P : A -> Prop) `{forall a, Decision (P a)} (l : list A) :
  (forall a, a ∈ l -> ~ P a) -> filter P l = [].
Proof.
  induction l as [|a l IH]; intros Hn; [done |].
  rewrite filter_cons_False by (apply Hn; by left).
  apply IH. intros b Hb. apply Hn. by right.
Qed.

Section OneDitherPosition.

Variable image : Type.
Variable cube_median : list image -> image.
Variable frame_sub : image -> image -> image.

(** X15: when the star stays within [thr_d] of its first position in every
    unsaturated cube, all cubes share dither position 0, and the first good
    cube finds no cube to take its sky from: [find_nearest] gets an empty
    list and the stage stops on a [ValueError], with no file written. *)
Theorem one_dither_position_no_sky (thr_d : Q) (pos0 : Z * Z)
    (rest : list (Z * Z)) (unsat_list good_unsat_list : list string)
    (unsat_mjd_list : list Q) (un : nat) (fits_name : string)
    (s : StellarPsf.files image) :
  (forall pos, pos ∈ rest -> within thr_d pos pos0) ->
  length unsat_list = length (pos0 :: rest) ->
  length unsat_mjd_list = length (pos0 :: rest) ->
  unsat_list !! un = Some fits_name ->
  fits_name ∈ good_unsat_list ->
  is_Some (StellarPsf.cubes image s !! ("3_rmfr_unsat_" +:+ fits_name)) ->
  exists index_dither,
    StellarPsf.dither_groups thr_d (pos0 :: rest) = Ok (index_dither, [pos0]) /\
    StellarPsf.sky_subtract_unsat image cube_median frame_sub unsat_list
      good_unsat_list index_dither unsat_mjd_list un fits_name s
    = (s, Raise ValueError).
Proof.
  intros Hnear Hlen Hmjd Hun Hgood [cube Hcube].
  exists (repeat 0%nat (length (pos0 :: rest))). split.
  - unfold StellarPsf.dither_groups.
    cbn [FirstFrames.index_nat lookup list_lookup mbind result_bind drop].
    change (drop 0 rest) with rest.
    by rewrite (dither_fold_one thr_d pos0 rest [0%nat] 1 Hnear).
  - pose proof (lookup_lt_Some _ _ _ Hun) as Hlt.
    set (n := length (pos0 :: rest)) in *.
    unfold StellarPsf.sky_subtract_unsat.
    rewrite bool_decide_true by done.
    unfold mbind at 1, StellarPsf.stage_bind, StellarPsf.open_fits.
    cbn [fst snd]. rewrite Hcube.
    assert (Hhere : FirstFrames.index_nat (repeat 0%nat n) un = Ok 0%nat).
    { unfold FirstFrames.index_nat.
      by rewrite lookup_repeat_lt by lia. }
    unfold mbind at 1, StellarPsf.stage_bind, StellarPsf.lift.
    cbn [fst snd]. rewrite Hhere.
    unfold mbind at 1, StellarPsf.stage_bind. cbn [fst snd].
    rewrite (traverse_Ok_map _ (fun j => (j, 0%nat))).
    2:{ intros j Hj. apply elem_of_seq in Hj.
        unfold FirstFrames.index_nat.
        by rewrite lookup_repeat_lt by lia. }
    rewrite (filter_none (fun p : nat * nat => p.2 <> 0%nat)).
    2:{ intros p Hp. apply list_elem_of_fmap in Hp as (j & -> & _).
        simpl. intros Hne. by apply Hne. }
    unfold mbind at 1, StellarPsf.stage_bind. cbn [fst snd fmap list_fmap].
    cbn [FirstFrames.traverse].
    assert (Ht : exists t, FirstFrames.index_nat unsat_mjd_list un = Ok t).
    { unfold FirstFrames.index_nat.
      destruct (lookup_lt_is_Some_2 unsat_mjd_list un) as [t ->]; [lia |].
      by exists t. }
    destruct Ht as [t Ht].
    unfold mbind at 1, StellarPsf.stage_bind. cbn [fst snd]. rewrite Ht.
    unfold mbind at 1, StellarPsf.stage_bind. cbn [fst snd].
    done.
Qed.

End OneDitherPosition.

Lemma one_dither_position_no_sky_witness :
  let s := {| StellarPsf.cubes := {[ "3_rmfr_unsat_a.fits" := [1%Q] ]};
              StellarPsf.frames := ∅; StellarPsf.vectors := ∅ |} in
  exists index_dither,
    StellarPsf.dither_groups 5 [(10, 10); (11, 10)] = Ok (index_dither, [(10, 10)]) /\
    StellarPsf.sky_subtract_unsat Q (fun _ => 0%Q) Qminus ["a.fits"; "b.fits"]
      ["a.fits"] index_dither [1; 2]%Q 0 "a.fits" s
    = (s, Raise ValueError).
Proof.
  intros s.
  apply (one_dither_position_no_sky Q (fun _ => 0%Q) Qminus 5 (10, 10)
           [(11, 10)] ["a.fits"; "b.fits"] ["a.fits"] [1; 2]%Q 0 "a.fits" s).
  - intros pos Hpos. apply list_elem_of_singleton in Hpos as ->. reflexivity.
  - reflexivity.
  - reflexivity.
  - reflexivity.
  - apply list_elem_of_singleton. reflexivity.
  - exists [1%Q]. reflexivity.
Defined.

(** *** Science cubes too short to settle [nfr_rm] *)

Lemma py_index_last_nonempty {A} (l : list A) :
  l <> [] -> exists a, Np.py_index l (-1) = Ok a.
Proof.
  intros Hne. unfold Np.py_index.
  assert (Hlen : (0 < length l)%nat) by (destruct l; [done | simpl; lia]).
  change (-1 <? 0) with true. cbv iota.
  replace (0 <=? -1 + Z.of_nat (length l)) with true
    by (symmetry; apply Z.leb_le; lia).
  replace (-1 + Z.of_nat (length l) <? Z.of_nat (length l)) with true
    by (symmetry; apply Z.ltb_lt; lia).
  cbn [andb].
  destruct (lookup_lt_is_Some_2 l (Z.to_nat (-1 + Z.of_nat (length l))))
    as [a ->]; [lia |]. by exists a.
Qed.

Lemma real_ndit_traverse_Ok (cubes : list FirstFrames.cube) :
  Forall (fun c => c <> []) cubes ->
  FirstFrames.traverse
    (fun tmp_tmp => _ ← Np.py_index tmp_tmp (-1);
                    Ok (Z.of_nat (length tmp_tmp) - 1)) cubes
  = Ok (real_ndit cubes).
Proof.
  intros H. unfold real_ndit. apply traverse_Ok_map.
  intros c Hc. rewrite Forall_forall in H.
  by destruct (py_index_last_nonempty c (H c Hc)) as [a ->].
Qed.

Lemma traverse_is_Ok {A B} (f : A -> result B) (l : list A) :
  (forall a, a ∈ l -> exists b, f a = Ok b) ->
  exists r, FirstFrames.traverse f l = Ok r.
Proof.
  induction l as [|a l IH]; intros H; [by exists [] |].
  destruct (H a) as [b Hb]; [by left |].
  destruct IH as [r Hr]; [intros a' Ha'; apply H; by right |].
  exists (b :: r). cbn [FirstFrames.traverse]. by rewrite Hb, Hr.
Qed.

Section ShortCubes.

Variable annulus_flux : FirstFrames.frame -> Q.
Variable np_std : list Q -> Q.

Lemma find_nfr_rm_short (l : list Q) :
  (length l <= 1)%nat -> FirstFrames.find_nfr_rm np_std l = None.
Proof.
  destruct l as [|x [|y l]]; simpl; intros Hl; [done | | lia].
  unfold FirstFrames.find_nfr_rm.
  destruct (Np.np_median [x]); [|done].
  cbn [FirstFrames.flag_loop]. unfold FirstFrames.flagged.
  by rewrite Nat.eqb_refl, orb_true_r.
Qed.

(** X16: in a full reduction, when a science cube holds at most two frames
    (one frame and the median frame that closes the cube), the flagging
    loop runs over frame-index 0 alone, which is always flagged: nothing
    binds [nfr_rm] and the stage stops on an [UnboundLocalError]. *)
Theorem short_cube_leaves_nfr_rm_unbound (dd : FirstFrames.dataset_dict)
    (plot : FirstFrames.plot_option) (sci sky : list FirstFrames.cube) :
  FirstFrames.fast_reduction dd = false ->
  Forall (fun c => c <> []) sci ->
  Forall (fun c => c <> []) sky ->
  Exists (fun c => (length c <= 2)%nat) sci ->
  FirstFrames.first_frames_removal annulus_flux np_std dd plot sci sky
  = Raise UnboundLocalError.
Proof.
  intros Hfast Hsci Hsky Hshort.
  assert (Hne : sci <> []) by (intros ->; by apply Exists_nil in Hshort).
  unfold FirstFrames.first_frames_removal.
  destruct (py_index_last_nonempty sci Hne) as [last ->].
  cbn [mbind result_bind].
  rewrite (real_ndit_traverse_Ok sci Hsci), (real_ndit_traverse_Ok sky Hsky).
  cbn [mbind result_bind].
  destruct (FirstFrames.py_min_list (real_ndit sci)) as [m|e] eqn:Hm.
  2:{ destruct sci; [done | discriminate]. }
  cbn [mbind result_bind]. rewrite Hfast.
  apply py_min_list_Ok_inv in Hm as [_ Hle].
  assert (Hm1 : m <= 1).
  { apply Exists_exists in Hshort as (c & Hc & Hlen).
    rewrite Forall_forall in Hle.
    assert (Hin : Z.of_nat (length c) - 1 ∈ real_ndit sci).
    { unfold real_ndit. apply list_elem_of_fmap. by exists c. }
    specialize (Hle _ Hin). lia. }
  destruct (traverse_is_Ok
              (fun tmp => FirstFrames.measure annulus_flux tmp 0 (Z.to_nat m)) sci)
    as [tmp_fluxes ->].
  { intros tmp Htmp. unfold FirstFrames.measure. apply traverse_is_Ok.
    intros ii Hii. apply elem_of_seq in Hii.
    assert (Hin : Z.of_nat (length tmp) - 1 ∈ real_ndit sci).
    { unfold real_ndit. apply list_elem_of_fmap. by exists tmp. }
    rewrite Forall_forall in Hle. specialize (Hle _ Hin).
    unfold FirstFrames.index_nat.
    destruct (lookup_lt_is_Some_2 tmp ii) as [f ->]; [lia |]. by eexists. }
  cbn [mbind result_bind fst snd].
  rewrite find_nfr_rm_short; [done |].
  unfold FirstFrames.median_axis0. rewrite length_map, length_seq. lia.
Qed.

End ShortCubes.

Lemma short_cube_leaves_nfr_rm_unbound_witness :
  FirstFrames.first_frames_removal (fun f => Np.np_sum f) (fun _ => 0%Q)
    {| FirstFrames.ndit_sci := [1]; FirstFrames.ndit_sky := [1];
       FirstFrames.ndit_unsat := [1]; FirstFrames.fast_reduction := false |}
    FirstFrames.PlotNone [[[1%Q]; [1%Q]]] [[[1%Q]; [1%Q]]]
  = Raise UnboundLocalError.
Proof.
  apply short_cube_leaves_nfr_rm_unbound.
  - reflexivity.
  - repeat constructor; discriminate.
  - repeat constructor; discriminate.
  - apply Exists_cons_hd. simpl. lia.
Defined.

(** *** The star position in an unsaturated cube *)

Lemma argmax_as_argmin (l : list Q) (best : nat) (bv : Q) (i : nat) :
  StellarPsf.argmax_from best bv i l
  = Np.argmin_from best (- bv) i (map Qopp l).
Proof.
  revert best bv i. induction l as [|x l IH]; intros best bv i; [done |].
  cbn [StellarPsf.argmax_from Np.argmin_from map].
  assert (E : Np.Qltb bv x = Np.Qltb (- x) (- bv)).
  { apply eq_true_iff_eq. rewrite !Qltb_lt. split; intros H.
    - by apply Qopp_lt_compat.
    - apply Qopp_lt_compat in H. by rewrite !Qopp_involutive in H. }
  rewrite <- E. destruct (Np.Qltb bv x); apply IH.
Qed.

Lemma np_argmax_first_max (x : Q) (l : list Q) :
  exists i v, StellarPsf.np_argmax (x :: l) = Ok i /\
    (x :: l) !! i = Some v /\
    (forall j w, (x :: l) !! j = Some w -> (w <= v)%Q) /\
    (forall j w, (x :: l) !! j = Some w -> (j < i)%nat -> (w < v)%Q).
Proof.
  destruct (np_argmin_first_min (- x) (map Qopp l)) as (i & d & Harg & Hi & Hle & Hlt).
  change (- x :: map Qopp l)%Q with (map Qopp (x :: l)) in Hi, Hle, Hlt.
  rewrite list_lookup_map in Hi.
  destruct ((x :: l) !! i) as [v|] eqn:Hv; [|done].
  injection Hi as <-. injection Harg as <-.
  exists (Np.argmin_from 0 (- x) 1 (map Qopp l)), v. split; [|split; [done | split]].
  - cbn [StellarPsf.np_argmax]. by rewrite argmax_as_argmin.
  - intros j w Hj.
    assert (H : (- v <= - w)%Q)
      by (apply (Hle j); by rewrite list_lookup_map, Hj).
    apply Qopp_le_compat in H. by rewrite !Qopp_involutive in H.
  - intros j w Hj Hji.
    assert (H : (- v < - w)%Q)
      by (apply (Hlt j); [by rewrite list_lookup_map, Hj | done]).
    apply Qopp_lt_compat in H. by rewrite !Qopp_involutive in H.
Qed.

Section StarPosition.

Variable image : Type.
Variable lowpass_median : list image -> DustSpecks.ndarray Q.

(** X17: on a readable cube whose filtered median frame has [ny] rows of
    [nx] pixels, [find_filtered_max] returns the row and the column of the
    largest pixel of that frame, the first one in row-major order when
    several are equal; both lie inside the frame, and no file changes. *)
Theorem find_filtered_max_first_maximum (path : string)
    (s : StellarPsf.files image) (cube : list image) (ny nx : nat) :
  let median_frame := lowpass_median cube in
  StellarPsf.cubes image s !! path = Some cube ->
  DustSpecks.shape median_frame = [ny; nx] ->
  length (DustSpecks.data median_frame) = (ny * nx)%nat ->
  (0 < ny * nx)%nat ->
  exists (ycom xcom : nat) (v : Q),
    StellarPsf.find_filtered_max image lowpass_median path s
    = (s, Ok (Z.of_nat ycom, Z.of_nat xcom)) /\
    (ycom < ny)%nat /\ (xcom < nx)%nat /\
    DustSpecks.data median_frame !! (ycom * nx + xcom)%nat = Some v /\
    (forall y x w, DustSpecks.data median_frame !! (y * nx + x)%nat = Some w ->
                   (w <= v)%Q) /\
    (forall y x w, DustSpecks.data median_frame !! (y * nx + x)%nat = Some w ->
                   (y * nx + x < ycom * nx + xcom)%nat -> (w < v)%Q).
Proof.
  intros median_frame Hcube Hshape Hlen Hpos.
  destruct (DustSpecks.data median_frame) as [|p rest] eqn:Hdata;
    [simpl in Hlen; lia |].
  destruct (np_argmax_first_max p rest) as (k & v & Hk & Hv & Hle & Hlt).
  pose proof (lookup_lt_Some _ _ _ Hv) as Hklt. rewrite Hlen in Hklt.
  assert (Hnx : (0 < nx)%nat) by nia.
  pose proof (Nat.div_mod_eq k nx) as Hdm.
  pose proof (Nat.mod_upper_bound k nx ltac:(lia)) as Hmod.
  exists (k / nx)%nat, (k mod nx)%nat, v.
  split; [|split; [|split; [done | split; [|split]]]].
  - unfold StellarPsf.find_filtered_max, mbind, StellarPsf.stage_bind,
      StellarPsf.open_fits, StellarPsf.lift.
    cbn [fst snd]. rewrite Hcube. fold median_frame.
    rewrite Hdata, Hk, Hshape. done.
  - apply Nat.Div0.div_lt_upper_bound. lia.
  - replace (k / nx * nx + k mod nx)%nat with k by lia. done.
  - intros y x w Hw. by apply (Hle (y * nx + x)%nat).
  - intros y x w Hw Hlt'. apply (Hlt (y * nx + x)%nat); [done | lia].
Qed.

End StarPosition.

Lemma find_filtered_max_first_maximum_witness :
  let frame := {| DustSpecks.shape := [2; 2]%nat;
                  DustSpecks.data := [1; 5; 5; 2]%Q |} in
  let s := {| StellarPsf.cubes := {[ "a.fits" := [frame] ]};
              StellarPsf.frames := ∅; StellarPsf.vectors := ∅ |} in
  exists (ycom xcom : nat),
    StellarPsf.find_filtered_max (DustSpecks.ndarray Q) (fun _ => frame)
      "a.fits" s
    = (s, Ok (Z.of_nat ycom, Z.of_nat xcom)) /\
    (ycom < 2)%nat /\ (xcom < 2)%nat.
Proof.
  intros frame s.
  destruct (find_filtered_max_first_maximum (DustSpecks.ndarray Q)
              (fun _ => frame) "a.fits" s [frame] 2 2)
    as (ycom & xcom & v & Hrun & Hy & Hx & _).
  - reflexivity.
  - reflexivity.
  - reflexivity.
  - simpl. lia.
  - exists ycom, xcom. split; [exact Hrun | split; [exact Hy | exact Hx]].
Defined.
